(** * oh-my-course: the course-structure inference engine of [scripts/app.js]

    A shallow embedding of the pure core of the [CourseViewer] class:
    the file-name classifier ([getFileType], [extractLessonNumber],
    [cleanLessonName], [cleanSectionName]), the natural sorter
    ([naturalSort] and [Array.prototype.sort]), the lesson grouper and the
    structure builder ([parseCourseStructure]), the session state touched by
    [loadCourse], lesson navigation ([navigateLesson]) and the completion
    percentage ([updateProgressBar], [saveCourseProgress]).

    Conventions.
    - A JavaScript string is a sequence of UTF-16 code units.  It is a
      [string] here, each [ascii] standing for one code unit below 256
      (the Latin-1 range).
    - A directory handle is a tree; the order of its [values] list is the
      order in which the platform enumerates the directory.
    - A JavaScript number is an IEEE 754 binary64 value: the Standard
      Library's [spec_float] with precision 53 and maximal exponent 1024.
    - [localeCompare] with the options [{numeric: true, sensitivity: 'base'}]
      is platform code.  The builder takes it as a parameter; [collate] is a
      concrete comparator with the two documented features of these options. *)

From Stdlib Require Import ZArith List String Ascii Bool Lia Permutation Sorted.
From Stdlib Require Import SpecFloat.
Import ListNotations.

Open Scope bool_scope.
Open Scope string_scope.
Open Scope list_scope.
Open Scope Z_scope.

(* ================================================================= *)
(** ** Code units and the string primitives used by the classifier *)

Definition code (c : ascii) : Z := Z.of_nat (nat_of_ascii c).

(** [\d] of a regular expression without the [u] flag: the ASCII digits. *)
Definition isDigit (c : ascii) : bool := (48 <=? code c) && (code c <=? 57).

(** [\s] and the characters removed by [String.prototype.trim]: white space
    and line terminators.  Below 256 these are TAB, LF, VT, FF, CR, SP and
    NBSP. *)
Definition isSpace (c : ascii) : bool :=
  let n := code c in
  ((9 <=? n) && (n <=? 13)) || (n =? 32) || (n =? 160).

(** Case folding of one code unit by a regular expression with the [i] flag
    against an ASCII pattern letter: only the ASCII letters fold. *)
Definition foldAscii (c : ascii) : ascii :=
  let n := code c in
  if (65 <=? n) && (n <=? 90) then ascii_of_nat (Z.to_nat (n + 32)) else c.

(** [String.prototype.toLowerCase] on one code unit below 256: the ASCII
    capitals and the Latin-1 capitals (all of 192..222 but the
    multiplication sign 215) move up by 32. *)
Definition lowerUnit (c : ascii) : ascii :=
  let n := code c in
  if ((65 <=? n) && (n <=? 90)) || ((192 <=? n) && (n <=? 222) && negb (n =? 215))
  then ascii_of_nat (Z.to_nat (n + 32)) else c.

Fixpoint mapUnits (f : ascii -> ascii) (s : string) : string :=
  match s with
  | EmptyString => EmptyString
  | String c r => String (f c) (mapUnits f r)
  end.

Definition toLowerCase (s : string) : string := mapUnits lowerUnit s.

(** [s.split('.')]: the segments between the dots, never an empty array. *)
Fixpoint split_dot (s : string) : list string :=
  match s with
  | EmptyString => [EmptyString]
  | String c r =>
      if Ascii.eqb c "."%char then EmptyString :: split_dot r
      else match split_dot r with
           | h :: t => String c h :: t
           | [] => [String c EmptyString]
           end
  end.

(** [Array.prototype.pop] read for its result: the last element, [None]
    standing for [undefined] on an empty array. *)
Fixpoint pop (l : list string) : option string :=
  match l with
  | [] => None
  | [x] => Some x
  | _ :: t => pop t
  end.

(** The greedy prefixes [\d+] and [\s*]. *)
Fixpoint dropSpaces (s : string) : string :=
  match s with
  | String c r => if isSpace c then dropSpaces r else s
  | EmptyString => EmptyString
  end.

Fixpoint digitRun (s : string) : nat :=
  match s with
  | String c r => if isDigit c then S (digitRun r) else O
  | EmptyString => O
  end.

Fixpoint takeUnits (n : nat) (s : string) : string :=
  match n, s with
  | S k, String c r => String c (takeUnits k r)
  | _, _ => EmptyString
  end.

Fixpoint dropUnits (n : nat) (s : string) : string :=
  match n, s with
  | S k, String _ r => dropUnits k r
  | _, _ => s
  end.

(** The match of [/^(\d+)\./] by backtracking: [\d+] first takes the whole
    run of digits, [k] of them, and gives them back one at a time until a
    dot follows; it keeps at least one.  The result is the captured group
    and the text after the match. *)
Fixpoint matchNumberDot_from (k : nat) (s : string) : option (string * string) :=
  match k with
  | O => None
  | S k' =>
      match dropUnits k s with
      | String c rest =>
          if Ascii.eqb c "."%char then Some (takeUnits k s, rest)
          else matchNumberDot_from k' s
      | EmptyString => matchNumberDot_from k' s
      end
  end.

Definition matchNumberDot (s : string) : option (string * string) :=
  matchNumberDot_from (digitRun s) s.

(* ================================================================= *)
(** ** Filename classifier *)

(** The values [getFileType] can return.  The first seven are the values of
    [typeMap], [file] is the fallback string.  [typeMap] is an object
    literal, so [typeMap[ext]] also finds the members it inherits from
    [Object.prototype]; after [toLowerCase] only the two all-lowercase
    member names can be hit, and [inherited] stands for the (truthy,
    non-string) value found there. *)
Inductive FileType :=
| video | subtitle | pdf | html | text | archive | presentation
| file
| inherited (member : string).

(** [typeMap[ext]]: [None] is [undefined]. *)
Definition typeMap (ext : string) : option FileType :=
  if String.eqb ext "mp4" then Some video
  else if String.eqb ext "vtt" then Some subtitle
  else if String.eqb ext "pdf" then Some pdf
  else if String.eqb ext "html" then Some html
  else if String.eqb ext "txt" then Some text
  else if String.eqb ext "zip" then Some archive
  else if String.eqb ext "odp" then Some presentation
  else if String.eqb ext "constructor" then Some (inherited "constructor")
  else if String.eqb ext "__proto__" then Some (inherited "__proto__")
  else None.

(** [getFileType(filename)]:
    [filename.split('.').pop().toLowerCase()] looked up in [typeMap],
    ['file'] when the lookup is [undefined]. *)
Definition getFileType (filename : string) : FileType :=
  match pop (split_dot filename) with
  | Some seg =>
      match typeMap (toLowerCase seg) with
      | Some t => t
      | None => file
      end
  | None => file
  end.

(** [extractLessonNumber(filename)]: group 1 of [/^(\d+)\./], else ['0']. *)
Definition extractLessonNumber (filename : string) : string :=
  match matchNumberDot filename with
  | Some (digits, _) => digits
  | None => "0"
  end.

(** [s.replace(/^\d+\.\s*/, '')]. *)
Definition stripNumberPrefix (s : string) : string :=
  match matchNumberDot s with
  | Some (_, rest) => dropSpaces rest
  | None => s
  end.

Definition cleanSectionName (name : string) : string := stripNumberPrefix name.

(** The extensions of [/\.(mp4|pdf|html|txt|vtt|zip|odp)$/i]. *)
Definition extensions : list string :=
  ["mp4"; "pdf"; "html"; "txt"; "vtt"; "zip"; "odp"].

(** Does the regular expression match the whole of [s]? *)
Definition isDotExtension (s : string) : bool :=
  match mapUnits foldAscii s with
  | String c e => Ascii.eqb c "."%char && existsb (String.eqb e) extensions
  | EmptyString => false
  end.

(** [s.replace(/\.(mp4|...|odp)$/i, '')]: the leftmost position from which
    the pattern matches up to the end is cut off. *)
Fixpoint stripExtension (s : string) : string :=
  match s with
  | EmptyString => EmptyString
  | String c r => if isDotExtension s then EmptyString else String c (stripExtension r)
  end.

(** [String.prototype.trim]. *)
Fixpoint trimEnd (s : string) : string :=
  match s with
  | EmptyString => EmptyString
  | String c r =>
      match trimEnd r with
      | EmptyString => if isSpace c then EmptyString else String c EmptyString
      | r' => String c r'
      end
  end.

Definition trim (s : string) : string := trimEnd (dropSpaces s).

(** [cleanLessonName(filename)]. *)
Definition cleanLessonName (filename : string) : string :=
  trim (stripExtension (stripNumberPrefix filename)).

(* ================================================================= *)
(** ** Natural sorter *)

(** [Array.prototype.sort(comparefn)] is a stable sort: elements that
    compare equal keep their order.  The model is a stable insertion sort;
    [comparefn a b <= 0] keeps [a] before [b].  The standard fixes the
    result for a consistent comparator only. *)
Section ArraySort.
Context {A : Type}.
Variable comparefn : A -> A -> Z.

Fixpoint insert (x : A) (l : list A) : list A :=
  match l with
  | [] => [x]
  | y :: r => if comparefn x y <=? 0 then x :: y :: r else y :: insert x r
  end.

Fixpoint sort (l : list A) : list A :=
  match l with
  | [] => []
  | x :: r => insert x (sort r)
  end.
End ArraySort.

(** A concrete comparator for [localeCompare(b, undefined, {numeric: true,
    sensitivity: 'base'})] on ASCII text.  It has the two features the
    options document: a run of digits compares by its numeric value, and
    letters that differ only in case compare equal.  A string becomes a key
    of weights, a digit run one weight [(48, value)], any other code unit
    the weight [(code of its lower case, 0)]; keys compare
    lexicographically.  The platform's own table orders punctuation and
    letters differently and folds accents; no statement below depends on
    that. *)
Fixpoint collationKey_from (run : option Z) (s : string) : list (Z * Z) :=
  let flush := match run with Some v => [(48, v)] | None => [] end in
  match s with
  | EmptyString => flush
  | String c r =>
      if isDigit c
      then collationKey_from
             (Some (10 * (match run with Some v => v | None => 0 end) + (code c - 48))) r
      else flush ++ (code (foldAscii c), 0) :: collationKey_from None r
  end.

Definition collationKey (s : string) : list (Z * Z) := collationKey_from None s.

Fixpoint keyCompare (k1 k2 : list (Z * Z)) : comparison :=
  match k1, k2 with
  | [], [] => Eq
  | [], _ :: _ => Lt
  | _ :: _, [] => Gt
  | (w1, v1) :: r1, (w2, v2) :: r2 =>
      match w1 ?= w2 with
      | Eq => match v1 ?= v2 with
              | Eq => keyCompare r1 r2
              | c => c
              end
      | c => c
      end
  end.

Definition collate (a b : string) : Z :=
  match keyCompare (collationKey a) (collationKey b) with
  | Lt => -1
  | Eq => 0
  | Gt => 1
  end.

(* ================================================================= *)
(** ** Directory handles and the course structure *)

(** A [FileSystemHandle]: a file, or a directory with the entries that
    [values()] enumerates, in enumeration order. *)
#[warnings="-register-all"]
Inductive FileSystemHandle :=
| FileHandle (name : string)
| DirectoryHandle (name : string) (entries : list FileSystemHandle).

Inductive Kind := kind_file | kind_directory.

Definition kind (h : FileSystemHandle) : Kind :=
  match h with
  | FileHandle _ => kind_file
  | DirectoryHandle _ _ => kind_directory
  end.

Definition name (h : FileSystemHandle) : string :=
  match h with
  | FileHandle n => n
  | DirectoryHandle n _ => n
  end.

Definition values (h : FileSystemHandle) : list FileSystemHandle :=
  match h with
  | FileHandle _ => []
  | DirectoryHandle _ es => es
  end.

Definition is_directory (h : FileSystemHandle) : bool :=
  match kind h with kind_directory => true | kind_file => false end.

Definition is_file (h : FileSystemHandle) : bool :=
  match kind h with kind_file => true | kind_directory => false end.

(** [{handle, name, type}], an element of [lesson.files]. *)
Record LessonFile := mkLessonFile {
  handle : FileSystemHandle;
  file_name : string;
  type : FileType
}.

(** [{number, name, files}], a lesson group. *)
Record Lesson := mkLesson {
  number : string;
  lesson_name : string;
  files : list LessonFile
}.

(** [{name, rawName, lessons, hasNonVideoFiles}], a section. *)
Record CourseSection := mkSection {
  section_name : string;
  rawName : string;
  lessons : list Lesson;
  hasNonVideoFiles : bool
}.

Definition CourseStructure := list CourseSection.

(** [fileType === 'video'] and [fileType === 'subtitle']. *)
Definition is_video (t : FileType) : bool :=
  match t with video => true | _ => false end.

Definition is_subtitle (t : FileType) : bool :=
  match t with subtitle => true | _ => false end.

(** [lesson.files.some(f => f.type === 'video')]. *)
Definition has_video (l : Lesson) : bool :=
  existsb (fun f => is_video (type f)) (files l).

(** ** The [Map] of lesson groups

    A JavaScript [Map] keeps its keys in insertion order: an association
    list.  [Map_set] keeps the place of a key that is present and appends
    one that is absent; the grouper calls it on absent keys only.
    [Map_push] is [map.get(key).files.push(f)], an update in place; the
    grouper calls it on present keys only. *)
Definition LessonMap := list (string * Lesson).

Fixpoint Map_has (m : LessonMap) (key : string) : bool :=
  match m with
  | [] => false
  | (k, _) :: r => String.eqb k key || Map_has r key
  end.

Fixpoint Map_get (m : LessonMap) (key : string) : option Lesson :=
  match m with
  | [] => None
  | (k, v) :: r => if String.eqb k key then Some v else Map_get r key
  end.

Fixpoint Map_set (m : LessonMap) (key : string) (v : Lesson) : LessonMap :=
  match m with
  | [] => [(key, v)]
  | (k, w) :: r => if String.eqb k key then (k, v) :: r else (k, w) :: Map_set r key v
  end.

Fixpoint Map_push (m : LessonMap) (key : string) (f : LessonFile) : LessonMap :=
  match m with
  | [] => []
  | (k, v) :: r =>
      if String.eqb k key
      then (k, mkLesson (number v) (lesson_name v) (files v ++ [f])) :: r
      else (k, v) :: Map_push r key f
  end.

Definition Map_values (m : LessonMap) : list Lesson := map snd m.

(** The outcome of a function that can [throw new Error(message)]. *)
Inductive Outcome (A : Type) :=
| Return (value : A)
| Throw (message : string).
Arguments Return {A} value.
Arguments Throw {A} message.

Definition no_sections_message : string :=
  "No sections found. Course folder must contain numbered section folders.".
Definition no_videos_message : string :=
  "No video files found. Course folder must contain video lessons.".
Definition invalid_format_message : string :=
  "Invalid course format. No valid sections with videos found.".

(* ================================================================= *)
(** ** Lesson grouper and structure builder: [parseCourseStructure] *)

Section Builder.
(** [a.localeCompare(b, undefined, {numeric: true, sensitivity: 'base'})]. *)
Variable localeCompare : string -> string -> Z.

Definition naturalSort (a b : string) : Z := localeCompare a b.

Definition byName (a b : FileSystemHandle) : Z := naturalSort (name a) (name b).

(** The variables the loop over [lessonEntries] updates. *)
Record GroupState := mkGroupState {
  lessonGroups : LessonMap;
  nonVideoFiles : list string;
  totalVideosFound : Z
}.

(** One iteration of [for (const lessonEntry of lessonEntries)]. *)
Definition groupStep (st : GroupState) (lessonEntry : FileSystemHandle) : GroupState :=
  let lessonNumber := extractLessonNumber (name lessonEntry) in
  let fileType := getFileType (name lessonEntry) in
  if is_video fileType || is_subtitle fileType then
    let groups :=
      if negb (Map_has (lessonGroups st) lessonNumber)
      then Map_set (lessonGroups st) lessonNumber
             (mkLesson lessonNumber (cleanLessonName (name lessonEntry)) [])
      else lessonGroups st in
    let groups := Map_push groups lessonNumber
                    (mkLessonFile lessonEntry (name lessonEntry) fileType) in
    mkGroupState groups (nonVideoFiles st)
      (if is_video fileType then totalVideosFound st + 1 else totalVideosFound st)
  else
    mkGroupState (lessonGroups st) (nonVideoFiles st ++ [name lessonEntry])
      (totalVideosFound st).

(** The file entries of a section directory, sorted: [lessonEntries]. *)
Definition lessonEntriesOf (entry : FileSystemHandle) : list FileSystemHandle :=
  sort byName (filter is_file (values entry)).

(** The grouper on a sorted list of file entries; [total] is the running
    [totalVideosFound]. *)
Definition groupLessons (total : Z) (lessonEntries : list FileSystemHandle) : GroupState :=
  fold_left groupStep lessonEntries (mkGroupState [] [] total).

(** [Array.from(lessonGroups.values()).filter(...).sort(...)]. *)
Definition videoLessonsOf (st : GroupState) : list Lesson :=
  sort (fun a b => naturalSort (number a) (number b))
       (filter has_video (Map_values (lessonGroups st))).

(** The body of [for (const entry of entries)] up to [section.lessons] and
    [section.hasNonVideoFiles]: the section and the new
    [totalVideosFound]. *)
Definition parseSection (total : Z) (entry : FileSystemHandle) : CourseSection * Z :=
  let st := groupLessons total (lessonEntriesOf entry) in
  (mkSection (cleanSectionName (name entry)) (name entry)
     (videoLessonsOf st)
     (0 <? Z.of_nat (List.length (nonVideoFiles st))),
   totalVideosFound st).

(** One iteration of the loop over the section directories: [structure]
    and [totalVideosFound] before and after. *)
Definition sectionStep (acc : CourseStructure * Z) (entry : FileSystemHandle)
  : CourseStructure * Z :=
  let '(structure, total) := acc in
  let '(section, total') := parseSection total entry in
  (if 0 <? Z.of_nat (List.length (lessons section)) then structure ++ [section] else structure,
   total').

(** [parseCourseStructure(dirHandle)]. *)
Definition parseCourseStructure (dirHandle : FileSystemHandle) : Outcome CourseStructure :=
  let entries := filter is_directory (values dirHandle) in
  if Z.of_nat (List.length entries) =? 0 then Throw no_sections_message
  else
    let entries := sort byName entries in
    let '(structure, total) := fold_left sectionStep entries ([], 0) in
    if total =? 0 then Throw no_videos_message
    else if Z.of_nat (List.length structure) =? 0 then Throw invalid_format_message
    else Return structure.
End Builder.

(* ================================================================= *)
(** ** Numbers and the completion percentage *)

(** A JavaScript number: binary64. *)
Definition Number := spec_float.

(** An integer as a number (exact below 2^53, rounded above). *)
Definition toNumber (n : Z) : Number := binary_normalize 53 1024 n 0 false.

Definition Number_div (x y : Number) : Number := SFdiv 53 1024 x y.
Definition Number_mul (x y : Number) : Number := SFmul 53 1024 x y.

(** [Math.round(x)] for a finite [x]: the integer closest to [x], a tie
    going to the larger one; that is the floor of [x + 1/2], taken exactly.
    An infinity or NaN, which [Math.round] returns unchanged, does not arise
    from the quotient of two integers with a positive divisor; the model
    returns 0 there. *)
Definition Math_round (x : Number) : Z :=
  match x with
  | S754_finite s m e =>
      let v := if s then Z.neg m else Z.pos m in
      if 0 <=? e then v * 2 ^ e
      else (2 * v + 2 ^ (- e)) / 2 ^ (- e + 1)
  | _ => 0
  end.

(** [courseStructure.reduce((sum, section) => sum + section.lessons.length, 0)]. *)
Definition totalLessonsOf (courseStructure : CourseStructure) : Z :=
  fold_left (fun sum section => sum + Z.of_nat (List.length (lessons section)))
            courseStructure 0.

(** [totalLessons > 0 ? Math.round((completedCount / totalLessons) * 100) : 0],
    the expression of [updateProgressBar] and [saveCourseProgress]. *)
Definition percentageOf (completedCount totalLessons : Z) : Z :=
  if 0 <? totalLessons
  then Math_round (Number_mul (Number_div (toNumber completedCount) (toNumber totalLessons))
                              (toNumber 100))
  else 0.

(* ================================================================= *)
(** ** The viewer's state and the stores it persists to *)

(** A value of the [courseLibrary] map. *)
Record CourseData := mkCourseData {
  course_name : string;
  course_handle : option FileSystemHandle;
  addedDate : Z;
  lastAccessed : Z
}.

(** An element of the array stored under ['course_library']: the
    serialisable part of a library entry. *)
Record LibraryRecord := mkLibraryRecord {
  lib_id : string;
  lib_name : string;
  lib_addedDate : Z;
  lib_lastAccessed : Z
}.

(** The object stored under [course_progress_<id>]. *)
Record ProgressData := mkProgressData {
  progress_courseName : string;
  progress_completedLessons : list string;
  progress_completedCount : Z;
  progress_totalLessons : Z;
  progress_percentage : Z
}.

(** The object stored under [last_session_<id>]. *)
Record SessionData := mkSessionData {
  session_sectionIndex : Z;
  session_lessonIndex : Z;
  session_lessonName : string;
  session_timestamp : Z
}.

(** [localStorage], by key family; the values are the objects whose JSON
    text is stored. *)
Record LocalStorage := mkLocalStorage {
  course_library : option (list LibraryRecord);
  course_progress : list (string * ProgressData);
  last_session : list (string * SessionData);
  last_course_id : option string
}.

(** The fields of [CourseViewer] that the modelled methods read or write,
    with the two stores: [localStorage] and the handles of [HandleDB]. *)
Record CourseViewer := mkCourseViewer {
  directoryHandle : option FileSystemHandle;
  courseStructure : CourseStructure;
  currentLesson : option (Z * Z);
  completedLessons : list string;
  courseName : string;
  courseLibrary : list (string * CourseData);
  currentCourseId : option string;
  localStorage : LocalStorage;
  handleDB : list (string * FileSystemHandle)
}.

(** The state the constructor leaves, on empty stores. *)
Definition newCourseViewer : CourseViewer :=
  mkCourseViewer None [] None [] "" [] None (mkLocalStorage None [] [] None) [].

(** A call of [showModal(message, title)]. *)
Record Modal := mkModal { modal_message : string; modal_title : string }.

Section Assoc.
Context {V : Type}.

(** [map.get(key)] and [localStorage.getItem]. *)
Fixpoint assoc_get (m : list (string * V)) (key : string) : option V :=
  match m with
  | [] => None
  | (k, v) :: r => if String.eqb k key then Some v else assoc_get r key
  end.

(** [map.set(key, v)], [store.put] and [localStorage.setItem]: an existing
    key keeps its place, a new one goes last. *)
Fixpoint assoc_set (m : list (string * V)) (key : string) (v : V) : list (string * V) :=
  match m with
  | [] => [(key, v)]
  | (k, w) :: r => if String.eqb k key then (k, v) :: r else (k, w) :: assoc_set r key v
  end.
End Assoc.

(** [new Set(array)]: the first occurrence of every element. *)
Fixpoint newSet (l : list string) : list string :=
  match l with
  | [] => []
  | x :: r => x :: filter (fun y => negb (String.eqb x y)) (newSet r)
  end.

(** [generateCourseId(courseName)]:
    [courseName.toLowerCase().replace(/[^a-z0-9]/g, '_')]. *)
Definition idUnit (c : ascii) : ascii :=
  let n := code c in
  if ((97 <=? n) && (n <=? 122)) || ((48 <=? n) && (n <=? 57)) then c else "_"%char.

Definition generateCourseId (courseName : string) : string :=
  mapUnits idUnit (toLowerCase courseName).

(** [loadCourseProgress(courseId)]. *)
Definition loadCourseProgress (courseId : string) (app : CourseViewer) : CourseViewer :=
  let completed :=
    match assoc_get (course_progress (localStorage app)) courseId with
    | Some progressData => newSet (progress_completedLessons progressData)
    | None => []
    end in
  mkCourseViewer (directoryHandle app) (courseStructure app) (currentLesson app)
    completed (courseName app) (courseLibrary app) (currentCourseId app)
    (localStorage app) (handleDB app).

(** [saveCourseLibrary()]. *)
Definition saveCourseLibrary (app : CourseViewer) : CourseViewer :=
  let libraryData :=
    map (fun '(id, data) =>
           mkLibraryRecord id (course_name data) (addedDate data) (lastAccessed data))
        (courseLibrary app) in
  let ls := localStorage app in
  mkCourseViewer (directoryHandle app) (courseStructure app) (currentLesson app)
    (completedLessons app) (courseName app) (courseLibrary app) (currentCourseId app)
    (mkLocalStorage (Some libraryData) (course_progress ls) (last_session ls)
       (last_course_id ls))
    (handleDB app).

(** [saveCourseProgress(courseId)]. *)
Definition saveCourseProgress (courseId : string) (app : CourseViewer) : CourseViewer :=
  let totalLessons := totalLessonsOf (courseStructure app) in
  let completedCount := Z.of_nat (List.length (completedLessons app)) in
  let percentage := percentageOf completedCount totalLessons in
  let progressData :=
    mkProgressData (courseName app) (completedLessons app) completedCount totalLessons
      percentage in
  let ls := localStorage app in
  mkCourseViewer (directoryHandle app) (courseStructure app) (currentLesson app)
    (completedLessons app) (courseName app) (courseLibrary app) (currentCourseId app)
    (mkLocalStorage (course_library ls)
       (assoc_set (course_progress ls) courseId progressData)
       (last_session ls) (last_course_id ls))
    (handleDB app).

(** [updateProgressBar()]: the percentage set as the bar's width, and the
    two counts shown beside it. *)
Definition updateProgressBar (app : CourseViewer) : Z * Z * Z :=
  let totalLessons := totalLessonsOf (courseStructure app) in
  let completedCount := Z.of_nat (List.length (completedLessons app)) in
  (percentageOf completedCount totalLessons, completedCount, totalLessons).

(** [array[i]] for an integer index: [None] is [undefined]. *)
Definition at_index {A : Type} (l : list A) (i : Z) : option A :=
  if i <? 0 then None else nth_error l (Z.to_nat i).

(** What a method ends with: it returns, or a [TypeError] leaves it (a
    property of [undefined] was read); both carry the state reached. *)
Inductive Completion (A : Type) :=
| Normal (result : A)
| TypeError (reached : A).
Arguments Normal {A} result.
Arguments TypeError {A} reached.

Definition setCurrentLesson (position : option (Z * Z)) (app : CourseViewer) : CourseViewer :=
  mkCourseViewer (directoryHandle app) (courseStructure app) position
    (completedLessons app) (courseName app) (courseLibrary app) (currentCourseId app)
    (localStorage app) (handleDB app).

(** [!this.currentCourseId]: [null] and the empty string are falsy. *)
Definition truthyId (id : option string) : option string :=
  match id with
  | Some EmptyString => None
  | other => other
  end.

(** [saveLastSession()]. *)
Definition saveLastSession (timestamp : Z) (app : CourseViewer) : Completion CourseViewer :=
  match currentLesson app, truthyId (currentCourseId app) with
  | Some (sectionIndex, lessonIndex), Some id =>
      match at_index (courseStructure app) sectionIndex with
      | None => TypeError app
      | Some section =>
          match at_index (lessons section) lessonIndex with
          | None => TypeError app
          | Some lesson =>
              let ls := localStorage app in
              Normal
                (mkCourseViewer (directoryHandle app) (courseStructure app)
                   (currentLesson app) (completedLessons app) (courseName app)
                   (courseLibrary app) (currentCourseId app)
                   (mkLocalStorage (course_library ls) (course_progress ls)
                      (assoc_set (last_session ls) id
                         (mkSessionData sectionIndex lessonIndex (lesson_name lesson)
                            timestamp))
                      (Some id))
                   (handleDB app))
          end
      end
  | _, _ => Normal app
  end.

(** The state changes of [loadLesson(sectionIndex, lessonIndex)] up to its
    first [await]: [currentLesson] is set and [saveLastSession()] runs; the
    lesson's name is then read for the title. *)
Definition loadLesson (timestamp : Z) (sectionIndex lessonIndex : Z) (app : CourseViewer)
  : Completion CourseViewer :=
  match at_index (courseStructure app) sectionIndex with
  | None => TypeError app
  | Some section =>
      let lesson := at_index (lessons section) lessonIndex in
      let app := setCurrentLesson (Some (sectionIndex, lessonIndex)) app in
      match saveLastSession timestamp app with
      | TypeError app => TypeError app
      | Normal app =>
          match lesson with
          | None => TypeError app
          | Some _ => Normal app
          end
      end
  end.

(** The decision of [navigateLesson(direction)]: the position it passes to
    [loadLesson], or [None] when it returns without loading. *)
Definition navigationTarget (direction : Z) (app : CourseViewer)
  : Completion (option (Z * Z)) :=
  match currentLesson app with
  | None => Normal None
  | Some (sectionIndex, lessonIndex) =>
      let newSectionIndex := sectionIndex in
      let newLessonIndex := lessonIndex + direction in
      if newLessonIndex <? 0 then
        if 0 <? newSectionIndex then
          let newSectionIndex := newSectionIndex - 1 in
          match at_index (courseStructure app) newSectionIndex with
          | None => TypeError None
          | Some section =>
              Normal (Some (newSectionIndex, Z.of_nat (List.length (lessons section)) - 1))
          end
        else Normal None
      else
        match at_index (courseStructure app) newSectionIndex with
        | None => TypeError None
        | Some section =>
            if Z.of_nat (List.length (lessons section)) <=? newLessonIndex then
              if newSectionIndex <? Z.of_nat (List.length (courseStructure app)) - 1
              then Normal (Some (newSectionIndex + 1, 0))
              else Normal None
            else Normal (Some (newSectionIndex, newLessonIndex))
        end
  end.

(** [navigateLesson(direction)]. *)
Definition navigateLesson (timestamp : Z) (direction : Z) (app : CourseViewer)
  : Completion CourseViewer :=
  match navigationTarget direction app with
  | TypeError _ => TypeError app
  | Normal None => Normal app
  | Normal (Some (newSectionIndex, newLessonIndex)) =>
      loadLesson timestamp newSectionIndex newLessonIndex app
  end.

(** [showLessonContent()]: the first lesson is loaded when there is one.  The
    call of [loadLesson] is not awaited, so an exception in it does not reach
    the caller; the state it reached stays. *)
Definition showLessonContent (timestamp : Z) (app : CourseViewer) : CourseViewer :=
  match courseStructure app with
  | section :: _ =>
      if 0 <? Z.of_nat (List.length (lessons section))
      then match loadLesson timestamp 0 0 app with
           | Normal app' => app'
           | TypeError app' => app'
           end
      else app
  | [] => app
  end.

Definition quote : string := String (ascii_of_nat 34) EmptyString.

Definition load_error_modal : Modal :=
  mkModal "Error loading course structure. Please ensure the folder contains valid course content."
          "Error".

Definition course_added_modal (courseName : string) : Modal :=
  mkModal ("Course " ++ quote ++ courseName ++ quote ++ " has been added to your library!")%string
          "Course Added".

Section Loading.
Variable localeCompare : string -> string -> Z.

(** [loadCourse(shouldOpen)].  [now k] is the value of the [k]-th call of
    [Date.now()].  The result is the state after the call and the modals
    it showed.  Everything runs inside [try]; the [catch] shows the error
    modal and restores nothing.  The two stores are taken not to fail. *)
Definition loadCourse (shouldOpen : bool) (now : nat -> Z) (app : CourseViewer)
  : CourseViewer * list Modal :=
  match directoryHandle app with
  | None => (app, [load_error_modal])
  | Some dirHandle =>
      let id := generateCourseId (name dirHandle) in
      let app :=
        mkCourseViewer (directoryHandle app) (courseStructure app) (currentLesson app)
          (completedLessons app) (name dirHandle) (courseLibrary app) (Some id)
          (localStorage app) (handleDB app) in
      match parseCourseStructure localeCompare dirHandle with
      | Throw _ => (app, [load_error_modal])
      | Return structure =>
          let app :=
            mkCourseViewer (directoryHandle app) structure (currentLesson app)
              (completedLessons app) (courseName app) (courseLibrary app)
              (currentCourseId app) (localStorage app) (handleDB app) in
          let app := loadCourseProgress id app in
          let app :=
            mkCourseViewer (directoryHandle app) (courseStructure app) (currentLesson app)
              (completedLessons app) (courseName app)
              (assoc_set (courseLibrary app) id
                 (mkCourseData (courseName app) (Some dirHandle) (now 0%nat) (now 1%nat)))
              (currentCourseId app) (localStorage app)
              (assoc_set (handleDB app) id dirHandle) in
          let app := saveCourseLibrary app in
          if shouldOpen then (showLessonContent (now 2%nat) app, [])
          else (app, [course_added_modal (courseName app)])
      end
  end.

(** [openCourse()] and [addCourse()] once the picker has returned
    [picked]: the handle is stored, then the course is loaded. *)
Definition pickDirectory (picked : FileSystemHandle) (app : CourseViewer) : CourseViewer :=
  mkCourseViewer (Some picked) (courseStructure app) (currentLesson app)
    (completedLessons app) (courseName app) (courseLibrary app) (currentCourseId app)
    (localStorage app) (handleDB app).

Definition openCourse (picked : FileSystemHandle) (now : nat -> Z) (app : CourseViewer)
  : CourseViewer * list Modal :=
  loadCourse true now (pickDirectory picked app).

Definition addCourse (picked : FileSystemHandle) (now : nat -> Z) (app : CourseViewer)
  : CourseViewer * list Modal :=
  loadCourse false now (pickDirectory picked app).
End Loading.

(* ================================================================= *)
(** ** What the statements below are phrased with *)

(** The comparator is consistent in the sense of the language standard:
    the signs of [cmp a b] and [cmp b a] are opposite, and "not after" is
    transitive. *)
Record Consistent {A : Type} (cmp : A -> A -> Z) : Prop := mkConsistent {
  cmp_opposite : forall a b, cmp a b < 0 <-> 0 < cmp b a;
  cmp_transitive : forall a b c, cmp a b <= 0 -> cmp b c <= 0 -> cmp a c <= 0
}.

(** [a] may stay before [b]. *)
Definition notAfter {A : Type} (cmp : A -> A -> Z) (a b : A) : Prop := cmp a b <= 0.

(** No two different entries of a listing have names that compare equal. *)
Definition NoTies (cmp : string -> string -> Z) (l : list FileSystemHandle) : Prop :=
  forall a b, In a l -> In b l -> cmp (name a) (name b) = 0 -> a = b.

(** Two handles of one directory whose listings differ in order only: the
    same name and kind, and entries that are a permutation of each other. *)
Definition SameEntries (d1 d2 : FileSystemHandle) : Prop :=
  name d1 = name d2 /\ kind d1 = kind d2 /\ Permutation (values d1) (values d2).

(** Two enumerations of one course folder: the root lists the same entries
    in another order, and so does every entry of the root. *)
Definition Reenumerated (root1 root2 : FileSystemHandle) : Prop :=
  exists l, Permutation (values root1) l /\ Forall2 SameEntries l (values root2).

(** The files of a section directory with a role other than video and
    subtitle: the grouper's "extra" files. *)
Definition isExtra (h : FileSystemHandle) : bool :=
  negb (is_video (getFileType (name h)) || is_subtitle (getFileType (name h))).

Definition extraCount (lessonEntries : list FileSystemHandle) : Z :=
  Z.of_nat (List.length (filter isExtra lessonEntries)).

(** The video-role files directly inside the section directories. *)
Definition isVideoFile (h : FileSystemHandle) : bool :=
  is_file h && is_video (getFileType (name h)).

Definition videoCount (sections : list FileSystemHandle) : Z :=
  Z.of_nat (List.length (flat_map (fun d => filter isVideoFile (values d)) sections)).

(** A position [(sectionIndex, lessonIndex)] names a lesson of the
    structure. *)
Definition inBounds (structure : CourseStructure) (position : Z * Z) : Prop :=
  exists section lesson,
    at_index structure (fst position) = Some section /\
    at_index (lessons section) (snd position) = Some lesson.

(** The first and the last lesson of the course. *)
Definition isFirstLesson (position : Z * Z) : Prop := position = (0, 0).

Definition isLastLesson (structure : CourseStructure) (position : Z * Z) : Prop :=
  exists section,
    fst position = Z.of_nat (List.length structure) - 1 /\
    at_index structure (fst position) = Some section /\
    snd position = Z.of_nat (List.length (lessons section)) - 1.

(** The section built from a section directory, and the sections the
    builder keeps: those with a lesson, in the sorted order of their
    directories. *)
Definition sectionOf (cmp : string -> string -> Z) (entry : FileSystemHandle) : CourseSection :=
  fst (parseSection cmp 0 entry).

Definition hasLessons (section : CourseSection) : bool :=
  0 <? Z.of_nat (List.length (lessons section)).

Definition retainedSections (cmp : string -> string -> Z) (dirHandle : FileSystemHandle)
  : CourseStructure :=
  filter hasLessons
    (map (sectionOf cmp) (sort (byName cmp) (filter is_directory (values dirHandle)))).

(** The map of lesson groups after one more file, and after a whole sorted
    file list; its values are the groups, kept or not. *)
Definition groupsAfter (groups : LessonMap) (h : FileSystemHandle) : LessonMap :=
  lessonGroups (groupStep (mkGroupState groups [] 0) h).

Definition groupMapOf (lessonEntries : list FileSystemHandle) : LessonMap :=
  fold_left groupsAfter lessonEntries [].

Definition groupsOf (lessonEntries : list FileSystemHandle) : list Lesson :=
  Map_values (groupMapOf lessonEntries).

Definition roleIsVideo (h : FileSystemHandle) : bool := is_video (getFileType (name h)).

(** A dot occurs in the string. *)
Fixpoint hasDot (s : string) : bool :=
  match s with
  | EmptyString => false
  | String c r => Ascii.eqb c "."%char || hasDot r
  end.

(** [target] is the lesson next to [position] in the direction taken: in
    the same section, or the last lesson of the section before, or the
    first lesson of the section after. *)
Definition isNeighbour (structure : CourseStructure) (direction : Z)
  (position target : Z * Z) : Prop :=
  target = (fst position, snd position + direction) \/
  (direction = -1 /\ snd position = 0 /\ fst target = fst position - 1 /\
   exists section,
     at_index structure (fst target) = Some section /\
     snd target = Z.of_nat (List.length (lessons section)) - 1) \/
  (direction = 1 /\ target = (fst position + 1, 0) /\
   exists section,
     at_index structure (fst position) = Some section /\
     snd position = Z.of_nat (List.length (lessons section)) - 1).

(** Some group of the map has a video. *)
Definition anyVideo (m : LessonMap) : bool := existsb has_video (Map_values m).

(** A number that is zero or positive, between [KL * 2^(-j)] and
    [KU * 2^(-j)]: the bounds are integers counted in units of [2^(-j)],
    and the exponent of the number is at most [-j]. *)
Definition between (j KL KU : Z) (x : Number) : Prop :=
  match x with
  | S754_zero _ => KL <= 0
  | S754_finite false m e =>
      e + j <= 0 /\ KL * 2 ^ (- (e + j)) <= Z.pos m <= KU * 2 ^ (- (e + j))
  | _ => False
  end.

(** During rounding: a shifted mantissa at exponent [e], with its round and
    sticky bits, lies between the two bounds seen at that exponent, and
    nothing was shifted out when it reaches the upper one. *)
Definition Between (j KL KU e : Z) (r : shr_record) : Prop :=
  e + j <= 0 /\
  KL * 2 ^ (- (e + j)) <= shr_m r <= KU * 2 ^ (- (e + j)) /\
  (shr_m r = KU * 2 ^ (- (e + j)) -> shr_r r = false /\ shr_s r = false).

(** *** The classifier's results and closed forms of its matches *)


(** [/^(\d+)\./] finds a match: the string starts with a run of digits
    that a dot follows at once. *)
Definition startsWithNumberDot (s : string) : bool :=
  match digitRun s, dropUnits (digitRun s) s with
  | S _, String c _ => Ascii.eqb c "."%char
  | _, _ => false
  end.


(** The rounding of the specification, [round(100 * c / t)], on exact
    rationals: the nearest integer, a half going up. *)
Definition spec_round_percent (completedCount totalLessonCount : Z) : Z :=
  (200 * completedCount + totalLessonCount) / (2 * totalLessonCount).

(** The exact quotient [100 * c / t] is an integer plus a half. *)
Definition spec_isHalf (completedCount totalLessonCount : Z) : Prop :=
  (200 * completedCount + totalLessonCount) mod (2 * totalLessonCount) = 0.

(* ================================================================= *)
(** ** Completion, sessions and the course library *)

From Stdlib Require DecimalString DecimalZ.

(** [String(n)] for an integer [n] of magnitude below 10^21, as a template
    literal prints it: the decimal digits, after a minus sign when [n] is
    negative. *)
Definition Number_toString (n : Z) : string :=
  DecimalString.NilZero.string_of_int (Z.to_int n).

(** The lesson identifier, the template [sectionIndex-lessonIndex]. *)
Definition lessonId (position : Z * Z) : string :=
  (Number_toString (fst position) ++ "-" ++ Number_toString (snd position))%string.

(** [set.has(x)], [set.add(x)] and [set.delete(x)] on a [Set] of strings,
    kept in insertion order. *)
Definition Set_has (s : list string) (x : string) : bool := existsb (String.eqb x) s.

Definition Set_add (s : list string) (x : string) : list string :=
  if Set_has s x then s else s ++ [x].

Definition Set_delete (s : list string) (x : string) : list string :=
  filter (fun y => negb (String.eqb x y)) s.

(** The text a template literal prints for [this.currentCourseId]: the id,
    or "null". *)
Definition idText (id : option string) : string :=
  match id with
  | Some s => s
  | None => "null"
  end.

Definition setCompletedLessons (completed : list string) (app : CourseViewer) : CourseViewer :=
  mkCourseViewer (directoryHandle app) (courseStructure app) (currentLesson app)
    completed (courseName app) (courseLibrary app) (currentCourseId app)
    (localStorage app) (handleDB app).

(** [toggleLessonComplete()]: the state changes; the bar and the buttons
    are redrawn from them. *)
Definition toggleLessonComplete (app : CourseViewer) : CourseViewer :=
  match currentLesson app with
  | None => app
  | Some position =>
      let id := lessonId position in
      let app :=
        if Set_has (completedLessons app) id
        then setCompletedLessons (Set_delete (completedLessons app) id) app
        else setCompletedLessons (Set_add (completedLessons app) id) app in
      saveCourseProgress (idText (currentCourseId app)) app
  end.

(** The viewer with the flag [shouldAutoPlay], which [markCompleteAndNext]
    sets and the video player reads. *)
Record Player := mkPlayer {
  viewer : CourseViewer;
  shouldAutoPlay : bool
}.

(** [markCompleteAndNext()]. *)
Definition markCompleteAndNext (timestamp : Z) (player : Player) : Completion Player :=
  let app := viewer player in
  let app :=
    match currentLesson app with
    | None => app
    | Some position =>
        let id := lessonId position in
        if negb (Set_has (completedLessons app) id)
        then saveCourseProgress (idText (currentCourseId app))
               (setCompletedLessons (Set_add (completedLessons app) id) app)
        else app
    end in
  match navigateLesson timestamp 1 app with
  | Normal app' => Normal (mkPlayer app' true)
  | TypeError app' => TypeError (mkPlayer app' true)
  end.

(** [updateNavigationButtons()]: the values given to [prevBtn.disabled] and
    [nextBtn.disabled]; [None] when it returns at once.  The second operand
    of [||] is read only when the first is false. *)
Definition updateNavigationButtons (app : CourseViewer) : Completion (option (bool * bool)) :=
  match currentLesson app with
  | None => Normal None
  | Some (sectionIndex, lessonIndex) =>
      let hasPrev := (0 <? sectionIndex) || (0 <? lessonIndex) in
      if sectionIndex <? Z.of_nat (List.length (courseStructure app)) - 1
      then Normal (Some (negb hasPrev, false))
      else
        match at_index (courseStructure app) sectionIndex with
        | None => TypeError None
        | Some section =>
            let hasNext := lessonIndex <? Z.of_nat (List.length (lessons section)) - 1 in
            Normal (Some (negb hasPrev, negb hasNext))
        end
  end.

(** [lesson.files.find(f => f.type === 'video')] and the same for the
    subtitle, as [renderLessonContent] picks them. *)
Definition videoFileOf (lesson : Lesson) : option LessonFile :=
  find (fun f => is_video (type f)) (files lesson).

Definition subtitleFileOf (lesson : Lesson) : option LessonFile :=
  find (fun f => is_subtitle (type f)) (files lesson).

(** [map.delete(key)], [localStorage.removeItem] and [store.delete]. *)
Definition assoc_remove {V : Type} (m : list (string * V)) (key : string)
  : list (string * V) :=
  filter (fun entry => negb (String.eqb (fst entry) key)) m.

Definition setCourseLibrary (library : list (string * CourseData)) (app : CourseViewer)
  : CourseViewer :=
  mkCourseViewer (directoryHandle app) (courseStructure app) (currentLesson app)
    (completedLessons app) (courseName app) library (currentCourseId app)
    (localStorage app) (handleDB app).

(** [deleteCourse(courseId, event)], with the answer given to the
    confirmation modal. *)
Definition deleteCourse (confirmed : bool) (courseId : string) (app : CourseViewer)
  : CourseViewer :=
  if confirmed then
    let app := setCourseLibrary (assoc_remove (courseLibrary app) courseId) app in
    let app := saveCourseLibrary app in
    let ls := localStorage app in
    mkCourseViewer (directoryHandle app) (courseStructure app) (currentLesson app)
      (completedLessons app) (courseName app) (courseLibrary app) (currentCourseId app)
      (mkLocalStorage (course_library ls)
         (assoc_remove (course_progress ls) courseId)
         (assoc_remove (last_session ls) courseId)
         (last_course_id ls))
      (assoc_remove (handleDB app) courseId)
  else app.

(** [loadCourseLibrary()]: every stored record is set into the library,
    with a [null] handle. *)
Definition loadCourseLibrary (app : CourseViewer) : CourseViewer :=
  match course_library (localStorage app) with
  | None => app
  | Some courses =>
      setCourseLibrary
        (fold_left
           (fun library course =>
              assoc_set library (lib_id course)
                (mkCourseData (lib_name course) None (lib_addedDate course)
                   (lib_lastAccessed course)))
           courses (courseLibrary app))
        app
  end.

(** [x || 0] on a number. *)
Definition orZero (x : Z) : Z := if x =? 0 then 0 else x.

(** [getCourseProgress(courseId)]: percentage, completed and total. *)
Definition getCourseProgress (courseId : string) (app : CourseViewer) : Z * Z * Z :=
  match assoc_get (course_progress (localStorage app)) courseId with
  | None => (0, 0, 0)
  | Some data =>
      (orZero (progress_percentage data), orZero (progress_completedCount data),
       orZero (progress_totalLessons data))
  end.

(** [loadLastSessionForCourse(courseId)]. *)
Definition loadLastSessionForCourse (courseId : string) (app : CourseViewer)
  : option SessionData :=
  assoc_get (last_session (localStorage app)) courseId.

(** [getLastViewedLesson(courseId)]: [data.lessonName || null]. *)
Definition getLastViewedLesson (courseId : string) (app : CourseViewer) : option string :=
  match assoc_get (last_session (localStorage app)) courseId with
  | None => None
  | Some data =>
      match session_lessonName data with
      | EmptyString => None
      | lessonName => Some lessonName
      end
  end.

(** *** Loading a course of the library *)

(** What the stored handle answers in the inner [try]: access is granted
    (at once or on request) and the directory can be read; the request is
    refused; or a call throws, the handle being stale. *)
Inductive HandleAccess := access_granted | access_refused | access_stale.

(** What [showDirectoryPicker()] ends with. *)
Inductive PickerResult :=
| picked (dirHandle : FileSystemHandle)
| picker_aborted
| picker_failed.

Definition newline : string := String (ascii_of_nat 10) EmptyString.

Definition permission_denied_modal : Modal :=
  mkModal "Permission denied to access this course folder." "Permission Denied".

Definition select_folder_modal (courseName : string) : Modal :=
  mkModal ("Please select the course folder:" ++ newline ++ quote ++ courseName ++ quote)%string
          "Select Course Folder".

Definition wrong_folder_modal (selected courseName : string) : Modal :=
  mkModal ("The selected folder " ++ quote ++ selected ++ quote
           ++ " does not match the course:" ++ newline ++ quote ++ courseName ++ quote
           ++ newline ++ newline ++ "Please select the correct folder.")%string
          "Wrong Folder".

Definition library_error_modal : Modal :=
  mkModal "Error loading course. The folder may have been moved or deleted." "Error".

(** [courseData.handle = handle] on the entry of the library. *)
Definition setEntryHandle (courseId : string) (h : FileSystemHandle) (app : CourseViewer)
  : CourseViewer :=
  match assoc_get (courseLibrary app) courseId with
  | None => app
  | Some data =>
      setCourseLibrary
        (assoc_set (courseLibrary app) courseId
           (mkCourseData (course_name data) (Some h) (addedDate data) (lastAccessed data)))
        app
  end.

(** [courseData.lastAccessed = Date.now()] on the entry of the library. *)
Definition setEntryLastAccessed (courseId : string) (time : Z) (app : CourseViewer)
  : CourseViewer :=
  match assoc_get (courseLibrary app) courseId with
  | None => app
  | Some data =>
      setCourseLibrary
        (assoc_set (courseLibrary app) courseId
           (mkCourseData (course_name data) (course_handle data) (addedDate data) time))
        app
  end.

Definition setDirectoryHandle (h : FileSystemHandle) (app : CourseViewer) : CourseViewer :=
  mkCourseViewer (Some h) (courseStructure app) (currentLesson app)
    (completedLessons app) (courseName app) (courseLibrary app) (currentCourseId app)
    (localStorage app) (handleDB app).

(** The [catch] of [loadCourseFromLibrary] for an error other than
    [AbortError]: the modal, then the course leaves the library. *)
Definition dropFromLibrary (courseId : string) (app : CourseViewer) : CourseViewer :=
  saveCourseLibrary (setCourseLibrary (assoc_remove (courseLibrary app) courseId) app).

(** How the body of a [try] ends: it completes, or an exception leaves it
    for the [catch]; both carry the state reached. *)
Inductive Attempt (A : Type) :=
| Completed (result : A)
| Threw (reached : A).
Arguments Completed {A} result.
Arguments Threw {A} reached.

Section LibraryLoading.
Variable localeCompare : string -> string -> Z.

(** [loadCourseFromLibrary(courseId)] from the point where
    [this.directoryHandle] holds the course folder, to the end of the
    [try]. *)
Definition openFromLibrary (courseId : string) (libraryName : string) (now : nat -> Z)
  (app : CourseViewer) : Attempt CourseViewer :=
  let app :=
    mkCourseViewer (directoryHandle app) (courseStructure app) (currentLesson app)
      (completedLessons app) libraryName (courseLibrary app) (Some courseId)
      (localStorage app) (handleDB app) in
  let app := saveCourseLibrary (setEntryLastAccessed courseId (now 0%nat) app) in
  match directoryHandle app with
  | None => Threw app
  | Some dirHandle =>
      match parseCourseStructure localeCompare dirHandle with
      | Throw _ => Threw app
      | Return structure =>
          let app :=
            mkCourseViewer (directoryHandle app) structure (currentLesson app)
              (completedLessons app) (courseName app) (courseLibrary app)
              (currentCourseId app) (localStorage app) (handleDB app) in
          let app := loadCourseProgress courseId app in
          match loadLastSessionForCourse courseId app with
          | Some lastSession =>
              match loadLesson (now 1%nat) (session_sectionIndex lastSession)
                      (session_lessonIndex lastSession) app with
              | Normal app' => Completed app'
              | TypeError app' => Threw app'
              end
          | None => Completed (showLessonContent (now 1%nat) app)
          end
      end
  end.

(** [loadCourseFromLibrary(courseId)]: the state after the call and the
    modals it showed.  [access] is what the stored handle answers, [picker]
    what the folder picker ends with when it is opened.  A stored handle
    stands for the folder as it is when the course is loaded. *)
Definition loadCourseFromLibrary (courseId : string) (access : HandleAccess)
  (picker : PickerResult) (now : nat -> Z) (app : CourseViewer)
  : CourseViewer * list Modal :=
  match assoc_get (courseLibrary app) courseId with
  | None => (app, [])
  | Some courseData =>
      let finish (modals : list Modal) (app : CourseViewer) :=
        match openFromLibrary courseId (course_name courseData) now app with
        | Completed app' => (app', modals)
        | Threw app' => (dropFromLibrary courseId app', modals ++ [library_error_modal])
        end in
      let reselect (app : CourseViewer) :=
        let modals := [select_folder_modal (course_name courseData)] in
        match picker with
        | picker_aborted => (app, modals)
        | picker_failed => (dropFromLibrary courseId app, modals ++ [library_error_modal])
        | picked dirHandle =>
            let app := setDirectoryHandle dirHandle app in
            if negb (String.eqb (name dirHandle) (course_name courseData))
            then (app, modals ++ [wrong_folder_modal (name dirHandle) (course_name courseData)])
            else
              let app :=
                mkCourseViewer (directoryHandle app) (courseStructure app)
                  (currentLesson app) (completedLessons app) (courseName app)
                  (courseLibrary app) (currentCourseId app) (localStorage app)
                  (assoc_set (handleDB app) courseId dirHandle) in
              finish modals (setEntryHandle courseId dirHandle app)
        end in
      match assoc_get (handleDB app) courseId with
      | None => reselect app
      | Some handle =>
          match access with
          | access_refused => (app, [permission_denied_modal])
          | access_stale => reselect app
          | access_granted =>
              finish [] (setEntryHandle courseId handle (setDirectoryHandle handle app))
          end
      end
  end.
End LibraryLoading.

(** What the builder reads of a folder: the directories of the root, each
    with its name and its files, in enumeration order. *)
Definition onlyFiles (d : FileSystemHandle) : FileSystemHandle :=
  match d with
  | FileHandle n => FileHandle n
  | DirectoryHandle n es => DirectoryHandle n (filter is_file es)
  end.

Definition sectionListings (root : FileSystemHandle) : list FileSystemHandle :=
  map onlyFiles (filter is_directory (values root)).

(** What every group of the map of a file list [l] satisfies: its number is
    its key; it has a first file, and its name is the cleaned name of that
    file; each of its files is a handle of [l] recorded under its own name
    and role, the role is video or subtitle, and the ordinal of the name is
    the key. *)
Definition GroupOf (l : list FileSystemHandle) (k : string) (g : Lesson) : Prop :=
  number g = k /\
  (exists f rest, files g = f :: rest /\ lesson_name g = cleanLessonName (file_name f)) /\
  forall f, In f (files g) ->
    In (handle f) l /\ file_name f = name (handle f) /\
    type f = getFileType (file_name f) /\
    (type f = video \/ type f = subtitle) /\
    extractLessonNumber (file_name f) = k.

Definition GroupsOf (l : list FileSystemHandle) (m : LessonMap) : Prop :=
  NoDup (map fst m) /\ forall k g, In (k, g) m -> GroupOf l k g.

(** The file entry the grouper makes of a handle. *)
Definition lessonFileOf (h : FileSystemHandle) : LessonFile :=
  mkLessonFile h (name h) (getFileType (name h)).

(** The map holds the file entry of [h] in the group of its ordinal. *)
Definition Holds (m : LessonMap) (h : FileSystemHandle) : Prop :=
  exists g, In (extractLessonNumber (name h), g) m /\ In (lessonFileOf h) (files g).

(** Every code unit of the string satisfies [p]. *)
Fixpoint allUnits (p : ascii -> bool) (s : string) : bool :=
  match s with
  | EmptyString => true
  | String c r => p c && allUnits p r
  end.

(** The code units an identifier of [generateCourseId] is made of:
    [a-z0-9_]. *)
Definition isIdUnit (c : ascii) : bool :=
  let n := code c in
  ((97 <=? n) && (n <=? 122)) || ((48 <=? n) && (n <=? 57)) || (n =? 95).

(** An ASCII code unit. *)
Definition isAsciiUnit (c : ascii) : bool := code c <? 128.

(** *** The classifier as the specification words it *)










(** A library entry as [saveCourseLibrary] and [loadCourseLibrary] carry it
    through the store: the handle is lost. *)
Definition withoutHandle (data : CourseData) : CourseData :=
  mkCourseData (course_name data) None (addedDate data) (lastAccessed data).

(** The viewer a reload of the page starts from: the constructor's fields on
    the two stores as they are; [init] then calls [loadCourseLibrary]. *)
Definition reloaded (app : CourseViewer) : CourseViewer :=
  mkCourseViewer None [] None [] "" [] None (localStorage app) (handleDB app).

(** The record [saveCourseLibrary] writes for an entry. *)
Definition recordOf (entry : string * CourseData) : LibraryRecord :=
  mkLibraryRecord (fst entry) (course_name (snd entry)) (addedDate (snd entry))
    (lastAccessed (snd entry)).

(** The state a method leaves, however it ends. *)
Definition stateAfter {A : Type} (c : Completion A) : A :=
  match c with
  | Normal result => result
  | TypeError reached => reached
  end.

Definition stateReached {A : Type} (a : Attempt A) : A :=
  match a with
  | Completed result => result
  | Threw reached => reached
  end.

(** Two viewers agree on everything the stores keep for the courses other
    than [courseId], and on the stored completion of every course. *)
Definition SameOtherCourses (courseId : string) (app app' : CourseViewer) : Prop :=
  course_progress (localStorage app') = course_progress (localStorage app) /\
  forall other, other <> courseId ->
    assoc_get (courseLibrary app') other = assoc_get (courseLibrary app) other /\
    assoc_get (handleDB app') other = assoc_get (handleDB app) other /\
    assoc_get (last_session (localStorage app')) other =
      assoc_get (last_session (localStorage app)) other.

(** The directory has a video file. *)
Definition hasVideoFile (d : FileSystemHandle) : bool := existsb isVideoFile (values d).

(** Sections in natural order of their folder names, lessons in natural
    order of their numbers. *)
Definition sectionsSorted (cmp : string -> string -> Z) (structure : CourseStructure) : Prop :=
  StronglySorted (fun a b => cmp (rawName a) (rawName b) <= 0) structure.

Definition lessonsSorted (cmp : string -> string -> Z) (section : CourseSection) : Prop :=
  StronglySorted (fun a b => cmp (number a) (number b) <= 0) (lessons section).

(* ================================================================= *)
(** ** Sample folders *)

(** The sorted file list of the grouper example. *)
Definition subtitle_only_files : list FileSystemHandle :=
  [FileHandle "2.a.mp4"; FileHandle "2.a.vtt"; FileHandle "3.b.vtt"].

(** A section directory that lists them. *)
Definition subtitle_only_section : FileSystemHandle :=
  DirectoryHandle "1. Subtitles" subtitle_only_files.

(** A course with one section of two lessons and one section without
    videos. *)
Definition intro_course : FileSystemHandle :=
  DirectoryHandle "My Course"
    [DirectoryHandle "2. Extra" [FileHandle "notes.pdf"];
     DirectoryHandle "1. Intro"
       [FileHandle "2. Setup.mp4"; FileHandle "1. Welcome.vtt"; FileHandle "1. Welcome.mp4"]].

(** The same folder enumerated in another order. *)
Definition intro_course_reordered : FileSystemHandle :=
  DirectoryHandle "My Course"
    [DirectoryHandle "1. Intro"
       [FileHandle "1. Welcome.mp4"; FileHandle "2. Setup.mp4"; FileHandle "1. Welcome.vtt"];
     DirectoryHandle "2. Extra" [FileHandle "notes.pdf"]].

(** A folder of another name with the same two section directories, and
    with files of its own and directories inside the sections. *)
Definition intro_course_cluttered : FileSystemHandle :=
  DirectoryHandle "Backup of My Course"
    [FileHandle "0. Trailer.mp4";
     DirectoryHandle "2. Extra" [DirectoryHandle "old" [FileHandle "1. Lost.mp4"];
                                 FileHandle "notes.pdf"];
     FileHandle "readme.txt";
     DirectoryHandle "1. Intro"
       [FileHandle "2. Setup.mp4"; FileHandle "1. Welcome.vtt";
        DirectoryHandle "3. Drafts" []; FileHandle "1. Welcome.mp4"]].

(** A folder without subdirectories. *)
Definition flat_folder : FileSystemHandle :=
  DirectoryHandle "Broken" [FileHandle "1. Welcome.mp4"].

(** One section whose two videos have names that differ in case only, in
    the two orders a case-sensitive file system may enumerate them. *)
Definition case_course : FileSystemHandle :=
  DirectoryHandle "Case"
    [DirectoryHandle "1. Intro" [FileHandle "1. a.mp4"; FileHandle "1. A.mp4"]].

Definition case_course_reordered : FileSystemHandle :=
  DirectoryHandle "Case"
    [DirectoryHandle "1. Intro" [FileHandle "1. A.mp4"; FileHandle "1. a.mp4"]].

(** A clock for [Date.now()]. *)
Definition clock (k : nat) : Z := 1000 + Z.of_nat k.

(** The session after [intro_course] was opened from a fresh viewer. *)
Definition intro_session : CourseViewer :=
  fst (openCourse collate intro_course clock newCourseViewer).

(** A viewer whose store remembers three completed lessons of "My Course",
    from a scan when the folder had three; and the session after the
    folder, now with two lessons, is opened again. *)
Definition stale_viewer : CourseViewer :=
  mkCourseViewer None [] None [] "" [] None
    (mkLocalStorage None
       [("my_course", mkProgressData "My Course" ["0-0"; "0-1"; "0-2"] 3 3 100)]
       [] None)
    [].

Definition stale_session : CourseViewer :=
  fst (openCourse collate intro_course clock stale_viewer).

(** A viewer whose store remembers the first lesson of "My Course" as
    completed, and the session after the folder is opened again. *)
Definition returning_viewer : CourseViewer :=
  mkCourseViewer None [] None [] "" [] None
    (mkLocalStorage None [("my_course", mkProgressData "My Course" ["0-0"] 1 2 50)] [] None)
    [].

Definition returning_session : CourseViewer :=
  fst (openCourse collate intro_course clock returning_viewer).

(** A viewer after a reload, with "My Course" in its library and its folder
    handle in the handle store; the last session points at a third lesson,
    which the folder no longer has. *)
Definition shrunk_viewer : CourseViewer :=
  mkCourseViewer None [] None [] ""
    [("my_course", mkCourseData "My Course" None 1000 1001)] None
    (mkLocalStorage (Some [mkLibraryRecord "my_course" "My Course" 1000 1001])
       [("my_course", mkProgressData "My Course" ["0-0"] 1 3 33)]
       [("my_course", mkSessionData 0 2 "Outro" 1500)]
       (Some "my_course"))
    [("my_course", intro_course)].

(** The same viewer with a last session at the second lesson. *)
Definition resuming_viewer : CourseViewer :=
  mkCourseViewer None [] None [] ""
    [("my_course", mkCourseData "My Course" None 1000 1001)] None
    (mkLocalStorage (Some [mkLibraryRecord "my_course" "My Course" 1000 1001])
       [("my_course", mkProgressData "My Course" ["0-0"] 1 2 50)]
       [("my_course", mkSessionData 0 1 "Setup" 1500)]
       (Some "my_course"))
    [("my_course", intro_course)].

(* ================================================================= *)
(** * Facts *)

(** ** Strings *)

Ltac each_unit c := destruct c as [[] [] [] [] [] [] [] []].

Lemma digit_not_dot (c : ascii) : isDigit c = true -> Ascii.eqb c "."%char = false.
Proof. each_unit c; vm_compute; congruence. Qed.



Lemma dropUnits_digit (k : nat) : forall s,
  (k < digitRun s)%nat -> exists c r, dropUnits k s = String c r /\ isDigit c = true.
Proof.
  induction k as [|k IH]; intros [|c r] H; simpl in *; try lia.
  - destruct (isDigit c) eqn:E; [eauto | lia].
  - destruct (isDigit c) eqn:E; [apply IH; lia | lia].
Qed.

Lemma matchNumberDot_from_short (k : nat) : forall s,
  (k < digitRun s)%nat -> matchNumberDot_from k s = None.
Proof.
  induction k as [|k IH]; intros s H; [reflexivity|].
  cbn [matchNumberDot_from].
  destruct (dropUnits_digit (S k) s H) as (c & r & -> & Hd).
  rewrite (digit_not_dot c Hd). apply IH. lia.
Qed.

Lemma dropUnits_S (n : nat) : forall t,
  dropUnits (S n) t =
    match dropUnits n t with String _ r => r | EmptyString => EmptyString end.
Proof.
  induction n as [|n IHn]; intros [|c r]; try reflexivity.
  change (dropUnits (S (S n)) (String c r)) with (dropUnits (S n) r).
  rewrite IHn. reflexivity.
Qed.

Lemma matchNumberDot_eq (s : string) :
  matchNumberDot s =
    if startsWithNumberDot s
    then Some (takeUnits (digitRun s) s, dropUnits (S (digitRun s)) s)
    else None.
Proof.
  unfold matchNumberDot, startsWithNumberDot.
  destruct (digitRun s) as [|k] eqn:Hk; [reflexivity|].
  cbn [matchNumberDot_from].
  assert (Hnone : matchNumberDot_from k s = None)
    by (apply matchNumberDot_from_short; lia).
  rewrite (dropUnits_S (S k)).
  destruct (dropUnits (S k) s) as [|c rest]; [exact Hnone|].
  destruct (Ascii.eqb c "."%char); [reflexivity | exact Hnone].
Qed.







Lemma length_mapUnits (f : ascii -> ascii) (s : string) :
  String.length (mapUnits f s) = String.length s.
Proof. induction s as [|c r IH]; simpl; congruence. Qed.

Lemma take_drop (k : nat) : forall s, (takeUnits k s ++ dropUnits k s)%string = s.
Proof. induction k as [|k IH]; intros [|c r]; simpl; try reflexivity. now rewrite IH. Qed.



(** ** The sort *)

Lemma Permutation_filter {A : Type} (f : A -> bool) (l l' : list A) :
  Permutation l l' -> Permutation (filter f l) (filter f l').
Proof.
  induction 1 as [|x l l' _ IH|x y l|l l' l'' _ IH1 _ IH2]; simpl.
  - constructor.
  - destruct (f x); [now constructor | exact IH].
  - destruct (f x), (f y); try reflexivity. constructor.
  - now transitivity (filter f l').
Qed.

Section SortFacts.
Context {A : Type}.
Variable cmp : A -> A -> Z.

Lemma insert_perm (x : A) (l : list A) : Permutation (insert cmp x l) (x :: l).
Proof.
  induction l as [|y r IH]; simpl; [reflexivity|].
  destruct (cmp x y <=? 0); [reflexivity|].
  rewrite IH. constructor.
Qed.

Lemma sort_perm (l : list A) : Permutation (sort cmp l) l.
Proof.
  induction l as [|x r IH]; simpl; [reflexivity|].
  rewrite insert_perm. now constructor.
Qed.

Lemma sort_in (l : list A) (x : A) : In x (sort cmp l) <-> In x l.
Proof.
  split; apply Permutation_in; [apply sort_perm | symmetry; apply sort_perm].
Qed.

Lemma sort_length (l : list A) : List.length (sort cmp l) = List.length l.
Proof. apply Permutation_length, sort_perm. Qed.

Lemma sort_fixes (l : list A) : StronglySorted (notAfter cmp) l -> sort cmp l = l.
Proof.
  induction 1 as [|x r Hr IH Hx]; simpl; [reflexivity|].
  rewrite IH. destruct r as [|y r']; [reflexivity|]. simpl.
  apply Forall_inv in Hx. unfold notAfter in Hx.
  apply Z.leb_le in Hx. now rewrite Hx.
Qed.

Hypothesis consistent : Consistent cmp.

Lemma notAfter_total (a b : A) : notAfter cmp a b \/ notAfter cmp b a.
Proof.
  unfold notAfter. destruct (Z_le_gt_dec (cmp a b) 0) as [H|H]; [now left|right].
  assert (cmp b a < 0) by (apply (cmp_opposite cmp consistent); lia). lia.
Qed.

Lemma insert_sorted (x : A) (l : list A) :
  StronglySorted (notAfter cmp) l -> StronglySorted (notAfter cmp) (insert cmp x l).
Proof.
  induction 1 as [|y r Hr IH Hy]; simpl.
  - repeat constructor.
  - destruct (cmp x y <=? 0) eqn:E.
    + apply Z.leb_le in E. constructor; [now constructor|].
      constructor; [exact E|].
      apply Forall_forall. intros z Hz. rewrite Forall_forall in Hy.
      exact (cmp_transitive cmp consistent x y z E (Hy z Hz)).
    + apply Z.leb_gt in E. constructor; [exact IH|].
      apply Forall_forall. intros z Hz.
      apply (Permutation_in _ (insert_perm x r)) in Hz. destruct Hz as [<-|Hz].
      * destruct (notAfter_total y x) as [H|H]; [exact H | unfold notAfter in H; lia].
      * rewrite Forall_forall in Hy. now apply Hy.
Qed.

Lemma sort_sorted (l : list A) : StronglySorted (notAfter cmp) (sort cmp l).
Proof.
  induction l as [|x r IH]; simpl; [constructor | now apply insert_sorted].
Qed.

Lemma sort_idempotent (l : list A) : sort cmp (sort cmp l) = sort cmp l.
Proof. apply sort_fixes, sort_sorted. Qed.

(** Two sorted arrangements of the same elements are equal when no two
    different elements tie. *)
Lemma sorted_unique (l1 : list A) : forall l2,
  (forall a b, In a l1 -> In b l1 -> cmp a b = 0 -> a = b) ->
  StronglySorted (notAfter cmp) l1 -> StronglySorted (notAfter cmp) l2 ->
  Permutation l1 l2 -> l1 = l2.
Proof.
  induction l1 as [|x r IH]; intros l2 Hties H1 H2 HP.
  - now apply Permutation_nil in HP.
  - destruct l2 as [|y r2]; [symmetry in HP; now apply Permutation_nil in HP|].
    apply StronglySorted_inv in H1 as [Hr Hx]. apply StronglySorted_inv in H2 as [Hr2 Hy].
    rewrite Forall_forall in Hx, Hy.
    assert (Hxy : x = y).
    { assert (Hin_y : In y (x :: r)) by (apply (Permutation_in _ (Permutation_sym HP)); now left).
      assert (Hin_x : In x (y :: r2)) by (apply (Permutation_in _ HP); now left).
      destruct Hin_y as [->|Hy1]; [reflexivity|].
      destruct Hin_x as [->|Hx1]; [reflexivity|].
      apply Hties; [now left | now right |].
      pose proof (Hx y Hy1) as L1. pose proof (Hy x Hx1) as L2. unfold notAfter in *.
      destruct (Z.eq_dec (cmp x y) 0) as [E|E]; [exact E|].
      assert (cmp x y < 0) as L3 by lia.
      apply (cmp_opposite cmp consistent) in L3. lia. }
    subst y. f_equal. apply IH; try assumption.
    + intros a b Ha Hb. apply Hties; now right.
    + now apply Permutation_cons_inv in HP.
Qed.

Lemma sort_permuted (l1 l2 : list A) :
  (forall a b, In a l1 -> In b l1 -> cmp a b = 0 -> a = b) ->
  Permutation l1 l2 -> sort cmp l1 = sort cmp l2.
Proof.
  intros Hties HP. apply sorted_unique; try apply sort_sorted.
  - intros a b Ha Hb. apply Hties; now apply sort_in.
  - rewrite !sort_perm. exact HP.
Qed.
End SortFacts.

(** ** The concrete comparator is consistent *)

Lemma keyCompare_opp (k1 : list (Z * Z)) : forall k2,
  keyCompare k2 k1 = CompOpp (keyCompare k1 k2).
Proof.
  induction k1 as [|[w1 v1] r1 IH]; intros [|[w2 v2] r2]; simpl; try reflexivity.
  rewrite (Z.compare_antisym w1 w2), (Z.compare_antisym v1 v2).
  destruct (w1 ?= w2); simpl; try reflexivity.
  destruct (v1 ?= v2); simpl; try reflexivity.
  apply IH.
Qed.

Lemma keyCompare_trans (k1 : list (Z * Z)) : forall k2 k3,
  keyCompare k1 k2 <> Gt -> keyCompare k2 k3 <> Gt -> keyCompare k1 k3 <> Gt.
Proof.
  induction k1 as [|[w1 v1] r1 IH]; intros [|[w2 v2] r2] [|[w3 v3] r3]; simpl;
    try congruence.
  destruct (Z.compare_spec w1 w2), (Z.compare_spec w2 w3), (Z.compare_spec w1 w3);
    try lia; try congruence;
  destruct (Z.compare_spec v1 v2), (Z.compare_spec v2 v3), (Z.compare_spec v1 v3);
    try lia; try congruence.
  apply IH.
Qed.

Lemma collate_consistent : Consistent collate.
Proof.
  split.
  - intros a b. unfold collate.
    rewrite (keyCompare_opp (collationKey a) (collationKey b)).
    destruct (keyCompare (collationKey a) (collationKey b)); simpl; lia.
  - intros a b c. unfold collate.
    pose proof (keyCompare_trans (collationKey a) (collationKey b) (collationKey c)) as T.
    destruct (keyCompare (collationKey a) (collationKey b)),
             (keyCompare (collationKey b) (collationKey c)),
             (keyCompare (collationKey a) (collationKey c)); try lia;
      intros _ _; exfalso; apply T; congruence.
Qed.

(** ** The grouper *)



Lemma groupStep_eq (st : GroupState) (h : FileSystemHandle) :
  groupStep st h =
  mkGroupState (groupsAfter (lessonGroups st) h)
    (nonVideoFiles st ++ (if isExtra h then [name h] else []))
    (totalVideosFound st + (if roleIsVideo h then 1 else 0)).
Proof.
  unfold groupsAfter, groupStep, isExtra, roleIsVideo.
  cbn [lessonGroups nonVideoFiles totalVideosFound].
  destruct (is_video (getFileType (name h))); destruct (is_subtitle (getFileType (name h)));
    cbn [orb negb lessonGroups]; rewrite ?app_nil_r, ?Z.add_0_r; reflexivity.
Qed.

Lemma groupLessons_from (l : list FileSystemHandle) : forall groups extras total,
  fold_left groupStep l (mkGroupState groups extras total) =
  mkGroupState
    (fold_left groupsAfter l groups)
    (extras ++ map name (filter isExtra l))
    (total + Z.of_nat (List.length (filter roleIsVideo l))).
Proof.
  induction l as [|h r IH]; intros groups extras total.
  - simpl. rewrite app_nil_r. f_equal. lia.
  - cbn [fold_left filter]. rewrite groupStep_eq.
    cbn [lessonGroups nonVideoFiles totalVideosFound]. rewrite IH.
    destruct (isExtra h), (roleIsVideo h); cbn [map List.length app];
      rewrite <- ?app_assoc; f_equal; cbn [app]; rewrite ?app_nil_r; try reflexivity; lia.
Qed.

Lemma groupLessons_eq (total : Z) (l : list FileSystemHandle) :
  groupLessons total l =
  mkGroupState (groupMapOf l) (map name (filter isExtra l))
    (total + Z.of_nat (List.length (filter roleIsVideo l))).
Proof.
  unfold groupMapOf, groupLessons. rewrite !groupLessons_from. reflexivity.
Qed.

(** ** The builder *)

Section BuilderFacts.
Variable cmp : string -> string -> Z.

Lemma videoLessons_total (total : Z) (l : list FileSystemHandle) :
  videoLessonsOf cmp (groupLessons total l) = videoLessonsOf cmp (groupLessons 0 l).
Proof. unfold videoLessonsOf. now rewrite !groupLessons_eq. Qed.

Lemma filter_sort_length {A : Type} (c : A -> A -> Z) (f : A -> bool) (l : list A) :
  List.length (filter f (sort c l)) = List.length (filter f l).
Proof. apply Permutation_length, Permutation_filter, sort_perm. Qed.

Lemma filter_filter {A : Type} (f g : A -> bool) (l : list A) :
  filter f (filter g l) = filter (fun x => g x && f x) l.
Proof.
  induction l as [|x r IH]; simpl; [reflexivity|].
  destruct (g x); simpl; [destruct (f x)|]; now rewrite IH.
Qed.

Lemma parseSection_eq (total : Z) (entry : FileSystemHandle) :
  parseSection cmp total entry =
  (sectionOf cmp entry,
   total + Z.of_nat (List.length (filter isVideoFile (values entry)))).
Proof.
  unfold sectionOf, parseSection. cbn [fst].
  rewrite !videoLessons_total. rewrite (groupLessons_eq total), (groupLessons_eq 0).
  cbn [nonVideoFiles totalVideosFound]. f_equal.
  unfold lessonEntriesOf. rewrite filter_sort_length, filter_filter. reflexivity.
Qed.

Lemma sectionStep_fold (entries : list FileSystemHandle) : forall structure total,
  fold_left (sectionStep cmp) entries (structure, total) =
  (structure ++ filter hasLessons (map (sectionOf cmp) entries),
   total + videoCount entries).
Proof.
  unfold videoCount.
  induction entries as [|e r IH]; intros structure total.
  - simpl. rewrite app_nil_r. f_equal. lia.
  - cbn [fold_left map filter flat_map]. unfold sectionStep at 2.
    rewrite parseSection_eq. fold (hasLessons (sectionOf cmp e)).
    rewrite IH, length_app, Nat2Z.inj_add.
    destruct (hasLessons (sectionOf cmp e)).
    + rewrite <- app_assoc. f_equal. lia.
    + f_equal. lia.
Qed.

Lemma videoCount_sort (entries : list FileSystemHandle) :
  videoCount (sort (byName cmp) entries) = videoCount entries.
Proof.
  unfold videoCount. f_equal. apply Permutation_length.
  apply Permutation_flat_map, sort_perm.
Qed.

Lemma parseCourseStructure_eq (dirHandle : FileSystemHandle) :
  parseCourseStructure cmp dirHandle =
  match filter is_directory (values dirHandle) with
  | [] => Throw no_sections_message
  | _ :: _ =>
      if videoCount (filter is_directory (values dirHandle)) =? 0
      then Throw no_videos_message
      else match retainedSections cmp dirHandle with
           | [] => Throw invalid_format_message
           | _ :: _ => Return (retainedSections cmp dirHandle)
           end
  end.
Proof.
  unfold parseCourseStructure, retainedSections.
  destruct (filter is_directory (values dirHandle)) as [|d ds] eqn:E; [reflexivity|].
  cbn [List.length]. rewrite Nat2Z.inj_succ.
  destruct (Z.eqb_spec (Z.succ (Z.of_nat (List.length ds))) 0) as [H|_]; [lia|].
  rewrite sectionStep_fold, videoCount_sort. cbn [app]. rewrite Z.add_0_l.
  destruct (videoCount (d :: ds) =? 0); [reflexivity|].
  destruct (filter hasLessons (map (sectionOf cmp) (sort (byName cmp) (d :: ds))));
    reflexivity.
Qed.
End BuilderFacts.

Lemma is_video_true (t : FileType) : is_video t = true <-> t = video.
Proof. destruct t; simpl; split; congruence. Qed.


Lemma videoLessons_in (cmp : string -> string -> Z) (total : Z)
      (l : list FileSystemHandle) (g : Lesson) :
  In g (videoLessonsOf cmp (groupLessons total l)) <->
  In g (groupsOf l) /\ has_video g = true.
Proof.
  unfold videoLessonsOf. rewrite sort_in, filter_In, groupLessons_eq. reflexivity.
Qed.


(** Claim C2.  The builder checks in this order: no subdirectory in the
    root, the "no sections" message; no video-role file in any
    subdirectory, the "no videos" message; no section that kept a lesson
    group, the "invalid structure" message; otherwise it returns the kept
    sections.  The three messages differ from each other. *)
Theorem builder_failure_order (cmp : string -> string -> Z) (dirHandle : FileSystemHandle) :
  parseCourseStructure cmp dirHandle =
    match filter is_directory (values dirHandle) with
    | [] => Throw no_sections_message
    | _ :: _ =>
        if videoCount (filter is_directory (values dirHandle)) =? 0
        then Throw no_videos_message
        else match retainedSections cmp dirHandle with
             | [] => Throw invalid_format_message
             | _ :: _ => Return (retainedSections cmp dirHandle)
             end
    end /\
  no_sections_message <> no_videos_message /\
  no_sections_message <> invalid_format_message /\
  no_videos_message <> invalid_format_message.
Proof.
  split; [apply parseCourseStructure_eq|].
  repeat split; discriminate.
Qed.

(** Claim C3 fails as stated: the section of ["2.a.mp4"; "2.a.vtt";
    "3.b.vtt"] drops the subtitle-only group "3" and its flag is false. *)
Lemma extra_flag_ignores_dropped_groups :
  ~ (hasNonVideoFiles (sectionOf collate subtitle_only_section) = true <->
     (extraCount (lessonEntriesOf collate subtitle_only_section) <> 0 \/
      exists g, In g (groupsOf (lessonEntriesOf collate subtitle_only_section)) /\
                ~ In g (lessons (sectionOf collate subtitle_only_section)))).
Proof.
  intros [_ H].
  assert (E : hasNonVideoFiles (sectionOf collate subtitle_only_section) = false)
    by (vm_compute; reflexivity).
  rewrite E in H. enough (false = true) by discriminate. apply H. right.
  exists (mkLesson "3" "b" [mkLessonFile (FileHandle "3.b.vtt") "3.b.vtt" subtitle]).
  split.
  - vm_compute. right. left. reflexivity.
  - vm_compute. intros [H1|[]]. discriminate.
Qed.

(** Claim C3, amended.  The flag [hasNonVideoFiles] of a section is true if
    and only if the directory has a file whose role is neither video nor
    subtitle; a dropped group has no part in it. *)
Theorem extra_flag_counts_other_roles
  (cmp : string -> string -> Z) (total : Z) (entry : FileSystemHandle) :
  (hasNonVideoFiles (fst (parseSection cmp total entry)) = true <->
   extraCount (filter is_file (values entry)) <> 0) /\
  (hasNonVideoFiles (fst (parseSection cmp total entry)) = true <->
   extraCount (lessonEntriesOf cmp entry) <> 0).
Proof.
  assert (E : extraCount (lessonEntriesOf cmp entry) = extraCount (filter is_file (values entry))).
  { unfold extraCount, lessonEntriesOf. now rewrite filter_sort_length. }
  rewrite <- E. cbn [parseSection fst hasNonVideoFiles].
  rewrite groupLessons_eq. cbn [nonVideoFiles]. rewrite length_map.
  unfold extraCount. rewrite Z.ltb_lt. split; split; lia.
Qed.

(** ** The classifier *)

Lemma split_dot_cons (s : string) : exists h t, split_dot s = h :: t.
Proof.
  induction s as [|c r (h & t & IH)]; simpl; [eauto|].
  destruct (Ascii.eqb c "."); [eauto|]. rewrite IH. eauto.
Qed.

Lemma split_dot_plain (s : string) : hasDot s = false -> split_dot s = [s].
Proof.
  induction s as [|c r IH]; simpl; [reflexivity|].
  destruct (Ascii.eqb c "."); simpl; [discriminate|].
  intros H. now rewrite (IH H).
Qed.

Lemma pop_split_dot_extension (stem ext : string) :
  hasDot ext = false ->
  exists h t, split_dot (stem ++ String "." ext)%string = h :: t /\ pop t = Some ext.
Proof.
  intros H. induction stem as [|c r (h & t & IH & Hp)]; simpl.
  - rewrite (split_dot_plain ext H). eauto.
  - destruct (Ascii.eqb c ".").
    + rewrite IH. exists EmptyString, (h :: t). split; [reflexivity|].
      destruct t; [discriminate | exact Hp].
    + rewrite IH. eauto.
Qed.

(** With a dot before an extension that has none, the role is the entry of
    the table for the lower-cased extension, [file] when there is none. *)
Lemma getFileType_extension (stem ext : string) :
  hasDot ext = false ->
  getFileType (stem ++ String "." ext) =
    match typeMap (toLowerCase ext) with Some t => t | None => file end.
Proof.
  intros H. unfold getFileType.
  destruct (pop_split_dot_extension stem ext H) as (h & t & -> & Hp).
  destruct t as [|x t']; [discriminate|].
  change (pop (h :: x :: t')) with (pop (x :: t')). now rewrite Hp.
Qed.

(** Without any dot the whole name is looked up in the table. *)
Lemma getFileType_plain (fileName : string) :
  hasDot fileName = false ->
  getFileType fileName =
    match typeMap (toLowerCase fileName) with Some t => t | None => file end.
Proof.
  intros H. unfold getFileType. now rewrite (split_dot_plain fileName H).
Qed.

(** Claim C5, where the code departs from it.  The file name "mp4" has no
    dot, hence no extension, and [getFileType] returns the video role and
    not the fallback; a name without a dot gets the fallback only when
    the whole name misses the table.  An extension that names an inherited
    member of the table object, as in "notes.constructor", does not get the
    fallback either. *)
Theorem getFileType_without_dot :
  hasDot "mp4" = false /\
  getFileType "mp4" = video /\
  getFileType "MP4" = video /\
  getFileType "notes.constructor" = inherited "constructor".
Proof. repeat split; reflexivity. Qed.

(** ** Sorting by natural order *)

Lemma consistent_on_key {A B : Type} (cmp : B -> B -> Z) (key : A -> B) :
  Consistent cmp -> Consistent (fun a b => cmp (key a) (key b)).
Proof.
  intros [Ho Ht]. split.
  - intros a b. apply Ho.
  - intros a b c. apply Ht.
Qed.

Lemma byName_consistent (cmp : string -> string -> Z) :
  Consistent cmp -> Consistent (byName cmp).
Proof. intros H. unfold byName, naturalSort. now apply consistent_on_key. Qed.

(** Claim C8.  With a consistent comparator standing for [localeCompare],
    sorting by [naturalSort] is idempotent: sorting again the sorted list of
    names, of directory entries by name, or of lessons by number, returns
    it unchanged. *)
Theorem naturalSort_idempotent (localeCompare : string -> string -> Z) :
  Consistent localeCompare ->
  (forall names : list string,
      sort (naturalSort localeCompare) (sort (naturalSort localeCompare) names) =
      sort (naturalSort localeCompare) names) /\
  (forall entries : list FileSystemHandle,
      sort (byName localeCompare) (sort (byName localeCompare) entries) =
      sort (byName localeCompare) entries) /\
  (forall groups : list Lesson,
      let byNumber := fun a b => naturalSort localeCompare (number a) (number b) in
      sort byNumber (sort byNumber groups) = sort byNumber groups).
Proof.
  intros H. repeat split; intros.
  - apply sort_idempotent. exact H.
  - apply sort_idempotent, byName_consistent, H.
  - apply sort_idempotent. unfold byNumber, naturalSort. now apply consistent_on_key.
Qed.

Lemma naturalSort_idempotent_witness :
  Consistent collate /\
  sort (naturalSort collate)
       (sort (naturalSort collate) ["10. b.mp4"; "2. a.mp4"; "1. C.mp4"; "1. c.vtt"]) =
  sort (naturalSort collate) ["10. b.mp4"; "2. a.mp4"; "1. C.mp4"; "1. c.vtt"].
Proof.
  split; [exact collate_consistent|].
  apply (naturalSort_idempotent collate collate_consistent).
Defined.

(** ** Independence of the enumeration order *)

Lemma Forall2_filter {A : Type} (R : A -> A -> Prop) (f : A -> bool) (l l' : list A) :
  (forall a b, R a b -> f a = f b) ->
  Forall2 R l l' -> Forall2 R (filter f l) (filter f l').
Proof.
  intros Hf. induction 1 as [|a b l l' Hab _ IH]; simpl; [constructor|].
  rewrite <- (Hf a b Hab). destruct (f a); [now constructor | exact IH].
Qed.

Lemma insert_Forall2 {A : Type} (R : A -> A -> Prop) (cmp : A -> A -> Z) :
  (forall a b x y, R a b -> R x y -> cmp a x = cmp b y) ->
  forall a b l l', R a b -> Forall2 R l l' ->
  Forall2 R (insert cmp a l) (insert cmp b l').
Proof.
  intros Hc a b l l' Hab. induction 1 as [|x y l l' Hxy Hl IH]; simpl.
  - repeat constructor. exact Hab.
  - rewrite <- (Hc a b x y Hab Hxy). destruct (cmp a x <=? 0).
    + repeat constructor; assumption.
    + now constructor.
Qed.

Lemma sort_Forall2 {A : Type} (R : A -> A -> Prop) (cmp : A -> A -> Z) :
  (forall a b x y, R a b -> R x y -> cmp a x = cmp b y) ->
  forall l l', Forall2 R l l' -> Forall2 R (sort cmp l) (sort cmp l').
Proof.
  intros Hc l l'. induction 1 as [|a b l l' Hab _ IH]; simpl; [constructor|].
  now apply insert_Forall2.
Qed.

Lemma Forall2_map_eq {A B : Type} (R : A -> A -> Prop) (f : A -> B) (l l' : list A) :
  Forall2 R l l' -> (forall a b, In a l -> R a b -> f a = f b) -> map f l = map f l'.
Proof.
  induction 1 as [|a b l l' Hab _ IH]; intros Hf; simpl; [reflexivity|].
  f_equal.
  - apply Hf; [now left | exact Hab].
  - apply IH. intros x y Hx. apply Hf. now right.
Qed.

Section Enumeration.
Variable cmp : string -> string -> Z.
Hypothesis consistent : Consistent cmp.

Lemma sectionOf_same (d1 d2 : FileSystemHandle) :
  SameEntries d1 d2 -> NoTies cmp (values d1) -> sectionOf cmp d1 = sectionOf cmp d2.
Proof.
  intros (Hn & _ & HP) Hties.
  assert (E : lessonEntriesOf cmp d1 = lessonEntriesOf cmp d2).
  { unfold lessonEntriesOf. apply sort_permuted.
    - now apply byName_consistent.
    - intros a b Ha Hb. apply filter_In in Ha as [Ha _]. apply filter_In in Hb as [Hb _].
      now apply Hties.
    - now apply Permutation_filter. }
  unfold sectionOf, parseSection. now rewrite E, Hn.
Qed.

Lemma videoCount_same (l l' : list FileSystemHandle) :
  Forall2 SameEntries l l' -> videoCount l = videoCount l'.
Proof.
  unfold videoCount. intros H. f_equal.
  induction H as [|a b l l' (_ & _ & HP) _ IH]; simpl; [reflexivity|].
  rewrite !length_app, IH. f_equal.
  now apply Permutation_length, Permutation_filter.
Qed.

Lemma SameEntries_directory (a b : FileSystemHandle) :
  SameEntries a b -> is_directory a = is_directory b.
Proof. intros (_ & Hk & _). unfold is_directory. now rewrite Hk. Qed.

Lemma SameEntries_byName (a b x y : FileSystemHandle) :
  SameEntries a b -> SameEntries x y -> byName cmp a x = byName cmp b y.
Proof. intros (Ha & _) (Hx & _). unfold byName. now rewrite Ha, Hx. Qed.
End Enumeration.

(** Claim C7 fails as stated: with two videos whose names differ in case
    only, the two enumeration orders of the section give two different
    structures. *)
Lemma ties_follow_enumeration_order :
  Reenumerated case_course case_course_reordered /\
  parseCourseStructure collate case_course <>
  parseCourseStructure collate case_course_reordered.
Proof.
  split.
  - exists (values case_course). split; [reflexivity|].
    constructor; [|constructor]. repeat split. apply perm_swap.
  - vm_compute. discriminate.
Qed.

(** Claim C7, amended.  With a consistent comparator, two enumerations of
    one folder give the same outcome of the builder, the same sections,
    lessons and files in the same order, provided no two different entries
    of the root, and no two different entries of any of its directories,
    have names that compare equal. *)
Theorem structure_independent_of_enumeration
  (cmp : string -> string -> Z) (root1 root2 : FileSystemHandle) :
  Consistent cmp ->
  Reenumerated root1 root2 ->
  NoTies cmp (values root1) ->
  (forall d, In d (values root1) -> NoTies cmp (values d)) ->
  parseCourseStructure cmp root1 = parseCourseStructure cmp root2.
Proof.
  intros Hc (l & HP & HF) Hties Hinner.
  set (D1 := filter is_directory (values root1)).
  set (Dl := filter is_directory l).
  set (D2 := filter is_directory (values root2)).
  assert (HPD : Permutation D1 Dl) by now apply Permutation_filter.
  assert (HFD : Forall2 SameEntries Dl D2)
    by (apply Forall2_filter; [apply SameEntries_directory | exact HF]).
  assert (Hsort : sort (byName cmp) D1 = sort (byName cmp) Dl).
  { apply sort_permuted; [now apply byName_consistent | | exact HPD].
    intros a b Ha Hb. apply filter_In in Ha as [Ha _]. apply filter_In in Hb as [Hb _].
    now apply Hties. }
  assert (Hret : retainedSections cmp root1 = retainedSections cmp root2).
  { unfold retainedSections. fold D1 D2. rewrite Hsort. f_equal.
    apply (Forall2_map_eq SameEntries).
    - apply sort_Forall2; [apply SameEntries_byName | exact HFD].
    - intros a b Ha Hab. apply sectionOf_same; [exact Hc | exact Hab |].
      apply Hinner. apply sort_in in Ha. apply filter_In in Ha as [Ha _].
      apply (Permutation_in _ (Permutation_sym HP)). exact Ha. }
  assert (Hvid : videoCount D1 = videoCount D2).
  { transitivity (videoCount Dl); [|now apply videoCount_same].
    unfold videoCount. f_equal. apply Permutation_length.
    now apply Permutation_flat_map. }
  assert (Hlen : List.length D1 = List.length D2).
  { rewrite (Permutation_length HPD). exact (Forall2_length HFD). }
  rewrite !parseCourseStructure_eq. fold D1 D2. rewrite Hret, Hvid.
  destruct D1, D2; try discriminate; reflexivity.
Qed.

Ltac no_ties :=
  let a := fresh "a" in let b := fresh "b" in
  let Ha := fresh "Ha" in let Hb := fresh "Hb" in
  intros a b Ha Hb; simpl in Ha, Hb;
  repeat (destruct Ha as [<-|Ha]; [|]); try contradiction;
  repeat (destruct Hb as [<-|Hb]; [|]); try contradiction;
  vm_compute; intros; congruence.

Lemma structure_independent_of_enumeration_witness :
  Consistent collate /\
  Reenumerated intro_course intro_course_reordered /\
  NoTies collate (values intro_course) /\
  (forall d, In d (values intro_course) -> NoTies collate (values d)) /\
  parseCourseStructure collate intro_course =
  parseCourseStructure collate intro_course_reordered.
Proof.
  assert (H1 : Reenumerated intro_course intro_course_reordered).
  { exists [DirectoryHandle "1. Intro"
              [FileHandle "2. Setup.mp4"; FileHandle "1. Welcome.vtt";
               FileHandle "1. Welcome.mp4"];
            DirectoryHandle "2. Extra" [FileHandle "notes.pdf"]].
    split; [apply perm_swap|].
    repeat constructor.
    simpl. eapply perm_trans; [apply perm_skip, perm_swap | apply perm_swap]. }
  assert (H2 : NoTies collate (values intro_course)) by no_ties.
  assert (H3 : forall d, In d (values intro_course) -> NoTies collate (values d)).
  { intros d Hd. simpl in Hd. destruct Hd as [<-|[<-|[]]]; no_ties. }
  split; [exact collate_consistent|].
  split; [exact H1|]. split; [exact H2|]. split; [exact H3|].
  exact (structure_independent_of_enumeration collate intro_course intro_course_reordered
           collate_consistent H1 H2 H3).
Defined.

(** ** Navigation *)

Lemma at_index_Some {A : Type} (l : list A) (i : Z) (x : A) :
  at_index l i = Some x -> 0 <= i < Z.of_nat (List.length l).
Proof.
  unfold at_index. destruct (Z.ltb_spec i 0) as [Hneg|Hpos]; [discriminate|].
  intros Hx. assert (Hn : nth_error l (Z.to_nat i) <> None) by congruence.
  apply nth_error_Some in Hn. lia.
Qed.

Lemma at_index_in {A : Type} (l : list A) (i : Z) (x : A) :
  at_index l i = Some x -> In x l.
Proof.
  unfold at_index. destruct (i <? 0); [discriminate|]. apply nth_error_In.
Qed.

Lemma at_index_defined {A : Type} (l : list A) (i : Z) :
  0 <= i < Z.of_nat (List.length l) -> exists x, at_index l i = Some x.
Proof.
  intros H. unfold at_index. destruct (Z.ltb_spec i 0); [lia|].
  destruct (nth_error l (Z.to_nat i)) eqn:E; [eauto|].
  apply nth_error_None in E. lia.
Qed.

(** Every section of a structure the builder returns has a lesson. *)
Lemma built_sections_have_lessons (cmp : string -> string -> Z)
      (root : FileSystemHandle) (structure : CourseStructure) :
  parseCourseStructure cmp root = Return structure ->
  structure <> [] /\
  forall section, In section structure -> 0 < Z.of_nat (List.length (lessons section)).
Proof.
  rewrite parseCourseStructure_eq.
  destruct (filter is_directory (values root)); [discriminate|].
  destruct (videoCount (f :: l) =? 0); [discriminate|].
  destruct (retainedSections cmp root) eqn:E; [discriminate|].
  intros H. injection H as <-. split; [discriminate|].
  intros section Hin. rewrite <- E in Hin. unfold retainedSections in Hin.
  apply filter_In in Hin as [_ Hin]. now apply Z.ltb_lt in Hin.
Qed.

Lemma loadLesson_in_bounds (timestamp : Z) (app : CourseViewer) (target : Z * Z) :
  inBounds (courseStructure app) target ->
  exists app',
    loadLesson timestamp (fst target) (snd target) app = Normal app' /\
    currentLesson app' = Some target /\
    courseStructure app' = courseStructure app.
Proof.
  intros (section & lesson & Hs & Hl). destruct target as [s l]. cbn [fst snd] in *.
  unfold loadLesson. rewrite Hs, Hl.
  unfold saveLastSession. cbn [setCurrentLesson currentLesson currentCourseId courseStructure].
  rewrite Hs, Hl.
  destruct (truthyId (currentCourseId app)); eexists; repeat split; reflexivity.
Qed.

(** The decision of a step on a built structure. *)
Lemma navigationTarget_in_bounds
  (structure : CourseStructure) (app : CourseViewer) (direction : Z) (position : Z * Z) :
  (forall section, In section structure -> 0 < Z.of_nat (List.length (lessons section))) ->
  courseStructure app = structure ->
  currentLesson app = Some position ->
  inBounds structure position ->
  direction = 1 \/ direction = -1 ->
  (exists target,
      navigationTarget direction app = Normal (Some target) /\
      inBounds structure target /\
      isNeighbour structure direction position target) \/
  (navigationTarget direction app = Normal None /\
   ((direction = -1 /\ isFirstLesson position) \/
    (direction = 1 /\ isLastLesson structure position))).
Proof.
  intros Hne Hst Hcur (section & lesson & Hs & Hl) Hdir. subst structure.
  destruct position as [s l]. cbn [fst snd] in *.
  pose proof (at_index_Some _ _ _ Hs) as Bs. pose proof (at_index_Some _ _ _ Hl) as Bl.
  unfold navigationTarget. rewrite Hcur.
  destruct Hdir as [-> | ->].
  - (* forward *)
    destruct (Z.ltb_spec (l + 1) 0); [lia|]. rewrite Hs.
    destruct (Z.leb_spec (Z.of_nat (List.length (lessons section))) (l + 1)).
    + destruct (Z.ltb_spec s (Z.of_nat (List.length (courseStructure app)) - 1)).
      * destruct (at_index_defined (courseStructure app) (s + 1)) as [next Hnext]; [lia|].
        pose proof (Hne next (at_index_in _ _ _ Hnext)) as Hpos.
        destruct (at_index_defined (lessons next) 0) as [first Hfirst]; [lia|].
        left. exists (s + 1, 0). split; [reflexivity|].
        split; [exists next, first; auto|].
        right. right. split; [reflexivity|]. split; [reflexivity|].
        exists section. split; [exact Hs | cbn [snd]; lia].
      * right. split; [reflexivity|]. right. split; [reflexivity|].
        exists section. cbn [fst snd]. repeat split; [lia | exact Hs | lia].
    + destruct (at_index_defined (lessons section) (l + 1)) as [next Hnext]; [lia|].
      left. exists (s, l + 1). split; [reflexivity|].
      split; [exists section, next; auto | left; reflexivity].
  - (* backward *)
    destruct (Z.ltb_spec (l + -1) 0).
    + destruct (Z.ltb_spec 0 s).
      * destruct (at_index_defined (courseStructure app) (s - 1)) as [prev Hprev]; [lia|].
        rewrite Hprev.
        pose proof (Hne prev (at_index_in _ _ _ Hprev)) as Hpos.
        destruct (at_index_defined (lessons prev) (Z.of_nat (List.length (lessons prev)) - 1))
          as [last Hlast]; [lia|].
        left. exists (s - 1, Z.of_nat (List.length (lessons prev)) - 1).
        split; [reflexivity|]. split; [exists prev, last; auto|].
        right. left. cbn [fst snd]. repeat split; try lia. exists prev. auto.
      * right. split; [reflexivity|]. left. split; [reflexivity|].
        unfold isFirstLesson. f_equal; lia.
    + rewrite Hs.
      destruct (Z.leb_spec (Z.of_nat (List.length (lessons section))) (l + -1)); [lia|].
      destruct (at_index_defined (lessons section) (l + -1)) as [prev Hprev]; [lia|].
      left. exists (s, l + -1). split; [reflexivity|].
      split; [exists section, prev; auto | left; reflexivity].
Qed.

(** Claim C10.  On a structure returned by the builder, from a position in
    bounds, a step of +1 or -1 either loads a lesson that is in bounds, the
    neighbour in the same section or the last or first lesson of the
    adjacent section, or returns at the first or last lesson of the course
    and leaves the state as it is.  It never fails on an index out of
    range. *)
Theorem navigation_stays_in_bounds
  (cmp : string -> string -> Z) (root : FileSystemHandle) (app : CourseViewer)
  (timestamp direction : Z) (position : Z * Z) :
  parseCourseStructure cmp root = Return (courseStructure app) ->
  currentLesson app = Some position ->
  inBounds (courseStructure app) position ->
  direction = 1 \/ direction = -1 ->
  exists app',
    navigateLesson timestamp direction app = Normal app' /\
    courseStructure app' = courseStructure app /\
    ((exists target,
         navigationTarget direction app = Normal (Some target) /\
         currentLesson app' = Some target /\
         inBounds (courseStructure app) target /\
         isNeighbour (courseStructure app) direction position target) \/
     (navigationTarget direction app = Normal None /\
      app' = app /\
      ((direction = -1 /\ isFirstLesson position) \/
       (direction = 1 /\ isLastLesson (courseStructure app) position)))).
Proof.
  intros Hbuilt Hcur Hin Hdir.
  destruct (built_sections_have_lessons cmp root _ Hbuilt) as [_ Hne].
  destruct (navigationTarget_in_bounds (courseStructure app) app direction position
              Hne eq_refl Hcur Hin Hdir)
    as [(target & Ht & Hb & Hnb) | (Ht & Hend)].
  - destruct (loadLesson_in_bounds timestamp app target Hb) as (app' & Hl' & Hc' & Hst').
    exists app'. unfold navigateLesson. rewrite Ht. destruct target as [s' l'].
    split; [exact Hl'|]. split; [exact Hst'|]. left. exists (s', l').
    split; [reflexivity|]. split; [exact Hc'|]. split; [exact Hb | exact Hnb].
  - exists app. unfold navigateLesson. rewrite Ht.
    split; [reflexivity|]. split; [reflexivity|]. right.
    split; [reflexivity|]. split; [reflexivity | exact Hend].
Qed.

Lemma navigation_stays_in_bounds_witness :
  parseCourseStructure collate intro_course = Return (courseStructure intro_session) /\
  currentLesson intro_session = Some (0, 0) /\
  inBounds (courseStructure intro_session) (0, 0) /\
  (1 = 1 \/ 1 = -1) /\
  exists app',
    navigateLesson 2000 1 intro_session = Normal app' /\
    courseStructure app' = courseStructure intro_session /\
    ((exists target,
         navigationTarget 1 intro_session = Normal (Some target) /\
         currentLesson app' = Some target /\
         inBounds (courseStructure intro_session) target /\
         isNeighbour (courseStructure intro_session) 1 (0, 0) target) \/
     (navigationTarget 1 intro_session = Normal None /\
      app' = intro_session /\
      ((1 = -1 /\ isFirstLesson (0, 0)) \/
       (1 = 1 /\ isLastLesson (courseStructure intro_session) (0, 0))))).
Proof.
  assert (H1 : parseCourseStructure collate intro_course
               = Return (courseStructure intro_session)) by (vm_compute; reflexivity).
  assert (H2 : currentLesson intro_session = Some (0, 0)) by (vm_compute; reflexivity).
  assert (H3 : inBounds (courseStructure intro_session) (0, 0)).
  { vm_compute. eexists. eexists. split; reflexivity. }
  assert (H4 : 1 = 1 \/ 1 = -1) by (left; reflexivity).
  split; [exact H1|]. split; [exact H2|]. split; [exact H3|]. split; [exact H4|].
  exact (navigation_stays_in_bounds collate intro_course intro_session 2000 1 (0, 0)
           H1 H2 H3 H4).
Defined.

(** ** Loading a course *)

(** Claim C9 fails as stated: with "My Course" open, a load of a folder
    without subdirectories fails in the builder, and afterwards the active
    course name and identifier are those of the folder that failed. *)
Lemma failed_load_overwrites_name_and_id :
  let before := pickDirectory flat_folder intro_session in
  let after := fst (loadCourse collate true clock before) in
  parseCourseStructure collate flat_folder = Throw no_sections_message /\
  courseName before = "My Course" /\ courseName after = "Broken" /\
  currentCourseId before = Some "my_course" /\ currentCourseId after = Some "broken" /\
  after <> before.
Proof.
  repeat split; try (vm_compute; reflexivity).
  intros H. apply (f_equal courseName) in H. vm_compute in H. discriminate.
Qed.

(** Claim C9, amended.  When the builder throws during [loadCourse], the
    course structure, the current lesson, the completion set, the course
    library, the persisted data, the stored handles and the selected
    directory handle are those of before the call, and the error modal is
    shown; the active course name and identifier are not restored, they are
    those of the folder whose load failed. *)
Theorem failed_load_keeps_structure_and_library
  (cmp : string -> string -> Z) (shouldOpen : bool) (now : nat -> Z)
  (app : CourseViewer) (dirHandle : FileSystemHandle) (message : string) :
  directoryHandle app = Some dirHandle ->
  parseCourseStructure cmp dirHandle = Throw message ->
  let after := fst (loadCourse cmp shouldOpen now app) in
  courseStructure after = courseStructure app /\
  currentLesson after = currentLesson app /\
  completedLessons after = completedLessons app /\
  courseLibrary after = courseLibrary app /\
  localStorage after = localStorage app /\
  handleDB after = handleDB app /\
  directoryHandle after = directoryHandle app /\
  courseName after = name dirHandle /\
  currentCourseId after = Some (generateCourseId (name dirHandle)) /\
  snd (loadCourse cmp shouldOpen now app) = [load_error_modal].
Proof.
  intros Hd Hp. unfold loadCourse. rewrite Hd, Hp. cbn.
  repeat split; reflexivity.
Qed.

Lemma failed_load_keeps_structure_and_library_witness :
  let app := pickDirectory flat_folder intro_session in
  directoryHandle app = Some flat_folder /\
  parseCourseStructure collate flat_folder = Throw no_sections_message /\
  let after := fst (loadCourse collate true clock app) in
  courseStructure after = courseStructure app /\
  currentLesson after = currentLesson app /\
  completedLessons after = completedLessons app /\
  courseLibrary after = courseLibrary app /\
  localStorage after = localStorage app /\
  handleDB after = handleDB app /\
  directoryHandle after = directoryHandle app /\
  courseName after = name flat_folder /\
  currentCourseId after = Some (generateCourseId (name flat_folder)) /\
  snd (loadCourse collate true clock app) = [load_error_modal].
Proof.
  assert (H1 : directoryHandle (pickDirectory flat_folder intro_session) = Some flat_folder)
    by reflexivity.
  assert (H2 : parseCourseStructure collate flat_folder = Throw no_sections_message)
    by (vm_compute; reflexivity).
  split; [exact H1|]. split; [exact H2|].
  exact (failed_load_keeps_structure_and_library collate true clock
           (pickDirectory flat_folder intro_session) flat_folder no_sections_message H1 H2).
Defined.

(** ** A video anywhere gives a section with a lesson *)

Lemma Map_set_absent (m : LessonMap) (k : string) (v : Lesson) :
  Map_has m k = false -> Map_set m k v = m ++ [(k, v)].
Proof.
  induction m as [|[k' w] r IH]; simpl; [reflexivity|].
  destruct (String.eqb k' k); simpl; [discriminate|]. intros H. now rewrite IH.
Qed.

Lemma Map_has_app (m m' : LessonMap) (k : string) :
  Map_has (m ++ m') k = Map_has m k || Map_has m' k.
Proof.
  induction m as [|[k' w] r IH]; simpl; [reflexivity|]. now rewrite IH, orb_assoc.
Qed.

Lemma anyVideo_push (m : LessonMap) (k : string) (f : LessonFile) :
  anyVideo m = true -> anyVideo (Map_push m k f) = true.
Proof.
  unfold anyVideo, Map_values.
  induction m as [|[k' w] r IH]; simpl; [discriminate|].
  destruct (String.eqb k' k); simpl.
  - intros H. apply orb_true_iff in H as [H|H]; [|now rewrite H, orb_true_r].
    unfold has_video in *. cbn [files]. rewrite existsb_app, H. reflexivity.
  - intros H. apply orb_true_iff in H as [H|H]; [now rewrite H|].
    now rewrite (IH H), orb_true_r.
Qed.

Lemma anyVideo_push_video (m : LessonMap) (k : string) (f : LessonFile) :
  Map_has m k = true -> is_video (type f) = true -> anyVideo (Map_push m k f) = true.
Proof.
  unfold anyVideo, Map_values. intros Hk Hf.
  induction m as [|[k' w] r IH]; simpl in *; [discriminate|].
  destruct (String.eqb k' k); simpl in *.
  - unfold has_video at 1. cbn [files]. rewrite existsb_app. simpl. rewrite Hf.
    now rewrite orb_true_r.
  - now rewrite (IH Hk), orb_true_r.
Qed.

Lemma anyVideo_app (m m' : LessonMap) :
  anyVideo (m ++ m') = anyVideo m || anyVideo m'.
Proof. unfold anyVideo, Map_values. now rewrite map_app, existsb_app. Qed.

Lemma groupsAfter_video (m : LessonMap) (h : FileSystemHandle) :
  anyVideo m = true \/ roleIsVideo h = true -> anyVideo (groupsAfter m h) = true.
Proof.
  unfold groupsAfter, groupStep, roleIsVideo. cbn [lessonGroups].
  intros H.
  destruct (is_video (getFileType (name h))) eqn:Ev.
  - cbn [orb lessonGroups]. apply anyVideo_push_video; [|exact Ev].
    destruct (Map_has m (extractLessonNumber (name h))) eqn:Eh; cbn [negb]; [exact Eh|].
    rewrite (Map_set_absent _ _ _ Eh), Map_has_app. simpl.
    now rewrite String.eqb_refl, orb_true_r.
  - destruct H as [H|H]; [|discriminate].
    destruct (is_subtitle (getFileType (name h))); cbn [orb lessonGroups]; [|exact H].
    apply anyVideo_push.
    destruct (Map_has m (extractLessonNumber (name h))) eqn:Eh; cbn [negb]; [exact H|].
    rewrite (Map_set_absent _ _ _ Eh), anyVideo_app, H. reflexivity.
Qed.

Lemma groupMap_video (l : list FileSystemHandle) : forall m,
  anyVideo m = true \/ (exists h, In h l /\ roleIsVideo h = true) ->
  anyVideo (fold_left groupsAfter l m) = true.
Proof.
  induction l as [|x r IH]; intros m H; cbn [fold_left].
  - destruct H as [H|(h & [] & _)]. exact H.
  - apply IH. destruct H as [H|(h & [->|Hin] & Hv)].
    + left. apply groupsAfter_video. now left.
    + left. apply groupsAfter_video. now right.
    + right. eauto.
Qed.

Lemma video_file_gives_lesson (cmp : string -> string -> Z) (d f : FileSystemHandle) :
  In f (values d) -> isVideoFile f = true -> hasLessons (sectionOf cmp d) = true.
Proof.
  intros Hin Hv. unfold isVideoFile in Hv. apply andb_true_iff in Hv as [Hfile Hrole].
  unfold hasLessons, sectionOf, parseSection. cbn [fst lessons].
  unfold videoLessonsOf. rewrite sort_length, groupLessons_eq. cbn [lessonGroups].
  assert (Hany : anyVideo (groupMapOf (lessonEntriesOf cmp d)) = true).
  { apply groupMap_video. right. exists f. split; [|exact Hrole].
    unfold lessonEntriesOf. apply sort_in, filter_In. auto. }
  unfold anyVideo in Hany. apply existsb_exists in Hany as (g & Hg & Hgv).
  assert (Hf : In g (filter has_video (Map_values (groupMapOf (lessonEntriesOf cmp d)))))
    by (apply filter_In; auto).
  destruct (filter has_video (Map_values (groupMapOf (lessonEntriesOf cmp d))));
    [contradiction|]. reflexivity.
Qed.

(** The third failure of the builder cannot occur: a video file found in a
    section directory gives that section a lesson. *)
Lemma invalid_format_unreachable (cmp : string -> string -> Z) (dirHandle : FileSystemHandle) :
  parseCourseStructure cmp dirHandle <> Throw invalid_format_message.
Proof.
  rewrite parseCourseStructure_eq.
  destruct (filter is_directory (values dirHandle)) as [|d ds] eqn:E; [discriminate|].
  destruct (Z.eqb_spec (videoCount (d :: ds)) 0) as [|Hv]; [discriminate|].
  destruct (retainedSections cmp dirHandle) eqn:R; [|discriminate].
  exfalso. apply Hv. unfold videoCount.
  destruct (flat_map (fun d0 => filter isVideoFile (values d0)) (d :: ds)) as [|f fs] eqn:F;
    [reflexivity|].
  assert (Hin : In f (flat_map (fun d0 => filter isVideoFile (values d0)) (d :: ds)))
    by (rewrite F; now left).
  apply in_flat_map in Hin as (d0 & Hd0 & Hf). apply filter_In in Hf as [Hf Hvf].
  assert (Hs : In (sectionOf cmp d0) (retainedSections cmp dirHandle)).
  { unfold retainedSections. rewrite E. apply filter_In. split.
    - apply in_map, sort_in, Hd0.
    - exact (video_file_gives_lesson cmp d0 f Hf Hvf). }
  rewrite R in Hs. contradiction.
Qed.

(** Every lesson of a structure the builder returns has a video. *)
Lemma built_lessons_have_video (cmp : string -> string -> Z)
      (root : FileSystemHandle) (structure : CourseStructure) :
  parseCourseStructure cmp root = Return structure ->
  forall section lesson, In section structure -> In lesson (lessons section) ->
  has_video lesson = true.
Proof.
  rewrite parseCourseStructure_eq.
  destruct (filter is_directory (values root)); [discriminate|].
  destruct (videoCount (f :: l) =? 0); [discriminate|].
  destruct (retainedSections cmp root) eqn:E; [discriminate|].
  intros H. injection H as <-. intros section lesson Hs Hl.
  rewrite <- E in Hs. unfold retainedSections in Hs.
  apply filter_In in Hs as [Hs _]. apply in_map_iff in Hs as (d & <- & _).
  unfold sectionOf, parseSection in Hl. cbn [fst lessons] in Hl.
  apply videoLessons_in in Hl. tauto.
Qed.

(** ** Binary64 arithmetic: results that stay between two bounds *)

Lemma digits2_pos_lt (p : positive) : Z.pos p < 2 ^ Z.pos (digits2_pos p).
Proof.
  induction p as [p IH|p IH|]; cbn [digits2_pos]; try rewrite Pos2Z.inj_succ;
    try rewrite Z.pow_succ_r by lia; lia.
Qed.

Lemma digits2_pos_le (p : positive) (k : Z) :
  0 <= k -> Z.pos p < 2 ^ k -> Z.pos (digits2_pos p) <= k.
Proof.
  revert k. induction p as [p IH|p IH|]; intros k Hk H; cbn [digits2_pos].
  - rewrite Pos2Z.inj_succ. assert (0 < k).
    { destruct (Z.eq_dec k 0) as [->|]; [simpl in H; lia | lia]. }
    specialize (IH (k - 1)). replace k with (Z.succ (k - 1)) in H by lia.
    rewrite Z.pow_succ_r in H by lia. lia.
  - rewrite Pos2Z.inj_succ. assert (0 < k).
    { destruct (Z.eq_dec k 0) as [->|]; [simpl in H; lia | lia]. }
    specialize (IH (k - 1)). replace k with (Z.succ (k - 1)) in H by lia.
    rewrite Z.pow_succ_r in H by lia. lia.
  - destruct (Z.eq_dec k 0) as [->|]; [simpl in H; lia | lia].
Qed.

Lemma pow2_split (x : Z) : x + 1 <= 0 -> 2 ^ (- x) = 2 * 2 ^ (- (x + 1)).
Proof.
  intros H. replace (- x) with (Z.succ (- (x + 1))) by lia.
  now rewrite Z.pow_succ_r by lia.
Qed.

Section Rounding.
Variables j KL KU : Z.
Hypothesis grid : 0 <= j <= 1074.
Hypothesis bounds : 0 <= KL /\ KU < 2 ^ 53.

Lemma shr_1_between (e : Z) (r : shr_record) :
  e + 1 + j <= 0 -> Between j KL KU e r -> Between j KL KU (e + 1) (shr_1 r).
Proof.
  intros He (_ & Hm & Hx). destruct r as [m rb sb]. cbn [shr_m shr_r shr_s] in *.
  rewrite (pow2_split (e + j)) in Hm, Hx by lia.
  replace (e + j + 1) with (e + 1 + j) in Hm, Hx by lia.
  assert (Hpos : 0 < 2 ^ (- (e + 1 + j))) by (apply Z.pow_pos_nonneg; lia).
  set (P := 2 ^ (- (e + 1 + j))) in *.
  set (NL := KL * P). set (NU := KU * P).
  replace (KL * (2 * P)) with (2 * NL) in Hm by (unfold NL; ring).
  replace (KU * (2 * P)) with (2 * NU) in Hm, Hx by (unfold NU; ring).
  unfold Between. split; [exact He|]. fold P NL NU.
  destruct m as [|[p|p|]|p]; cbn [shr_1 shr_m shr_r shr_s]; try lia.
  - split; [lia|]. intros H0. destruct Hx as [-> ->]; [lia | auto].
  - split; [lia|]. intros H0. destruct Hx as [-> ->]; [lia | auto].
Qed.

Lemma iter_shr_1_between (p : positive) : forall (e : Z) (r : shr_record),
  e + Z.pos p + j <= 0 -> Between j KL KU e r ->
  Between j KL KU (e + Z.pos p) (iter_pos shr_1 p r).
Proof.
  induction p as [p IH|p IH|]; intros e r He Hr; cbn [iter_pos].
  - replace (e + Z.pos p~1) with ((e + 1 + Z.pos p) + Z.pos p) by lia.
    apply IH; [lia|]. apply IH; [lia|]. apply shr_1_between; [lia | exact Hr].
  - replace (e + Z.pos p~0) with ((e + Z.pos p) + Z.pos p) by lia.
    apply IH; [lia|]. apply IH; [lia | exact Hr].
  - apply shr_1_between; [lia | exact Hr].
Qed.

Lemma fexp_on_grid (m e : Z) :
  e + j <= 0 -> 0 <= m <= KU * 2 ^ (- (e + j)) ->
  fexp 53 1024 (Zdigits2 m + e) + j <= 0.
Proof.
  intros He Hm. unfold fexp, emin.
  assert (Zdigits2 m + e + j <= 53); [|lia].
  destruct m as [|p|p]; cbn [Zdigits2]; try lia.
  assert (Z.pos (digits2_pos p) <= 53 - (e + j)); [|lia].
  apply digits2_pos_le; [lia|].
  replace (53 - (e + j)) with (53 + - (e + j)) by lia. rewrite Z.pow_add_r by lia.
  assert (0 < 2 ^ (- (e + j))) by (apply Z.pow_pos_nonneg; lia). nia.
Qed.

Lemma shr_fexp_between (m e : Z) (l : location) :
  e + j <= 0 ->
  KL * 2 ^ (- (e + j)) <= m <= KU * 2 ^ (- (e + j)) ->
  (m = KU * 2 ^ (- (e + j)) -> l = loc_Exact) ->
  Between j KL KU (snd (shr_fexp 53 1024 m e l)) (fst (shr_fexp 53 1024 m e l)).
Proof.
  intros He Hm Hx.
  assert (Hpos : 0 < 2 ^ (- (e + j))) by (apply Z.pow_pos_nonneg; lia).
  assert (Hm0 : 0 <= m) by nia.
  assert (H0 : Between j KL KU e (shr_record_of_loc m l)).
  { split; [exact He|].
    assert (shr_m (shr_record_of_loc m l) = m) as -> by (destruct l as [|[]]; reflexivity).
    split; [exact Hm|]. intros H. rewrite (Hx H). auto. }
  pose proof (fexp_on_grid m e He (conj Hm0 (proj2 Hm))) as Hf.
  unfold shr_fexp, shr.
  destruct (fexp 53 1024 (Zdigits2 m + e) - e) as [|p|p] eqn:E; cbn [fst snd]; try exact H0.
  rewrite <- E.
  replace (e + (fexp 53 1024 (Zdigits2 m + e) - e)) with (e + Z.pos p) by lia.
  apply iter_shr_1_between; [lia | exact H0].
Qed.

(** Rounding to nearest does not leave an interval whose ends are on the
    grid. *)
Lemma binary_round_aux_between (m e : Z) (l : location) :
  e + j <= 0 ->
  KL * 2 ^ (- (e + j)) <= m <= KU * 2 ^ (- (e + j)) ->
  (m = KU * 2 ^ (- (e + j)) -> l = loc_Exact) ->
  between j KL KU (binary_round_aux 53 1024 false m e l).
Proof.
  intros He Hm Hx. unfold binary_round_aux.
  pose proof (shr_fexp_between m e l He Hm Hx) as H1.
  destruct (shr_fexp 53 1024 m e l) as [mrs' e']. cbn [fst snd] in H1.
  destruct H1 as (He' & Hm' & Hx').
  set (m1 := round_nearest_even (shr_m mrs') (loc_of_shr_record mrs')).
  assert (Hm1 : KL * 2 ^ (- (e' + j)) <= m1 <= KU * 2 ^ (- (e' + j))).
  { unfold m1. destruct mrs' as [m0 rb sb]. cbn [shr_m shr_r shr_s] in *.
    destruct rb, sb; cbn [loc_of_shr_record round_nearest_even];
      try (destruct (Z.even m0));
      try lia;
      (assert (m0 <> KU * 2 ^ (- (e' + j)))
         by (intros H; destruct (Hx' H); discriminate); lia). }
  pose proof (shr_fexp_between m1 e' loc_Exact He' Hm1 (fun _ => eq_refl)) as H2.
  destruct (shr_fexp 53 1024 m1 e' loc_Exact) as [mrs'' e'']. cbn [fst snd] in H2.
  destruct H2 as (He'' & Hm'' & _).
  assert (Hpos : 0 < 2 ^ (- (e'' + j))) by (apply Z.pow_pos_nonneg; lia).
  destruct (shr_m mrs'') as [|p|p]; cbn [between].
  - nia.
  - destruct (Z.leb_spec e'' (1024 - 53)); [|lia].
    cbn [between]. split; [exact He'' | exact Hm''].
  - nia.
Qed.
End Rounding.

Lemma iter_xO_value (p k : positive) : Z.pos (Pos.iter xO p k) = Z.pos p * 2 ^ Z.pos k.
Proof.
  induction k as [|k IH] using Pos.peano_ind.
  - cbn [Pos.iter]. rewrite Pos2Z.inj_xO. change (2 ^ 1) with 2. lia.
  - rewrite Pos.iter_succ, Pos2Z.inj_xO, IH, Pos2Z.inj_succ, Z.pow_succ_r by lia. ring.
Qed.

Lemma iter_xO_digits (p k : positive) :
  Z.pos (digits2_pos (Pos.iter xO p k)) = Z.pos (digits2_pos p) + Z.pos k.
Proof.
  induction k as [|k IH] using Pos.peano_ind.
  - cbn [Pos.iter digits2_pos]. lia.
  - rewrite Pos.iter_succ. cbn [digits2_pos]. rewrite Pos2Z.inj_succ, IH. lia.
Qed.

(** A 53-bit mantissa at an exponent in range is not touched by the
    rounding. *)
Lemma binary_round_aux_exact (m : positive) (e : Z) :
  Z.pos (digits2_pos m) = 53 -> -1074 <= e <= 971 ->
  binary_round_aux 53 1024 false (Z.pos m) e loc_Exact = S754_finite false m e.
Proof.
  intros Hd He. unfold binary_round_aux.
  assert (Hs : shr_fexp 53 1024 (Z.pos m) e loc_Exact =
               (Build_shr_record (Z.pos m) false false, e)).
  { unfold shr_fexp. cbn [Zdigits2]. rewrite Hd.
    replace (fexp 53 1024 (53 + e) - e) with 0 by (unfold fexp, emin; lia).
    reflexivity. }
  rewrite Hs. cbn [shr_m loc_of_shr_record round_nearest_even]. rewrite Hs. cbn [shr_m].
  destruct (Z.leb_spec e (1024 - 53)); [reflexivity | lia].
Qed.

(** An integer below 2^53 is a number exactly: a 53-bit mantissa [m] and an
    exponent [e] with [m = c * 2^(-e)]. *)
Lemma toNumber_exact (c : Z) :
  0 < c < 2 ^ 53 ->
  exists m, toNumber c = S754_finite false m (Zdigits2 c - 53) /\
            Zdigits2 c - 53 <= 0 /\
            Z.pos (digits2_pos m) = 53 /\
            Z.pos m = c * 2 ^ (- (Zdigits2 c - 53)).
Proof.
  intros Hc. destruct c as [|p|p]; try lia. cbn [Zdigits2].
  set (d := Z.pos (digits2_pos p)).
  assert (Hd : 1 <= d <= 53) by (split; [unfold d; lia | apply digits2_pos_le; lia]).
  unfold toNumber, binary_normalize, binary_round.
  replace (fexp 53 1024 (Z.pos (digits2_pos p) + 0)) with (d - 53)
    by (unfold fexp, emin; fold d; lia).
  unfold shl_align. destruct (d - 53 - 0) as [|k|k] eqn:E; try lia.
  - exists p. assert (d = 53) as Hd53 by lia. rewrite Hd53.
    split; [apply binary_round_aux_exact; [exact Hd53 | lia]|].
    split; [lia|]. split; [exact Hd53|]. simpl. lia.
  - exists (Pos.iter xO p k).
    assert (Hdig : Z.pos (digits2_pos (Pos.iter xO p k)) = 53)
      by (rewrite iter_xO_digits; fold d; lia).
    split; [apply binary_round_aux_exact; [exact Hdig | lia]|].
    split; [lia|]. split; [exact Hdig|].
    rewrite iter_xO_value. f_equal. f_equal. lia.
Qed.

Lemma Zdigits2_mono (c t : Z) : 0 < c <= t -> Zdigits2 c <= Zdigits2 t.
Proof.
  intros H. destruct c as [|p|p], t as [|q|q]; try lia. cbn [Zdigits2].
  apply digits2_pos_le; [lia|]. pose proof (digits2_pos_lt q). lia.
Qed.

Lemma new_location_0 (nb : Z) : new_location nb 0 = loc_Exact.
Proof.
  unfold new_location, new_location_even, new_location_odd.
  destruct (Z.even nb); reflexivity.
Qed.

(** Floor and ceiling of a quotient, as inequalities. *)
Lemma floor_bounds (a t : Z) : 0 < t -> (a / t) * t <= a < (a / t) * t + t.
Proof.
  intros Ht. pose proof (Z.div_mod a t ltac:(lia)). pose proof (Z.mod_pos_bound a t Ht). lia.
Qed.

Lemma ceil_bounds (a t : Z) :
  0 < t -> a <= ((a + t - 1) / t) * t < a + t.
Proof. intros Ht. pose proof (floor_bounds (a + t - 1) t Ht). lia. Qed.

(** The quotient of two integers, the smaller over the larger, lies between
    the floor and the ceiling of the exact quotient taken on the grid of
    step 2^(-52). *)
Lemma Number_div_between (c t : Z) :
  0 < c <= t -> t < 2 ^ 53 ->
  between 52 (c * 2 ^ 52 / t) ((c * 2 ^ 52 + t - 1) / t)
          (Number_div (toNumber c) (toNumber t)).
Proof.
  intros Hc Ht.
  destruct (toNumber_exact c) as (m1 & -> & He1 & Hd1 & Hm1); [lia|].
  destruct (toNumber_exact t) as (m2 & -> & He2 & Hd2 & Hm2); [lia|].
  pose proof (Zdigits2_mono c t Hc) as Hmono.
  set (e1 := Zdigits2 c - 53) in *. set (e2 := Zdigits2 t - 53) in *.
  assert (Hlo1 : 1 <= Zdigits2 c) by (destruct c; cbn [Zdigits2]; lia).
  unfold Number_div, SFdiv, SFdiv_core_binary. cbn [Zdigits2 xorb].
  rewrite Hd1, Hd2.
  replace (53 + e1 - (53 + e2)) with (e1 - e2) by lia.
  replace (fexp 53 1024 (e1 - e2)) with (e1 - e2 - 53) by (unfold fexp, emin; lia).
  replace (Z.min (e1 - e2 - 53) (e1 - e2)) with (e1 - e2 - 53) by lia.
  replace (e1 - e2 - (e1 - e2 - 53)) with 53 by lia.
  rewrite Z.shiftl_mul_pow2 by lia.
  pose proof (Z.div_eucl_eq (Z.pos m1 * 2 ^ 53) (Z.pos m2) ltac:(lia)) as Heq.
  pose proof (Z.mod_pos_bound (Z.pos m1 * 2 ^ 53) (Z.pos m2) ltac:(lia)) as Hr.
  unfold Z.modulo in Hr.
  destruct (Z.div_eucl (Z.pos m1 * 2 ^ 53) (Z.pos m2)) as [q r].
  assert (Hp1 : 0 < 2 ^ (- e1)) by (apply Z.pow_pos_nonneg; lia).
  assert (Hp2 : 0 < 2 ^ (- e2)) by (apply Z.pow_pos_nonneg; lia).
  set (P := 2 ^ (- (e1 - e2 - 53 + 52))).
  assert (HP : 0 < P) by (apply Z.pow_pos_nonneg; lia).
  assert (Hpow : 2 ^ 52 * P * 2 ^ (- e2) = 2 ^ 53 * 2 ^ (- e1)).
  { unfold P. rewrite <- !Z.pow_add_r by lia. f_equal. lia. }
  set (M := Z.pos m1 * 2 ^ 53) in *.
  set (A := c * 2 ^ 52).
  assert (HMA : M * t = A * P * Z.pos m2).
  { unfold M, A. rewrite Hm1, Hm2.
    replace (c * 2 ^ 52 * P * (t * 2 ^ (- e2))) with (c * t * (2 ^ 52 * P * 2 ^ (- e2))) by ring.
    rewrite Hpow. ring. }
  pose proof (floor_bounds A t ltac:(lia)) as HL.
  pose proof (ceil_bounds A t ltac:(lia)) as HU.
  set (KL := A / t) in *. set (KU := (A + t - 1) / t) in *.
  assert (HKL : 0 <= KL) by (apply Z.div_pos; unfold A; lia).
  assert (HKU : KU < 2 ^ 53).
  { unfold KU. apply Z.div_lt_upper_bound; [lia|]. unfold A. nia. }
  assert (Hq0 : 0 <= q) by nia.
  assert (Hmt : 0 < Z.pos m2 * t) by nia.
  (* the mantissa of the quotient against the two bounds *)
  assert (HqU : q <= KU * P).
  { apply (Z.mul_le_mono_pos_r _ _ (Z.pos m2 * t) Hmt).
    assert (q * Z.pos m2 * t <= M * t) by nia.
    assert (A * P * Z.pos m2 <= KU * t * P * Z.pos m2) by nia.
    nia. }
  assert (HqL : KL * P <= q).
  { destruct (Z_le_gt_dec (KL * P) q) as [|Hgt]; [assumption|exfalso].
    assert (q + 1 <= KL * P) by lia.
    assert (M < (q + 1) * Z.pos m2) by lia.
    assert ((q + 1) * Z.pos m2 <= KL * P * Z.pos m2) by nia.
    assert (M * t < KL * P * Z.pos m2 * t) by nia.
    assert (KL * t * (P * Z.pos m2) <= A * (P * Z.pos m2)) by nia.
    nia. }
  apply binary_round_aux_between; try lia.
  - fold P. intros ->.
    assert (r = 0) as ->; [|apply new_location_0].
    assert (A * P * Z.pos m2 <= KU * t * P * Z.pos m2) by nia.
    assert (M * t <= KU * P * Z.pos m2 * t) by nia.
    assert (M <= KU * P * Z.pos m2) by nia.
    lia.
Qed.

Lemma toNumber_100 : toNumber 100 = S754_finite false 7036874417766400 (-46).
Proof. vm_compute. reflexivity. Qed.

(** A number on the grid of step 2^(-52), times 100, lies between the
    products of its bounds, taken on the grid of step 2^(-46). *)
Lemma Number_mul_100_between (KL KU : Z) (q : Number) :
  0 <= KL -> KU <= 2 ^ 52 -> between 52 KL KU q ->
  between 46 (100 * KL / 64) ((100 * KU + 63) / 64) (Number_mul q (toNumber 100)).
Proof.
  intros HKL HKU. rewrite toNumber_100. unfold Number_mul, SFmul.
  pose proof (floor_bounds (100 * KL) 64 ltac:(lia)) as HL.
  pose proof (ceil_bounds (100 * KU) 64 ltac:(lia)) as HU.
  replace (100 * KU + 64 - 1) with (100 * KU + 63) in HU by lia.
  set (KL' := 100 * KL / 64) in *. set (KU' := (100 * KU + 63) / 64) in *.
  destruct q as [s|s| |[|] m e]; cbn [between]; try contradiction.
  - intros H. lia.
  - intros [He [HmL HmU]]. cbn [xorb].
    set (P := 2 ^ (- (e + 52))) in *.
    assert (HP : 0 < P) by (apply Z.pow_pos_nonneg; lia).
    assert (Hpow : 2 ^ (- (e + -46 + 46)) = P * 2 ^ 52).
    { unfold P. rewrite <- Z.pow_add_r by lia. f_equal. lia. }
    assert (H0 : 0 <= KL') by (apply Z.div_pos; lia).
    assert (H1 : KU' < 2 ^ 53).
    { unfold KU'. apply Z.div_lt_upper_bound; [lia|]. change (2 ^ 53) with 9007199254740992.
      change (2 ^ 52) with 4503599627370496 in HKU. lia. }
    apply binary_round_aux_between; try lia; try (intros _; reflexivity).
    rewrite Hpow, Pos2Z.inj_mul.
    change (Z.pos 7036874417766400) with (100 * 2 ^ 46).
    change (2 ^ 52) with (64 * 2 ^ 46). change (2 ^ 46) with 70368744177664.
    nia.
Qed.

(** [Math.round] is monotone: between the roundings of the bounds. *)
Lemma Math_round_between (KL KU : Z) (x : Number) :
  0 <= KL <= KU -> between 46 KL KU x ->
  (2 * KL + 2 ^ 46) / 2 ^ 47 <= Math_round x <= (2 * KU + 2 ^ 46) / 2 ^ 47.
Proof.
  intros HK.
  destruct x as [s|s| |[|] m e]; cbn [between Math_round]; try contradiction.
  - intros H. assert (KL = 0) as -> by lia. split; [reflexivity|].
    apply Z.div_pos; lia.
  - intros [He [HmL HmU]].
    destruct (Z.leb_spec 0 e); [lia|].
    set (P := 2 ^ (- (e + 46))) in *.
    assert (HP : 0 < P) by (apply Z.pow_pos_nonneg; lia).
    assert (Hpow : 2 ^ (- e) = 2 ^ 46 * P).
    { unfold P. rewrite <- Z.pow_add_r by lia. f_equal. lia. }
    assert (Hpow1 : 2 ^ (- e + 1) = 2 ^ 47 * P).
    { unfold P. rewrite <- Z.pow_add_r by lia. f_equal. lia. }
    rewrite Hpow, Hpow1.
    rewrite <- (Z.div_mul_cancel_r (2 * KL + 2 ^ 46) (2 ^ 47) P) by lia.
    rewrite <- (Z.div_mul_cancel_r (2 * KU + 2 ^ 46) (2 ^ 47) P) by lia.
    split; apply Z.div_le_mono; nia.
Qed.

(** The arithmetic of the two roundings: below 2^40 lessons, the bounds
    carried through the quotient and the product round to the exact
    percentage, or to one less when the exact value is a half. *)
Lemma rounded_bounds (c t : Z) :
  0 < c <= t -> t <= 2 ^ 40 ->
  let KL := 100 * (c * 2 ^ 52 / t) / 64 in
  let KU := (100 * ((c * 2 ^ 52 + t - 1) / t) + 63) / 64 in
  let R := spec_round_percent c t in
  (2 * KU + 2 ^ 46) / 2 ^ 47 <= R /\
  R - 1 <= (2 * KL + 2 ^ 46) / 2 ^ 47 /\
  ((200 * c + t) mod (2 * t) <> 0 -> R <= (2 * KL + 2 ^ 46) / 2 ^ 47).
Proof.
  intros Hc Ht KL KU R.
  pose proof (floor_bounds (c * 2 ^ 52) t ltac:(lia)) as HqL.
  pose proof (ceil_bounds (c * 2 ^ 52) t ltac:(lia)) as HqU.
  set (qL := c * 2 ^ 52 / t) in *. set (qU := (c * 2 ^ 52 + t - 1) / t) in *.
  pose proof (floor_bounds (100 * qL) 64 ltac:(lia)) as HpL.
  pose proof (ceil_bounds (100 * qU) 64 ltac:(lia)) as HpU.
  replace (100 * qU + 64 - 1) with (100 * qU + 63) in HpU by lia.
  fold KL in HpL. fold KU in HpU.
  pose proof (floor_bounds (2 * KL + 2 ^ 46) (2 ^ 47) ltac:(lia)) as HrL.
  pose proof (floor_bounds (2 * KU + 2 ^ 46) (2 ^ 47) ltac:(lia)) as HrU.
  set (RL := (2 * KL + 2 ^ 46) / 2 ^ 47) in *.
  set (RU := (2 * KU + 2 ^ 46) / 2 ^ 47) in *.
  pose proof (floor_bounds (200 * c + t) (2 * t) ltac:(lia)) as HR.
  pose proof (Z.div_mod (200 * c + t) (2 * t) ltac:(lia)) as Hdm.
  fold (spec_round_percent c t) in HR, Hdm. fold R in HR, Hdm.
  pose proof (Z.mod_pos_bound (200 * c + t) (2 * t) ltac:(lia)) as Hmod.
  change (2 ^ 52) with 4503599627370496 in *.
  change (2 ^ 47) with 140737488355328 in *.
  change (2 ^ 46) with 70368744177664 in *.
  change (2 ^ 40) with 1099511627776 in *.
  assert (HqL0 : 0 <= qL) by (apply Z.div_pos; lia).
  split; [|split].
  - destruct (Z_le_gt_dec RU R) as [|Hgt]; [assumption|exfalso].
    assert (H1 : (R + 1) * 140737488355328 <= 2 * KU + 70368744177664) by nia.
    assert (H2 : 100 * qU * t < 100 * (c * 4503599627370496) + 100 * t) by nia.
    assert (H3 : 64 * KU * t < (100 * qU + 64) * t) by nia.
    nia.
  - destruct (Z_le_gt_dec (R - 1) RL) as [|Hgt]; [assumption|exfalso].
    assert (H1 : 2 * KL + 70368744177664 < (R - 1) * 140737488355328) by nia.
    assert (H2 : 100 * (c * 4503599627370496) < 100 * (qL + 1) * t) by nia.
    assert (H3 : 100 * (qL + 1) * t <= (64 * KL + 64 + 99) * t) by nia.
    nia.
  - intros Hne.
    destruct (Z_le_gt_dec R RL) as [|Hgt]; [assumption|exfalso].
    assert (H1 : 2 * KL + 70368744177664 < R * 140737488355328) by nia.
    assert (H2 : 100 * (c * 4503599627370496) < 100 * (qL + 1) * t) by nia.
    assert (H3 : 100 * (qL + 1) * t <= (64 * KL + 64 + 99) * t) by nia.
    assert (H4 : 2 * t * R + 1 <= 200 * c + t) by lia.
    nia.
Qed.

(** The percentage between the roundings of the carried bounds. *)
Lemma percentageOf_bounds (c t : Z) :
  0 < c <= t -> t < 2 ^ 53 ->
  let KL := 100 * (c * 2 ^ 52 / t) / 64 in
  let KU := (100 * ((c * 2 ^ 52 + t - 1) / t) + 63) / 64 in
  0 <= KL <= KU /\ KU <= 100 * 2 ^ 46 /\
  (2 * KL + 2 ^ 46) / 2 ^ 47 <= percentageOf c t <= (2 * KU + 2 ^ 46) / 2 ^ 47.
Proof.
  intros Hc Ht KL KU.
  pose proof (floor_bounds (c * 2 ^ 52) t ltac:(lia)) as HqL.
  pose proof (ceil_bounds (c * 2 ^ 52) t ltac:(lia)) as HqU.
  set (qL := c * 2 ^ 52 / t) in *. set (qU := (c * 2 ^ 52 + t - 1) / t) in *.
  assert (HqL0 : 0 <= qL) by (apply Z.div_pos; lia).
  assert (HqLU : qL <= qU) by nia.
  assert (HqU1 : qU <= 2 ^ 52) by nia.
  assert (HK : 0 <= KL <= KU).
  { split; [apply Z.div_pos; lia|]. apply Z.div_le_mono; lia. }
  assert (HKU : KU <= 100 * 2 ^ 46).
  { unfold KU. change (100 * 2 ^ 46) with ((100 * 2 ^ 52 + 63) / 64).
    apply Z.div_le_mono; lia. }
  split; [exact HK|]. split; [exact HKU|].
  unfold percentageOf. destruct (Z.ltb_spec 0 t); [|lia].
  apply Math_round_between; [exact HK|].
  apply Number_mul_100_between; [exact HqL0 | exact HqU1 |].
  apply Number_div_between; [exact Hc | exact Ht].
Qed.

(** The percentage of a completion count that does not exceed the number of
    lessons is between 0 and 100. *)
Lemma percentageOf_range (completedCount totalLessons : Z) :
  0 <= completedCount <= totalLessons -> totalLessons < 2 ^ 53 ->
  0 <= percentageOf completedCount totalLessons <= 100.
Proof.
  intros Hc Ht.
  destruct (Z.eq_dec completedCount 0) as [->|Hne].
  - unfold percentageOf. destruct (Z.ltb_spec 0 totalLessons); [|lia].
    destruct (toNumber_exact totalLessons) as (m & -> & _); [lia|].
    rewrite toNumber_100. cbn. lia.
  - destruct (percentageOf_bounds completedCount totalLessons ltac:(lia) Ht)
      as (HK & HKU & HL & HU).
    split.
    + eapply Z.le_trans; [|exact HL]. apply Z.div_pos; lia.
    + eapply Z.le_trans; [exact HU|].
      assert (E : (2 * (100 * 2 ^ 46) + 2 ^ 46) / 2 ^ 47 = 100) by reflexivity.
      rewrite <- E at 2. apply Z.div_le_mono; lia.
Qed.

(** Below 2^40 lessons the percentage is the exact quotient rounded half
    up, or one less than that when the exact quotient is a half. *)
Lemma percentageOf_rounds (completedCount totalLessons : Z) :
  0 <= completedCount <= totalLessons -> 0 < totalLessons <= 2 ^ 40 ->
  spec_round_percent completedCount totalLessons - 1
    <= percentageOf completedCount totalLessons
    <= spec_round_percent completedCount totalLessons /\
  (~ spec_isHalf completedCount totalLessons ->
   percentageOf completedCount totalLessons =
   spec_round_percent completedCount totalLessons).
Proof.
  intros Hc Ht.
  destruct (Z.eq_dec completedCount 0) as [->|Hne].
  - assert (E : percentageOf 0 totalLessons = 0).
    { unfold percentageOf. destruct (Z.ltb_spec 0 totalLessons); [|lia].
      destruct (toNumber_exact totalLessons) as (m & -> & _);
        [change (2 ^ 40) with 1099511627776 in Ht;
         change (2 ^ 53) with 9007199254740992; lia|].
      rewrite toNumber_100. reflexivity. }
    assert (E' : spec_round_percent 0 totalLessons = 0).
    { unfold spec_round_percent. apply Z.div_small. lia. }
    rewrite E, E'. split; [lia | reflexivity].
  - assert (Hlt : totalLessons < 2 ^ 53)
      by (change (2 ^ 40) with 1099511627776 in Ht;
          change (2 ^ 53) with 9007199254740992; lia).
    destruct (percentageOf_bounds completedCount totalLessons ltac:(lia) Hlt)
      as (_ & _ & HL & HU).
    destruct (rounded_bounds completedCount totalLessons ltac:(lia) ltac:(lia))
      as (HRU & HRL & Hexact).
    split; [lia|]. intros Hhalf. specialize (Hexact Hhalf). lia.
Qed.

(** ** The completion percentage *)

Lemma assoc_get_set {V : Type} (m : list (string * V)) (key : string) (v : V) :
  assoc_get (assoc_set m key v) key = Some v.
Proof.
  induction m as [|[k w] r IH]; simpl.
  - now rewrite String.eqb_refl.
  - destruct (String.eqb k key) eqn:E; simpl; rewrite E; [reflexivity | exact IH].
Qed.

(** Claim C4 fails as stated.  The store still holds three completed
    lessons when the folder, now with two lessons, is opened again: the bar
    shows 150 percent.  And 29 of 200 gives 14, where rounding 14.5 gives
    15: the quotient 0.145 times 100 is just below 14.5 in binary64. *)
Lemma percentage_exceeds_100 :
  updateProgressBar stale_session = (150, 3, 2) /\
  ~ (0 <= fst (fst (updateProgressBar stale_session)) <= 100) /\
  percentageOf 29 200 = 14 /\ spec_round_percent 29 200 = 15.
Proof.
  assert (H : updateProgressBar stale_session = (150, 3, 2)) by (vm_compute; reflexivity).
  split; [exact H|]. split; [rewrite H; cbn [fst]; lia|].
  split; vm_compute; reflexivity.
Qed.

(** Claim C4, amended.  When the completion set has no more entries than
    the course has lessons, and these are at most 2^40, the percentage shown
    by [updateProgressBar] and saved by [saveCourseProgress] is an integer
    between 0 and 100; it is 0 for a course without lessons, whatever the
    completion set; otherwise it is [100 * completedCount / totalLessons]
    rounded to the nearest integer, a half going up, except that it can be
    one less when that quotient is exactly a half; 1 of 3 gives 33 and 2 of
    3 gives 67. *)
Theorem percentage_rounds_within_0_and_100 (app : CourseViewer) (id : string) :
  let totalLessons := totalLessonsOf (courseStructure app) in
  let completedCount := Z.of_nat (List.length (completedLessons app)) in
  completedCount <= totalLessons ->
  totalLessons <= 2 ^ 40 ->
  updateProgressBar app =
    (percentageOf completedCount totalLessons, completedCount, totalLessons) /\
  option_map progress_percentage
    (assoc_get (course_progress (localStorage (saveCourseProgress id app))) id) =
    Some (percentageOf completedCount totalLessons) /\
  0 <= percentageOf completedCount totalLessons <= 100 /\
  (forall count, percentageOf count 0 = 0) /\
  (0 < totalLessons ->
   spec_round_percent completedCount totalLessons - 1
     <= percentageOf completedCount totalLessons
     <= spec_round_percent completedCount totalLessons /\
   (~ spec_isHalf completedCount totalLessons ->
    percentageOf completedCount totalLessons =
    spec_round_percent completedCount totalLessons)) /\
  percentageOf 1 3 = 33 /\ percentageOf 2 3 = 67.
Proof.
  intros totalLessons completedCount Hc Ht.
  assert (Hlt : totalLessons < 2 ^ 53)
    by (change (2 ^ 40) with 1099511627776 in Ht;
        change (2 ^ 53) with 9007199254740992; lia).
  split; [reflexivity|].
  split; [unfold saveCourseProgress; cbn [localStorage course_progress];
          rewrite assoc_get_set; reflexivity|].
  split; [apply percentageOf_range; [unfold completedCount; lia | exact Hlt]|].
  split; [reflexivity|].
  split; [intros Hpos; apply percentageOf_rounds; [unfold completedCount; lia | lia]|].
  split; vm_compute; reflexivity.
Qed.

Lemma percentage_rounds_within_0_and_100_witness :
  let totalLessons := totalLessonsOf (courseStructure returning_session) in
  let completedCount := Z.of_nat (List.length (completedLessons returning_session)) in
  completedCount <= totalLessons /\
  totalLessons <= 2 ^ 40 /\
  updateProgressBar returning_session = (50, 1, 2) /\
  0 <= percentageOf completedCount totalLessons <= 100.
Proof.
  assert (H1 : Z.of_nat (List.length (completedLessons returning_session))
               <= totalLessonsOf (courseStructure returning_session))
    by (vm_compute; discriminate).
  assert (H2 : totalLessonsOf (courseStructure returning_session) <= 2 ^ 40)
    by (vm_compute; discriminate).
  split; [exact H1|]. split; [exact H2|].
  split; [vm_compute; reflexivity|].
  exact (proj1 (proj2 (proj2
           (percentage_rounds_within_0_and_100 returning_session "my_course" H1 H2)))).
Defined.

(* ================================================================= *)
(** * Further facts about the builder and the classifier *)

(** ** The lesson groups of a section *)

Lemma Map_push_keys (m : LessonMap) (k : string) (f : LessonFile) :
  map fst (Map_push m k f) = map fst m.
Proof.
  induction m as [|[k' g] r IH]; simpl; [reflexivity|].
  destruct (String.eqb k' k); simpl; [reflexivity | now rewrite IH].
Qed.

Lemma Map_push_inv (m : LessonMap) (k : string) (f : LessonFile) (k' : string) (g' : Lesson) :
  In (k', g') (Map_push m k f) ->
  exists g, In (k', g) m /\
            (g' = g \/ (k' = k /\ g' = mkLesson (number g) (lesson_name g) (files g ++ [f]))).
Proof.
  induction m as [|[k0 g0] r IH]; simpl; [contradiction|].
  destruct (String.eqb_spec k0 k) as [->|Hne]; simpl.
  - intros [H|H].
    + injection H as <- <-. exists g0. split; [now left|]. right. auto.
    + exists g'. split; [now right | now left].
  - intros [H|H].
    + injection H as <- <-. exists g0. split; [now left | now left].
    + destruct (IH H) as (g & Hin & Hg). exists g. split; [now right | exact Hg].
Qed.

Lemma Map_push_keeps (m : LessonMap) (k : string) (f : LessonFile) (k' : string) (g : Lesson) :
  In (k', g) m ->
  exists g', In (k', g') (Map_push m k f) /\ number g' = number g /\
             incl (files g) (files g').
Proof.
  induction m as [|[k0 g0] r IH]; simpl; [contradiction|].
  intros [H|H].
  - injection H as -> ->. destruct (String.eqb k' k).
    + eexists. split; [left; reflexivity|]. split; [reflexivity|].
      cbn [files]. apply incl_appl, incl_refl.
    + exists g. split; [now left|]. split; [reflexivity | apply incl_refl].
  - destruct (String.eqb k0 k).
    + exists g. split; [now right|]. split; [reflexivity | apply incl_refl].
    + destruct (IH H) as (g' & Hin & Hn & Hi). exists g'. split; [now right | auto].
Qed.

Lemma Map_push_adds (m : LessonMap) (k : string) (f : LessonFile) :
  Map_has m k = true ->
  exists g', In (k, g') (Map_push m k f) /\ In f (files g').
Proof.
  induction m as [|[k0 g0] r IH]; simpl; [discriminate|].
  destruct (String.eqb_spec k0 k) as [->|Hne]; simpl.
  - intros _. eexists. split; [left; reflexivity|]. cbn [files].
    apply in_or_app. right. now left.
  - intros H. destruct (IH H) as (g' & Hin & Hf). exists g'. split; [now right | exact Hf].
Qed.

Lemma Map_has_keys (m : LessonMap) (k : string) :
  Map_has m k = true <-> In k (map fst m).
Proof.
  induction m as [|[k0 g0] r IH]; simpl; [split; [discriminate | contradiction]|].
  rewrite orb_true_iff, IH, String.eqb_eq. reflexivity.
Qed.

Lemma is_subtitle_true (t : FileType) : is_subtitle t = true <-> t = subtitle.
Proof. destruct t; simpl; split; congruence. Qed.

(** What one file does to the map: nothing, or it joins the group of its
    ordinal, a new last group when the ordinal is new. *)
Lemma groupsAfter_cases (m : LessonMap) (h : FileSystemHandle) :
  let k := extractLessonNumber (name h) in
  (isExtra h = true /\ groupsAfter m h = m) \/
  (isExtra h = false /\ Map_has m k = true /\
   groupsAfter m h = Map_push m k (lessonFileOf h)) \/
  (isExtra h = false /\ Map_has m k = false /\
   groupsAfter m h =
   m ++ [(k, mkLesson k (cleanLessonName (name h)) [lessonFileOf h])]).
Proof.
  intros k. unfold groupsAfter, groupStep, isExtra. cbn [lessonGroups].
  destruct (is_video (getFileType (name h)) || is_subtitle (getFileType (name h))) eqn:E;
    cbn [negb lessonGroups]; [|now left].
  right. fold k. destruct (Map_has m k) eqn:Hk; cbn [negb].
  - left. auto.
  - right. split; [reflexivity|]. split; [reflexivity|].
    rewrite (Map_set_absent _ _ _ Hk).
    clear E. induction m as [|[k0 g0] r IH]; simpl in *.
    + now rewrite String.eqb_refl.
    + apply orb_false_iff in Hk as [Hk0 Hk]. rewrite Hk0. simpl. now rewrite (IH Hk).
Qed.

Lemma lessonFileOf_media (l : list FileSystemHandle) (h : FileSystemHandle) :
  In h l -> isExtra h = false ->
  In (handle (lessonFileOf h)) l /\
  file_name (lessonFileOf h) = name (handle (lessonFileOf h)) /\
  type (lessonFileOf h) = getFileType (file_name (lessonFileOf h)) /\
  (type (lessonFileOf h) = video \/ type (lessonFileOf h) = subtitle) /\
  extractLessonNumber (file_name (lessonFileOf h)) = extractLessonNumber (name h).
Proof.
  intros Hin Hx. cbn [lessonFileOf handle file_name type].
  repeat split; try assumption.
  unfold isExtra in Hx. apply negb_false_iff, orb_true_iff in Hx.
  destruct Hx as [Hx|Hx]; [left; now apply is_video_true | right; now apply is_subtitle_true].
Qed.

Lemma groupsAfter_GroupsOf (l : list FileSystemHandle) (m : LessonMap) (h : FileSystemHandle) :
  In h l -> GroupsOf l m -> GroupsOf l (groupsAfter m h).
Proof.
  intros Hin [Hnd Hg].
  destruct (groupsAfter_cases m h) as [[_ ->] | [(Hx & Hk & ->) | (Hx & Hk & ->)]].
  - split; assumption.
  - split; [now rewrite Map_push_keys|].
    intros k' g' H'. destruct (Map_push_inv _ _ _ _ _ H') as (g & Hgin & [->|[-> ->]]).
    + now apply Hg.
    + destruct (Hg _ _ Hgin) as (Hn & (f0 & rest & Hf0 & Hname) & Hfiles).
      split; [exact Hn|]. split.
      * exists f0, (rest ++ [lessonFileOf h]). cbn [files lesson_name].
        rewrite Hf0. split; [reflexivity | exact Hname].
      * intros f Hf. cbn [files] in Hf. apply in_app_or in Hf as [Hf|[<-|[]]].
        -- now apply Hfiles.
        -- now apply lessonFileOf_media.
  - split.
    + rewrite map_app. cbn [map fst].
      apply NoDup_app; [exact Hnd | repeat constructor; intros [] |].
      intros x Hx1 [<-|[]]. apply Map_has_keys in Hx1. congruence.
    + intros k' g' H'. apply in_app_or in H' as [H'|[H'|[]]]; [now apply Hg|].
      injection H' as <- <-. split; [reflexivity|]. split.
      * exists (lessonFileOf h), []. split; reflexivity.
      * intros f [<-|[]]. now apply lessonFileOf_media.
Qed.

Lemma groupMap_GroupsOf_from (l files_ : list FileSystemHandle) : forall m,
  incl files_ l -> GroupsOf l m -> GroupsOf l (fold_left groupsAfter files_ m).
Proof.
  induction files_ as [|h r IH]; intros m Hincl Hm; cbn [fold_left]; [exact Hm|].
  apply IH.
  - intros x Hx. apply Hincl. now right.
  - apply groupsAfter_GroupsOf; [apply Hincl; now left | exact Hm].
Qed.

Lemma groupMap_GroupsOf (l : list FileSystemHandle) : GroupsOf l (groupMapOf l).
Proof.
  apply groupMap_GroupsOf_from; [apply incl_refl|].
  split; [constructor | intros k g []].
Qed.

Lemma in_groupsOf (l : list FileSystemHandle) (g : Lesson) :
  In g (groupsOf l) <-> exists k, In (k, g) (groupMapOf l).
Proof.
  unfold groupsOf, Map_values. rewrite in_map_iff. split.
  - intros ([k g'] & <- & H). now exists k.
  - intros (k & H). now exists (k, g).
Qed.

Lemma lessons_of_section (cmp : string -> string -> Z) (d : FileSystemHandle) (g : Lesson) :
  In g (lessons (sectionOf cmp d)) <->
  (exists k, In (k, g) (groupMapOf (lessonEntriesOf cmp d))) /\ has_video g = true.
Proof.
  unfold sectionOf, parseSection. cbn [fst lessons].
  now rewrite videoLessons_in, in_groupsOf.
Qed.

Lemma lessonEntries_in (cmp : string -> string -> Z) (d h : FileSystemHandle) :
  In h (lessonEntriesOf cmp d) <-> In h (values d) /\ is_file h = true.
Proof. unfold lessonEntriesOf. now rewrite sort_in, filter_In. Qed.

(** Dropping groups keeps the numbers of the others distinct. *)
Lemma distinct_numbers_kept (keep : Lesson -> bool) (groups : list Lesson) :
  NoDup (map number groups) -> NoDup (map number (filter keep groups)).
Proof.
  induction groups as [|g r IH]; simpl; [auto|].
  intros H. inversion H as [|? ? Hg Hr]; subst.
  destruct (keep g); simpl; [|auto]. constructor; [|auto].
  intros Hin. apply Hg. apply in_map_iff in Hin as (y & Hy & Hyin).
  apply filter_In in Hyin as [Hyin _]. apply in_map_iff. eauto.
Qed.

(** Extra X1.  The lessons of a section have pairwise different numbers:
    the grouper keeps one group for each ordinal, whatever the files of the
    directory are. *)
Theorem lesson_numbers_distinct (cmp : string -> string -> Z) (d : FileSystemHandle) :
  NoDup (map number (lessons (sectionOf cmp d))).
Proof.
  unfold sectionOf, parseSection. cbn [fst lessons]. unfold videoLessonsOf.
  rewrite groupLessons_eq. cbn [lessonGroups].
  eapply Permutation_NoDup; [apply Permutation_map; symmetry; apply sort_perm|].
  apply distinct_numbers_kept.
  destruct (groupMap_GroupsOf (lessonEntriesOf cmp d)) as [Hnd Hg].
  assert (E : map number (Map_values (groupMapOf (lessonEntriesOf cmp d)))
              = map fst (groupMapOf (lessonEntriesOf cmp d))).
  { unfold Map_values. rewrite map_map. apply map_ext_in.
    intros [k g] Hin. cbn [snd fst]. now destruct (Hg k g Hin). }
  now rewrite E.
Qed.

Lemma section_lessons_facts (cmp : string -> string -> Z) (d : FileSystemHandle) :
  Forall
    (fun lesson =>
       (exists first rest,
           files lesson = first :: rest /\
           lesson_name lesson = cleanLessonName (file_name first)) /\
       videoFileOf lesson <> None /\
       Forall
         (fun f =>
            In (handle f) (values d) /\ is_file (handle f) = true /\
            file_name f = name (handle f) /\
            type f = getFileType (file_name f) /\
            (type f = video \/ type f = subtitle) /\
            extractLessonNumber (file_name f) = number lesson)
         (files lesson))
    (lessons (sectionOf cmp d)).
Proof.
  apply Forall_forall. intros lesson Hl.
  apply lessons_of_section in Hl as [(k & Hk) Hv].
  destruct (groupMap_GroupsOf (lessonEntriesOf cmp d)) as [_ Hg].
  destruct (Hg k lesson Hk) as (Hn & Hfirst & Hfiles).
  split; [exact Hfirst|]. split.
  - unfold videoFileOf, has_video in *. apply existsb_exists in Hv as (f & Hf & Hfv).
    intros Hnone. pose proof (find_none _ _ Hnone f Hf) as H. cbn in H. congruence.
  - apply Forall_forall. intros f Hf.
    destruct (Hfiles f Hf) as (Hh & Hname & Htype & Hrole & Hord).
    apply lessonEntries_in in Hh as [Hh1 Hh2]. rewrite Hn. auto 10.
Qed.

(** Extra X2.  Every file of a lesson of the section built from a
    directory [d] is a file entry of [d], recorded under its own name and
    with the role [getFileType] gives that name; the role is video or
    subtitle, and the ordinal of the name is the number of the lesson. *)
Theorem lesson_files_belong_to_section (cmp : string -> string -> Z) (d : FileSystemHandle)
        (lesson : Lesson) (f : LessonFile) :
  In lesson (lessons (sectionOf cmp d)) -> In f (files lesson) ->
  In (handle f) (values d) /\ is_file (handle f) = true /\
  file_name f = name (handle f) /\
  type f = getFileType (file_name f) /\
  (type f = video \/ type f = subtitle) /\
  extractLessonNumber (file_name f) = number lesson.
Proof.
  intros Hl Hf. pose proof (section_lessons_facts cmp d) as H.
  rewrite Forall_forall in H. destruct (H lesson Hl) as (_ & _ & Hfiles).
  rewrite Forall_forall in Hfiles. now apply Hfiles.
Qed.

Lemma groupsAfter_keeps (m : LessonMap) (x h : FileSystemHandle) :
  Holds m h -> Holds (groupsAfter m x) h.
Proof.
  intros (g & Hin & Hf).
  destruct (groupsAfter_cases m x) as [[_ ->] | [(_ & _ & ->) | (_ & _ & ->)]].
  - now exists g.
  - destruct (Map_push_keeps m (extractLessonNumber (name x)) (lessonFileOf x) _ _ Hin)
      as (g' & Hin' & _ & Hincl).
    exists g'. split; [exact Hin' | now apply Hincl].
  - exists g. split; [apply in_or_app; now left | exact Hf].
Qed.

Lemma groupsAfter_holds (m : LessonMap) (h : FileSystemHandle) :
  isExtra h = false -> Holds (groupsAfter m h) h.
Proof.
  intros Hx.
  destruct (groupsAfter_cases m h) as [[Hx' _] | [(_ & Hk & ->) | (_ & _ & ->)]].
  - congruence.
  - destruct (Map_push_adds m _ (lessonFileOf h) Hk) as (g' & Hin & Hf). now exists g'.
  - eexists. split; [apply in_or_app; right; left; reflexivity|]. now left.
Qed.

Lemma groupMap_holds_from (l : list FileSystemHandle) (h : FileSystemHandle) : forall m,
  Holds m h \/ (In h l /\ isExtra h = false) -> Holds (fold_left groupsAfter l m) h.
Proof.
  induction l as [|x r IH]; intros m H; cbn [fold_left].
  - destruct H as [H|[[] _]]. exact H.
  - apply IH. destruct H as [H|[[->|Hin] Hx]].
    + left. now apply groupsAfter_keeps.
    + left. now apply groupsAfter_holds.
    + right. auto.
Qed.

Lemma groupMap_holds (l : list FileSystemHandle) (h : FileSystemHandle) :
  In h l -> isExtra h = false -> Holds (groupMapOf l) h.
Proof. intros Hin Hx. apply groupMap_holds_from. right. auto. Qed.

Lemma NoDup_keys_unique {V : Type} (m : list (string * V)) (k : string) (v w : V) :
  NoDup (map fst m) -> In (k, v) m -> In (k, w) m -> v = w.
Proof.
  induction m as [|[k0 v0] r IH]; simpl; [contradiction|].
  intros Hnd. inversion Hnd as [|? ? Hk Hr]; subst.
  intros [Hv|Hv] [Hw|Hw].
  - congruence.
  - injection Hv as -> ->. exfalso. apply Hk. apply in_map_iff. now exists (k, w).
  - injection Hw as -> ->. exfalso. apply Hk. apply in_map_iff. now exists (k, v).
  - now apply IH.
Qed.

Lemma has_video_file (g : Lesson) :
  has_video g = true <-> exists f, In f (files g) /\ type f = video.
Proof.
  unfold has_video. rewrite existsb_exists. split; intros (f & Hf & Hv); exists f;
    (split; [exact Hf|]); now apply is_video_true.
Qed.

Lemma isVideoFile_media (h : FileSystemHandle) :
  isVideoFile h = true -> is_file h = true /\ isExtra h = false.
Proof.
  unfold isVideoFile, isExtra. intros H. apply andb_true_iff in H as [H1 H2].
  now rewrite H1, H2.
Qed.

(** Extra X3.  A video or subtitle file of a section directory is shown,
    in the lesson of its ordinal, if and only if some video file of the
    directory has the same ordinal: every video is shown, and a subtitle
    exactly when a video shares its ordinal. *)
Theorem media_file_shown_iff_video_shares_number
  (cmp : string -> string -> Z) (d h : FileSystemHandle) :
  In h (values d) -> is_file h = true -> isExtra h = false ->
  (exists lesson, In lesson (lessons (sectionOf cmp d)) /\
                  number lesson = extractLessonNumber (name h) /\
                  In (lessonFileOf h) (files lesson)) <->
  (exists v, In v (values d) /\ isVideoFile v = true /\
             extractLessonNumber (name v) = extractLessonNumber (name h)).
Proof.
  intros Hin Hfile Hx.
  destruct (groupMap_GroupsOf (lessonEntriesOf cmp d)) as [Hnd Hg].
  split.
  - intros (lesson & Hl & Hnum & _).
    apply lessons_of_section in Hl as [(k & Hk) Hv].
    apply has_video_file in Hv as (f & Hf & Hfv).
    destruct (Hg k lesson Hk) as (Hn & _ & Hfiles).
    destruct (Hfiles f Hf) as (Hh & Hname & Htype & _ & Hord).
    apply lessonEntries_in in Hh as [Hh1 Hh2].
    exists (handle f). split; [exact Hh1|]. split.
    + unfold isVideoFile. rewrite Hh2, <- Hname, <- Htype, Hfv. reflexivity.
    + rewrite <- Hname, Hord, <- Hn. exact Hnum.
  - intros (v & Hv & Hvv & Hord).
    destruct (isVideoFile_media v Hvv) as [Hvfile Hvx].
    assert (Hvl : In v (lessonEntriesOf cmp d)) by (apply lessonEntries_in; auto).
    assert (Hhl : In h (lessonEntriesOf cmp d)) by (apply lessonEntries_in; auto).
    destruct (groupMap_holds _ v Hvl Hvx) as (g & Hgin & Hgf).
    destruct (groupMap_holds _ h Hhl Hx) as (g' & Hgin' & Hgf').
    rewrite Hord in Hgin.
    assert (g = g') by (eapply NoDup_keys_unique; eauto). subst g'.
    exists g. split; [|split; [now destruct (Hg _ _ Hgin) | exact Hgf']].
    apply lessons_of_section. split; [eauto|].
    apply has_video_file. exists (lessonFileOf v). split; [exact Hgf|].
    cbn [lessonFileOf type]. apply is_video_true.
    unfold isVideoFile in Hvv. now apply andb_true_iff in Hvv as [_ Hvv].
Qed.

Lemma hasLessons_hasVideoFile (cmp : string -> string -> Z) (d : FileSystemHandle) :
  hasLessons (sectionOf cmp d) = hasVideoFile d.
Proof.
  apply eq_true_iff_eq. split.
  - intros H. unfold hasLessons in H. apply Z.ltb_lt in H.
    destruct (lessons (sectionOf cmp d)) as [|lesson rest] eqn:E; [simpl in H; lia|].
    pose proof (section_lessons_facts cmp d) as Hall. rewrite E in Hall.
    inversion Hall as [|? ? (_ & Hvid & Hfiles) _]; subst.
    unfold videoFileOf in Hvid.
    destruct (find (fun f => is_video (type f)) (files lesson)) as [f|] eqn:F; [|congruence].
    apply find_some in F as [Hf Hfv].
    rewrite Forall_forall in Hfiles.
    destruct (Hfiles f Hf) as (Hh & Hfile & Hname & Htype & _).
    unfold hasVideoFile. apply existsb_exists. exists (handle f). split; [exact Hh|].
    unfold isVideoFile. now rewrite Hfile, <- Hname, <- Htype, Hfv.
  - unfold hasVideoFile. intros H. apply existsb_exists in H as (f & Hf & Hv).
    now apply (video_file_gives_lesson cmp d f).
Qed.

Lemma filter_map_comm {A B : Type} (f : A -> B) (p : B -> bool) (l : list A) :
  filter p (map f l) = map f (filter (fun x => p (f x)) l).
Proof.
  induction l as [|x r IH]; simpl; [reflexivity|].
  destruct (p (f x)); simpl; now rewrite IH.
Qed.

Lemma retainedSections_eq (cmp : string -> string -> Z) (root : FileSystemHandle) :
  retainedSections cmp root =
  map (sectionOf cmp)
    (filter hasVideoFile (sort (byName cmp) (filter is_directory (values root)))).
Proof.
  unfold retainedSections. rewrite filter_map_comm. f_equal.
  apply filter_ext. intros d. apply hasLessons_hasVideoFile.
Qed.

Lemma videoCount_zero (l : list FileSystemHandle) :
  videoCount l = 0 <-> filter hasVideoFile l = [].
Proof.
  unfold videoCount. induction l as [|d r IH]; simpl; [tauto|].
  rewrite length_app, Nat2Z.inj_add. unfold hasVideoFile at 1.
  destruct (filter isVideoFile (values d)) as [|f fs] eqn:E.
  - assert (H : existsb isVideoFile (values d) = false).
    { destruct (existsb isVideoFile (values d)) eqn:X; [|reflexivity].
      apply existsb_exists in X as (f & Hf & Hv).
      assert (In f (filter isVideoFile (values d))) by (apply filter_In; auto).
      rewrite E in H. contradiction. }
    rewrite H. simpl. exact IH.
  - assert (H : existsb isVideoFile (values d) = true).
    { apply existsb_exists. exists f.
      assert (Hin : In f (filter isVideoFile (values d))) by (rewrite E; now left).
      now apply filter_In in Hin. }
    rewrite H. cbn [List.length]. split; [intros; exfalso; lia | discriminate].
Qed.

Lemma parseCourseStructure_closed_form (cmp : string -> string -> Z) (root : FileSystemHandle) :
  parseCourseStructure cmp root =
  match filter is_directory (values root) with
  | [] => Throw no_sections_message
  | _ :: _ =>
      match filter hasVideoFile
              (sort (byName cmp) (filter is_directory (values root))) with
      | [] => Throw no_videos_message
      | kept => Return (map (sectionOf cmp) kept)
      end
  end.
Proof.
  rewrite parseCourseStructure_eq, retainedSections_eq.
  destruct (filter is_directory (values root)) as [|d ds] eqn:E; [reflexivity|].
  assert (Hp : Permutation (sort (byName cmp) (d :: ds)) (d :: ds)) by apply sort_perm.
  destruct (Z.eqb_spec (videoCount (d :: ds)) 0) as [Hz|Hnz].
  - apply videoCount_zero in Hz.
    assert (Hs : filter hasVideoFile (sort (byName cmp) (d :: ds)) = []).
    { apply Permutation_nil. rewrite <- Hz. symmetry. now apply Permutation_filter. }
    now rewrite Hs.
  - destruct (filter hasVideoFile (sort (byName cmp) (d :: ds))) as [|k ks] eqn:F;
      [|reflexivity].
    exfalso. apply Hnz. apply videoCount_zero.
    apply Permutation_nil. rewrite <- F. now apply Permutation_filter.
Qed.

Lemma StronglySorted_filter {A : Type} (R : A -> A -> Prop) (p : A -> bool) (l : list A) :
  StronglySorted R l -> StronglySorted R (filter p l).
Proof.
  induction 1 as [|x r Hr IH Hx]; simpl; [constructor|].
  destruct (p x); [|exact IH]. constructor; [exact IH|].
  apply Forall_forall. intros y Hy. apply filter_In in Hy as [Hy _].
  rewrite Forall_forall in Hx. now apply Hx.
Qed.

Lemma StronglySorted_map {A B : Type} (R : A -> A -> Prop) (S : B -> B -> Prop)
      (f : A -> B) (l : list A) :
  (forall a b, R a b -> S (f a) (f b)) ->
  StronglySorted R l -> StronglySorted S (map f l).
Proof.
  intros HRS. induction 1 as [|x r Hr IH Hx]; simpl; constructor; [exact IH|].
  apply Forall_forall. intros y Hy. apply in_map_iff in Hy as (a & <- & Ha).
  rewrite Forall_forall in Hx. apply HRS. now apply Hx.
Qed.

(** Extra X5.  With a consistent comparator the builder returns the
    sections in the natural order of their folder names, and in every
    section the lessons in the natural order of their numbers. *)
Theorem built_structure_sorted (cmp : string -> string -> Z)
        (root : FileSystemHandle) (structure : CourseStructure) :
  Consistent cmp ->
  parseCourseStructure cmp root = Return structure ->
  sectionsSorted cmp structure /\ Forall (lessonsSorted cmp) structure.
Proof.
  intros Hc. rewrite parseCourseStructure_closed_form.
  destruct (filter is_directory (values root)) as [|d ds]; [discriminate|].
  destruct (filter hasVideoFile (sort (byName cmp) (d :: ds))) as [|k ks] eqn:F;
    [discriminate|].
  intros H. injection H as <-. change (sectionOf cmp k :: map (sectionOf cmp) ks) with (map (sectionOf cmp) (k :: ks)). rewrite <- F. split.
  - unfold sectionsSorted.
    apply (StronglySorted_map (notAfter (byName cmp))); [intros a b H; exact H|].
    apply StronglySorted_filter, sort_sorted. now apply byName_consistent.
  - apply Forall_forall. intros section Hs. apply in_map_iff in Hs as (e & <- & _).
    unfold lessonsSorted, sectionOf, parseSection. cbn [fst lessons]. unfold videoLessonsOf.
    apply (sort_sorted (fun a b => naturalSort cmp (number a) (number b))).
    unfold naturalSort. now apply consistent_on_key.
Qed.

Lemma built_structure_sorted_witness :
  Consistent collate /\
  parseCourseStructure collate intro_course = Return (courseStructure intro_session) /\
  sectionsSorted collate (courseStructure intro_session) /\
  Forall (lessonsSorted collate) (courseStructure intro_session).
Proof.
  assert (H : parseCourseStructure collate intro_course
              = Return (courseStructure intro_session)) by (vm_compute; reflexivity).
  split; [exact collate_consistent|]. split; [exact H|].
  exact (built_structure_sorted collate intro_course (courseStructure intro_session)
           collate_consistent H).
Defined.

Lemma onlyFiles_name (d : FileSystemHandle) : name (onlyFiles d) = name d.
Proof. now destruct d. Qed.

Lemma onlyFiles_files (d : FileSystemHandle) :
  filter is_file (values (onlyFiles d)) = filter is_file (values d).
Proof.
  destruct d as [n|n es]; [reflexivity|]. cbn [onlyFiles values].
  rewrite filter_filter. apply filter_ext. intros x. now destruct (is_file x).
Qed.

Lemma onlyFiles_section (cmp : string -> string -> Z) (d : FileSystemHandle) :
  sectionOf cmp (onlyFiles d) = sectionOf cmp d.
Proof.
  unfold sectionOf, parseSection, lessonEntriesOf.
  now rewrite onlyFiles_files, onlyFiles_name.
Qed.

Lemma onlyFiles_hasVideoFile (d : FileSystemHandle) :
  hasVideoFile (onlyFiles d) = hasVideoFile d.
Proof.
  unfold hasVideoFile. destruct d as [n|n es]; [reflexivity|]. cbn [onlyFiles values].
  induction es as [|e r IH]; [reflexivity|]. cbn [filter existsb].
  unfold isVideoFile at 2. destruct (is_file e) eqn:E.
  - cbn [existsb]. unfold isVideoFile at 1. now rewrite E, IH.
  - cbn [andb orb]. exact IH.
Qed.

Lemma filter_all {A : Type} (p : A -> bool) (l : list A) :
  (forall x, In x l -> p x = true) -> filter p l = l.
Proof.
  induction l as [|x r IH]; simpl; intros H; [reflexivity|].
  rewrite (H x (or_introl eq_refl)), IH; [reflexivity|]. intros y Hy. apply H. now right.
Qed.

Lemma sort_map {A B : Type} (cmpA : A -> A -> Z) (cmpB : B -> B -> Z) (f : A -> B) :
  (forall a b, cmpB (f a) (f b) = cmpA a b) ->
  forall l, sort cmpB (map f l) = map f (sort cmpA l).
Proof.
  intros Hc. 
  assert (Hi : forall x l, insert cmpB (f x) (map f l) = map f (insert cmpA x l)).
  { intros x l. induction l as [|y r IH]; simpl; [reflexivity|].
    rewrite Hc. destruct (cmpA x y <=? 0); simpl; [reflexivity | now rewrite IH]. }
  induction l as [|x r IH]; simpl; [reflexivity|]. now rewrite IH, Hi.
Qed.

(** The outcome of the builder as a function of the section listings. *)
Lemma parseCourseStructure_listings (cmp : string -> string -> Z) (root : FileSystemHandle) :
  parseCourseStructure cmp root =
  match sectionListings root with
  | [] => Throw no_sections_message
  | _ :: _ =>
      match filter hasVideoFile (sort (byName cmp) (sectionListings root)) with
      | [] => Throw no_videos_message
      | kept => Return (map (sectionOf cmp) kept)
      end
  end.
Proof.
  rewrite parseCourseStructure_closed_form. unfold sectionListings.
  rewrite (sort_map (byName cmp) (byName cmp) onlyFiles)
    by (intros a b; unfold byName; now rewrite !onlyFiles_name).
  rewrite filter_map_comm.
  rewrite (filter_ext _ _ onlyFiles_hasVideoFile).
  destruct (filter is_directory (values root)) as [|d ds]; [reflexivity|].
  cbn [map].
  destruct (filter hasVideoFile (sort (byName cmp) (d :: ds))) as [|k ks]; [reflexivity|].
  cbn [map]. rewrite onlyFiles_section, map_map.
  now rewrite (map_ext _ _ (onlyFiles_section cmp)).
Qed.

(** Extra X6.  The outcome of the builder is determined by the section
    directories of the root, each with its name and its files: two folders
    that agree on these have the same outcome, whatever their own names,
    the files directly in them and the directories inside their
    sections. *)
Theorem builder_reads_two_levels (cmp : string -> string -> Z)
        (root root' : FileSystemHandle) :
  sectionListings root = sectionListings root' ->
  parseCourseStructure cmp root = parseCourseStructure cmp root'.
Proof.
  intros H. rewrite !parseCourseStructure_listings. now rewrite H.
Qed.

Lemma builder_reads_two_levels_witness :
  sectionListings intro_course = sectionListings intro_course_cluttered /\
  name intro_course <> name intro_course_cluttered /\
  values intro_course <> values intro_course_cluttered /\
  parseCourseStructure collate intro_course =
  parseCourseStructure collate intro_course_cluttered.
Proof.
  assert (H : sectionListings intro_course = sectionListings intro_course_cluttered)
    by reflexivity.
  split; [exact H|]. split; [discriminate|]. split; [discriminate|].
  exact (builder_reads_two_levels collate intro_course intro_course_cluttered H).
Defined.

Lemma hasVideoFile_sorted (cmp : string -> string -> Z) (root d : FileSystemHandle) :
  In d (filter hasVideoFile (sort (byName cmp) (filter is_directory (values root)))) <->
  In d (values root) /\ is_directory d = true /\ hasVideoFile d = true.
Proof. rewrite filter_In, sort_in, filter_In. tauto. Qed.

(** Extra X4.  When the builder returns, the structure is the list of the
    sections of exactly those directories of the root that hold a video
    file, in sorted order, and there is such a directory; when it throws,
    no directory of the root holds a video file. *)
Theorem builder_returns_video_directories (cmp : string -> string -> Z)
        (root : FileSystemHandle) :
  match parseCourseStructure cmp root with
  | Return structure =>
      structure =
      map (sectionOf cmp)
        (filter hasVideoFile (sort (byName cmp) (filter is_directory (values root)))) /\
      exists d, In d (values root) /\ is_directory d = true /\ hasVideoFile d = true
  | Throw _ =>
      forall d, In d (values root) -> is_directory d = true -> hasVideoFile d = false
  end.
Proof.
  rewrite parseCourseStructure_closed_form.
  destruct (filter is_directory (values root)) as [|d0 ds] eqn:E.
  - intros d Hd Hdir.
    assert (H : In d (filter is_directory (values root))) by (apply filter_In; auto).
    rewrite E in H. contradiction.
  - rewrite <- E.
    destruct (filter hasVideoFile (sort (byName cmp) (filter is_directory (values root))))
      as [|k ks] eqn:F.
    + intros d Hd Hdir. destruct (hasVideoFile d) eqn:Hv; [|reflexivity].
      assert (H : In d []) by (rewrite <- F; apply hasVideoFile_sorted; auto).
      contradiction.
    + split; [reflexivity|]. exists k. apply (hasVideoFile_sorted cmp). rewrite F. now left.
Qed.

Lemma built_section_from_directory (cmp : string -> string -> Z)
      (root : FileSystemHandle) (structure : CourseStructure) (section : CourseSection) :
  parseCourseStructure cmp root = Return structure -> In section structure ->
  exists d, In d (values root) /\ is_directory d = true /\ section = sectionOf cmp d.
Proof.
  rewrite parseCourseStructure_closed_form.
  destruct (filter is_directory (values root)) as [|d0 ds] eqn:E; [discriminate|].
  rewrite <- E.
  destruct (filter hasVideoFile (sort (byName cmp) (filter is_directory (values root))))
    as [|k ks] eqn:F; [discriminate|].
  intros H. injection H as <-.
  change (sectionOf cmp k :: map (sectionOf cmp) ks) with (map (sectionOf cmp) (k :: ks)).
  rewrite <- F. intros Hs. apply in_map_iff in Hs as (d & <- & Hd).
  apply hasVideoFile_sorted in Hd as (H1 & H2 & _). eauto.
Qed.

(** Extra X7.  In a structure the builder returns, every lesson is named
    after its first file, [renderLessonContent] finds a video file in it,
    and the video and the subtitle it picks are files of the lesson with
    the lesson's ordinal. *)
Theorem built_lesson_has_playable_video (cmp : string -> string -> Z)
        (root : FileSystemHandle) (structure : CourseStructure)
        (section : CourseSection) (lesson : Lesson) :
  parseCourseStructure cmp root = Return structure ->
  In section structure -> In lesson (lessons section) ->
  (exists first rest,
      files lesson = first :: rest /\
      lesson_name lesson = cleanLessonName (file_name first)) /\
  (exists videoFile,
      videoFileOf lesson = Some videoFile /\ In videoFile (files lesson) /\
      type videoFile = video /\ is_file (handle videoFile) = true /\
      extractLessonNumber (file_name videoFile) = number lesson) /\
  (forall subtitleFile,
      subtitleFileOf lesson = Some subtitleFile ->
      In subtitleFile (files lesson) /\ type subtitleFile = subtitle /\
      is_file (handle subtitleFile) = true /\
      extractLessonNumber (file_name subtitleFile) = number lesson).
Proof.
  intros Hp Hs Hl.
  destruct (built_section_from_directory cmp root structure section Hp Hs)
    as (d & _ & _ & ->).
  pose proof (section_lessons_facts cmp d) as H. rewrite Forall_forall in H.
  destruct (H lesson Hl) as (Hfirst & Hvid & Hfiles). rewrite Forall_forall in Hfiles.
  split; [exact Hfirst|]. split.
  - unfold videoFileOf in *.
    destruct (find (fun f => is_video (type f)) (files lesson)) as [v|] eqn:F; [|congruence].
    apply find_some in F as [Hv Hvv]. exists v.
    destruct (Hfiles v Hv) as (_ & Hfile & _ & _ & _ & Hord).
    split; [reflexivity|]. split; [exact Hv|]. split; [now apply is_video_true|]. auto.
  - intros s Hsub. unfold subtitleFileOf in Hsub. apply find_some in Hsub as [Hin Hsv].
    destruct (Hfiles s Hin) as (_ & Hfile & _ & _ & _ & Hord).
    split; [exact Hin|]. split; [now apply is_subtitle_true|]. auto.
Qed.

Lemma lesson_files_belong_to_section_witness :
  let lesson :=
    mkLesson "2" "a"
      [lessonFileOf (FileHandle "2.a.mp4"); lessonFileOf (FileHandle "2.a.vtt")] in
  let f := lessonFileOf (FileHandle "2.a.vtt") in
  In lesson (lessons (sectionOf collate subtitle_only_section)) /\
  In f (files lesson) /\
  In (handle f) (values subtitle_only_section) /\ is_file (handle f) = true /\
  file_name f = name (handle f) /\
  type f = getFileType (file_name f) /\
  (type f = video \/ type f = subtitle) /\
  extractLessonNumber (file_name f) = number lesson.
Proof.
  intros lesson f.
  assert (H1 : In lesson (lessons (sectionOf collate subtitle_only_section)))
    by (vm_compute; left; reflexivity).
  assert (H2 : In f (files lesson)) by (vm_compute; right; left; reflexivity).
  split; [exact H1|]. split; [exact H2|].
  exact (lesson_files_belong_to_section collate subtitle_only_section lesson f H1 H2).
Defined.

Lemma media_file_shown_iff_video_shares_number_witness :
  let h := FileHandle "2.a.vtt" in
  In h (values subtitle_only_section) /\ is_file h = true /\ isExtra h = false /\
  ((exists lesson, In lesson (lessons (sectionOf collate subtitle_only_section)) /\
                   number lesson = extractLessonNumber (name h) /\
                   In (lessonFileOf h) (files lesson)) <->
   (exists v, In v (values subtitle_only_section) /\ isVideoFile v = true /\
              extractLessonNumber (name v) = extractLessonNumber (name h))).
Proof.
  intros h.
  assert (H1 : In h (values subtitle_only_section)) by (vm_compute; right; left; reflexivity).
  assert (H2 : is_file h = true) by reflexivity.
  assert (H3 : isExtra h = false) by (vm_compute; reflexivity).
  split; [exact H1|]. split; [exact H2|]. split; [exact H3|].
  exact (media_file_shown_iff_video_shares_number collate subtitle_only_section h H1 H2 H3).
Defined.

Lemma built_lesson_has_playable_video_witness :
  let section := sectionOf collate (DirectoryHandle "1. Intro"
       [FileHandle "2. Setup.mp4"; FileHandle "1. Welcome.vtt"; FileHandle "1. Welcome.mp4"]) in
  let lesson :=
    mkLesson "1" "Welcome"
      [lessonFileOf (FileHandle "1. Welcome.mp4"); lessonFileOf (FileHandle "1. Welcome.vtt")] in
  parseCourseStructure collate intro_course = Return (courseStructure intro_session) /\
  In section (courseStructure intro_session) /\ In lesson (lessons section) /\
  (exists first rest,
      files lesson = first :: rest /\
      lesson_name lesson = cleanLessonName (file_name first)) /\
  (exists videoFile,
      videoFileOf lesson = Some videoFile /\ In videoFile (files lesson) /\
      type videoFile = video /\ is_file (handle videoFile) = true /\
      extractLessonNumber (file_name videoFile) = number lesson) /\
  (forall subtitleFile,
      subtitleFileOf lesson = Some subtitleFile ->
      In subtitleFile (files lesson) /\ type subtitleFile = subtitle /\
      is_file (handle subtitleFile) = true /\
      extractLessonNumber (file_name subtitleFile) = number lesson).
Proof.
  intros section lesson.
  assert (H1 : parseCourseStructure collate intro_course
               = Return (courseStructure intro_session)) by (vm_compute; reflexivity).
  assert (H2 : In section (courseStructure intro_session)) by (vm_compute; left; reflexivity).
  assert (H3 : In lesson (lessons section)) by (vm_compute; left; reflexivity).
  split; [exact H1|]. split; [exact H2|]. split; [exact H3|].
  exact (built_lesson_has_playable_video collate intro_course (courseStructure intro_session)
           section lesson H1 H2 H3).
Defined.

(** ** The shape of what the classifier returns *)

Lemma allUnits_takeUnits_digitRun (s : string) :
  allUnits isDigit (takeUnits (digitRun s) s) = true.
Proof.
  induction s as [|c r IH]; [reflexivity|]. cbn [digitRun].
  destruct (isDigit c) eqn:E; [|reflexivity].
  cbn [takeUnits allUnits]. now rewrite E, IH.
Qed.

(** Extra X8.  [extractLessonNumber] always returns a non-empty string of
    ASCII digits. *)
Theorem lesson_number_is_digit_string (fileName : string) :
  extractLessonNumber fileName <> "" /\
  allUnits isDigit (extractLessonNumber fileName) = true.
Proof.
  unfold extractLessonNumber. rewrite matchNumberDot_eq. unfold startsWithNumberDot.
  destruct (digitRun fileName) as [|k] eqn:Hk; [split; [discriminate | reflexivity]|].
  destruct (dropUnits (S k) fileName) as [|c rest]; [split; [discriminate | reflexivity]|].
  destruct (Ascii.eqb c "."%char); [|split; [discriminate | reflexivity]].
  split.
  - destruct fileName as [|a r]; [discriminate|]. discriminate.
  - rewrite <- Hk. apply allUnits_takeUnits_digitRun.
Qed.

Lemma dropSpaces_head (s : string) :
  match dropSpaces s with
  | EmptyString => True
  | String c _ => isSpace c = false
  end.
Proof.
  induction s as [|c r IH]; [exact I|]. cbn [dropSpaces].
  destruct (isSpace c) eqn:E; [exact IH | exact E].
Qed.

Lemma trimEnd_head (c : ascii) (r : string) :
  isSpace c = false -> exists r', trimEnd (String c r) = String c r'.
Proof.
  intros H. cbn [trimEnd]. destruct (trimEnd r); rewrite ?H; eauto.
Qed.

Lemma trimEnd_idempotent (s : string) : trimEnd (trimEnd s) = trimEnd s.
Proof.
  induction s as [|c r IH]; [reflexivity|]. cbn [trimEnd].
  destruct (trimEnd r) as [|d r'] eqn:E.
  - destruct (isSpace c) eqn:Hc; [reflexivity|]. cbn [trimEnd]. now rewrite Hc.
  - cbn [trimEnd] in *. rewrite IH. reflexivity.
Qed.

Lemma trim_idempotent (s : string) : trim (trim s) = trim s.
Proof.
  unfold trim. pose proof (dropSpaces_head s) as H.
  destruct (dropSpaces s) as [|c r] eqn:E; [reflexivity|].
  destruct (trimEnd_head c r H) as (r' & Hr). rewrite Hr.
  cbn [dropSpaces]. rewrite H, <- Hr. apply trimEnd_idempotent.
Qed.

Lemma trimEnd_last (s : string) : forall p c,
  trimEnd s = (p ++ String c EmptyString)%string -> isSpace c = false.
Proof.
  induction s as [|a r IH]; intros p c; cbn [trimEnd].
  - destruct p; discriminate.
  - destruct (trimEnd r) as [|d r'] eqn:E.
    + destruct (isSpace a) eqn:Ha; [destruct p; discriminate|].
      destruct p as [|b p]; cbn [String.append]; intros H.
      * injection H as <-. exact Ha.
      * injection H as _ H. destruct p; discriminate.
    + destruct p as [|b p]; cbn [String.append]; intros H.
      * discriminate.
      * injection H as _ H. now apply (IH p c).
Qed.

(** Extra X9.  The name [cleanLessonName] returns is trimmed: trimming it
    again changes nothing, and neither its first nor its last code unit is
    white space. *)
Theorem lesson_name_is_trimmed (fileName : string) :
  trim (cleanLessonName fileName) = cleanLessonName fileName /\
  (forall c r, cleanLessonName fileName = String c r -> isSpace c = false) /\
  (forall p c, cleanLessonName fileName = (p ++ String c EmptyString)%string ->
               isSpace c = false).
Proof.
  unfold cleanLessonName. split; [apply trim_idempotent|]. split.
  - intros c r. unfold trim.
    pose proof (dropSpaces_head (stripExtension (stripNumberPrefix fileName))) as H.
    destruct (dropSpaces (stripExtension (stripNumberPrefix fileName))) as [|d r0];
      [discriminate|].
    destruct (trimEnd_head d r0 H) as (r' & ->). intros E. injection E as <- _. exact H.
  - intros p c. unfold trim. apply trimEnd_last.
Qed.

Lemma dropSpaces_split (s : string) :
  exists spaces, s = (spaces ++ dropSpaces s)%string /\ allUnits isSpace spaces = true.
Proof.
  induction s as [|c r (spaces & Hs & Ha)]; [now exists EmptyString|].
  cbn [dropSpaces]. destruct (isSpace c) eqn:E.
  - exists (String c spaces). cbn [String.append allUnits]. rewrite E, Ha, <- Hs. auto.
  - now exists EmptyString.
Qed.

Lemma dropUnits_S_dot (k : nat) : forall s c rest,
  dropUnits k s = String c rest -> dropUnits (S k) s = rest.
Proof.
  induction k as [|k IH]; intros [|a r] c rest; cbn [dropUnits]; try discriminate.
  - intros H. now injection H.
  - destruct k; [destruct r; [discriminate|]; intros H; now injection H|].
    intros H. exact (IH r c rest H).
Qed.

(** Extra X10.  [cleanSectionName] returns the folder name unchanged, or
    the folder name without a prefix made of its ordinal, a dot and white
    space; in that case the result does not start with white space. *)
Theorem section_name_drops_ordinal_prefix (rawName : string) :
  cleanSectionName rawName = rawName \/
  exists digits spaces,
    rawName = (digits ++ "." ++ spaces ++ cleanSectionName rawName)%string /\
    digits = extractLessonNumber rawName /\
    allUnits isSpace spaces = true /\
    (forall c r, cleanSectionName rawName = String c r -> isSpace c = false).
Proof.
  unfold cleanSectionName, stripNumberPrefix, extractLessonNumber.
  rewrite matchNumberDot_eq. unfold startsWithNumberDot.
  destruct (digitRun rawName) as [|k] eqn:Hk; [now left|].
  destruct (dropUnits (S k) rawName) as [|c rest] eqn:Hd; [now left|].
  destruct (Ascii.eqb_spec c "."%char) as [->|_]; [|now left].
  right. rewrite (dropUnits_S_dot _ _ _ _ Hd).
  destruct (dropSpaces_split rest) as (spaces & Hs & Ha).
  exists (takeUnits (S k) rawName), spaces.
  split; [|split; [reflexivity|split; [exact Ha|]]].
  - rewrite <- Hs. change ("." ++ rest)%string with (String "."%char rest).
    rewrite <- Hd. symmetry. apply take_drop.
  - intros a r E. pose proof (dropSpaces_head rest) as H. now rewrite E in H.
Qed.

(** ** The classifier against the specification's words *)


Lemma append_empty (a : string) : (a ++ "")%string = a.
Proof. induction a as [|x a IH]; simpl; [reflexivity | now rewrite IH]. Qed.

Lemma append_inv_head (a b c : string) : (a ++ b)%string = (a ++ c)%string -> b = c.
Proof. induction a as [|x a IH]; simpl; [auto|]. intros H. injection H as H. auto. Qed.






















(** ** Course and lesson identifiers *)

Lemma idUnit_lower_isIdUnit (c : ascii) : isIdUnit (idUnit (lowerUnit c)) = true.
Proof. each_unit c; vm_compute; reflexivity. Qed.

Lemma idUnit_lower_fixed (c : ascii) : isIdUnit c = true -> idUnit (lowerUnit c) = c.
Proof. each_unit c; vm_compute; congruence. Qed.

Lemma mapUnits_mapUnits (f g : ascii -> ascii) (s : string) :
  mapUnits f (mapUnits g s) = mapUnits (fun c => f (g c)) s.
Proof. induction s as [|c r IH]; simpl; [reflexivity | now rewrite IH]. Qed.

Lemma generateCourseId_units (courseName : string) :
  generateCourseId courseName = mapUnits (fun c => idUnit (lowerUnit c)) courseName.
Proof. unfold generateCourseId, toLowerCase. apply mapUnits_mapUnits. Qed.

Lemma mapUnits_fixed (f : ascii -> ascii) (p : ascii -> bool) (s : string) :
  (forall c, p c = true -> f c = c) -> allUnits p s = true -> mapUnits f s = s.
Proof.
  intros Hf. induction s as [|c r IH]; simpl; [reflexivity|].
  intros H. apply andb_true_iff in H as [Hc Hr]. now rewrite (Hf c Hc), IH.
Qed.

(** Extra X11.  A course identifier is made of [a-z], [0-9] and [_] only;
    [generateCourseId] is idempotent and returns a name of that alphabet
    unchanged; and the identifier of a name of ASCII code units has the
    length of the name.  (Of other names the length is left open: lower-casing
    can turn one code unit into two, as it does for U+0130.)
    "My Course (2nd ed.)" becomes "my_course__2nd_ed__". *)
Theorem course_id_alphabet (courseName : string) :
  allUnits isIdUnit (generateCourseId courseName) = true /\
  generateCourseId (generateCourseId courseName) = generateCourseId courseName /\
  (allUnits isIdUnit courseName = true -> generateCourseId courseName = courseName) /\
  (allUnits isAsciiUnit courseName = true ->
   String.length (generateCourseId courseName) = String.length courseName) /\
  generateCourseId "My Course (2nd ed.)" = "my_course__2nd_ed__".
Proof.
  assert (H1 : allUnits isIdUnit (generateCourseId courseName) = true).
  { rewrite generateCourseId_units.
    induction courseName as [|c r IH]; simpl; [reflexivity|].
    now rewrite idUnit_lower_isIdUnit, IH. }
  assert (H4 : forall s, allUnits isIdUnit s = true -> generateCourseId s = s).
  { intros s Hs. rewrite generateCourseId_units.
    now apply (mapUnits_fixed _ isIdUnit); [apply idUnit_lower_fixed|]. }
  split; [exact H1|]. split; [now apply H4|]. split; [apply H4|].
  split; [|reflexivity].
  intros _. unfold generateCourseId, toLowerCase. now rewrite !length_mapUnits.
Qed.

Lemma digits_of_uint (d : Decimal.uint) :
  allUnits isDigit (DecimalString.NilEmpty.string_of_uint d) = true.
Proof. induction d; simpl; try reflexivity; exact IHd. Qed.

Lemma digits_of_uint_zero (d : Decimal.uint) :
  allUnits isDigit (DecimalString.NilZero.string_of_uint d) = true /\
  DecimalString.NilZero.string_of_uint d <> "".
Proof.
  destruct d; (split; [reflexivity || apply (digits_of_uint (_ d)) | discriminate]) ||
    (split; [reflexivity | discriminate]).
Qed.

Lemma digits_until_dash (a : string) : forall a' r r',
  allUnits isDigit a = true -> allUnits isDigit a' = true ->
  (a ++ String "-"%char r)%string = (a' ++ String "-"%char r')%string ->
  a = a' /\ r = r'.
Proof.
  induction a as [|c a IH]; intros [|c' a'] r r' Ha Ha'; cbn [String.append]; intros H.
  - now injection H.
  - injection H as <- _. simpl in Ha'. discriminate.
  - injection H as -> _. simpl in Ha. discriminate.
  - injection H as <- H. simpl in Ha, Ha'.
    apply andb_true_iff in Ha as [_ Ha]. apply andb_true_iff in Ha' as [_ Ha'].
    destruct (IH a' r r' Ha Ha' H) as [-> ->]. auto.
Qed.

Lemma Number_toString_shape (n : Z) :
  exists digits, allUnits isDigit digits = true /\ digits <> "" /\
    (Number_toString n = digits \/ Number_toString n = String "-"%char digits).
Proof.
  unfold Number_toString.
  destruct (Z.to_int n) as [d|d]; cbn [DecimalString.NilZero.string_of_int];
    destruct (digits_of_uint_zero d) as [H1 H2]; eauto.
Qed.

Lemma Number_toString_injective (a b : Z) :
  Number_toString a = Number_toString b -> a = b.
Proof.
  unfold Number_toString. intros H.
  assert (Hn : forall n, Z.to_int n <> Decimal.Pos Decimal.Nil /\
                         Z.to_int n <> Decimal.Neg Decimal.Nil).
  { intros n. destruct n as [|p|p]; simpl; split; try discriminate;
      intros E; injection E as E;
      apply (f_equal Pos.of_uint) in E; rewrite DecimalPos.Unsigned.of_to in E;
      discriminate. }
  assert (E : Some (Z.to_int a) = Some (Z.to_int b)).
  { rewrite <- (DecimalString.NilZero.isi (Z.to_int a)) by apply Hn.
    rewrite <- (DecimalString.NilZero.isi (Z.to_int b)) by apply Hn.
    now rewrite H. }
  injection E as E. rewrite <- (DecimalZ.of_to a), <- (DecimalZ.of_to b). now rewrite E.
Qed.

Lemma lessonId_distinct (position position' : Z * Z) :
  lessonId position = lessonId position' -> position = position'.
Proof.
  destruct position as [a b], position' as [a' b']. unfold lessonId. cbn [fst snd].
  change ("-" ++ Number_toString b)%string with (String "-"%char (Number_toString b)).
  change ("-" ++ Number_toString b')%string with (String "-"%char (Number_toString b')).
  intros H.
  destruct (Number_toString_shape a) as (d & Hd & Hne & Ea).
  destruct (Number_toString_shape a') as (d' & Hd' & Hne' & Ea').
  assert (Hab : Number_toString a = Number_toString a' /\
                Number_toString b = Number_toString b').
  { destruct Ea as [Ea|Ea], Ea' as [Ea'|Ea']; rewrite Ea, Ea' in *;
      cbn [String.append] in H.
    - destruct (digits_until_dash d d' _ _ Hd Hd' H) as [-> ->]. auto.
    - destruct d as [|c d]; [congruence|]. cbn [String.append] in H. injection H as -> _.
      simpl in Hd. discriminate.
    - destruct d' as [|c d']; [congruence|]. cbn [String.append] in H. injection H as <- _.
      simpl in Hd'. discriminate.
    - injection H as H. destruct (digits_until_dash d d' _ _ Hd Hd' H) as [-> ->]. auto. }
  destruct Hab as [Ha Hb].
  now rewrite (Number_toString_injective a a' Ha), (Number_toString_injective b b' Hb).
Qed.

(** Extra X12.  Two positions have the same lesson identifier
    [sectionIndex-lessonIndex] only when they are the same position. *)
Theorem lessonId_injective (position position' : Z * Z) :
  lessonId position = lessonId position' <-> position = position'.
Proof. split; [apply lessonId_distinct | now intros ->]. Qed.

(** ** The role depends on the last segment only *)

Lemma lowerUnit_idempotent (c : ascii) : lowerUnit (lowerUnit c) = lowerUnit c.
Proof. each_unit c; vm_compute; reflexivity. Qed.

Lemma toLowerCase_idempotent (s : string) : toLowerCase (toLowerCase s) = toLowerCase s.
Proof.
  unfold toLowerCase. induction s as [|c r IH]; simpl; [reflexivity|].
  now rewrite lowerUnit_idempotent, IH.
Qed.

Lemma lowerUnit_dot (c : ascii) : Ascii.eqb (lowerUnit c) "."%char = Ascii.eqb c "."%char.
Proof. each_unit c; vm_compute; reflexivity. Qed.

Lemma hasDot_toLowerCase (s : string) : hasDot (toLowerCase s) = hasDot s.
Proof.
  unfold toLowerCase. induction s as [|c r IH]; simpl; [reflexivity|].
  now rewrite lowerUnit_dot, IH.
Qed.

(** Extra X13.  The role of a file name depends only on the text after
    its last dot, without regard to case: two names whose last segments
    agree up to case have the same role. *)
Theorem role_depends_on_extension_only (stem stem' ext ext' : string) :
  hasDot ext = false -> toLowerCase ext = toLowerCase ext' ->
  getFileType (stem ++ String "."%char ext) = getFileType (stem' ++ String "."%char ext').
Proof.
  intros Hd He.
  assert (Hd' : hasDot ext' = false)
    by (rewrite <- hasDot_toLowerCase, <- He, hasDot_toLowerCase; exact Hd).
  rewrite (getFileType_extension stem ext Hd), (getFileType_extension stem' ext' Hd').
  now rewrite He.
Qed.

Lemma role_depends_on_extension_only_witness :
  hasDot "mp4" = false /\ toLowerCase "mp4" = toLowerCase "MP4" /\
  getFileType "1. Welcome.mp4" = getFileType "archive.tar.MP4".
Proof.
  split; [reflexivity|]. split; [reflexivity|].
  exact (role_depends_on_extension_only "1. Welcome" "archive.tar" "mp4" "MP4"
           eq_refl eq_refl).
Defined.

(* ================================================================= *)
(** * Further facts about completion, the library and navigation *)

(** ** Sets and maps *)

Lemma Set_has_In (s : list string) (x : string) : Set_has s x = true <-> In x s.
Proof.
  unfold Set_has. rewrite existsb_exists. split.
  - intros (y & Hy & E). apply String.eqb_eq in E. now subst.
  - intros H. exists x. split; [exact H | apply String.eqb_refl].
Qed.

Lemma Set_has_add (s : list string) (x y : string) :
  Set_has (Set_add s x) y = String.eqb y x || Set_has s y.
Proof.
  unfold Set_add. destruct (Set_has s x) eqn:E.
  - destruct (String.eqb_spec y x) as [->|_]; [now rewrite E | reflexivity].
  - unfold Set_has. rewrite existsb_app. simpl. rewrite orb_false_r. apply orb_comm.
Qed.

Lemma Set_has_delete (s : list string) (x y : string) :
  Set_has (Set_delete s x) y = negb (String.eqb y x) && Set_has s y.
Proof.
  unfold Set_delete, Set_has. induction s as [|z r IH]; simpl; [now rewrite andb_false_r|].
  destruct (String.eqb_spec x z) as [->|Hxz]; simpl.
  - rewrite IH. destruct (String.eqb_spec y z); simpl; reflexivity.
  - rewrite IH. destruct (String.eqb_spec y z) as [->|Hyz]; simpl.
    + destruct (String.eqb_spec z x); [congruence | reflexivity].
    + reflexivity.
Qed.

Lemma NoDup_Set_add (s : list string) (x : string) : NoDup s -> NoDup (Set_add s x).
Proof.
  intros H. unfold Set_add. destruct (Set_has s x) eqn:E; [exact H|].
  apply NoDup_app; [exact H | repeat constructor; intros [] |].
  intros y Hy [<-|[]]. apply Set_has_In in Hy. congruence.
Qed.

Lemma NoDup_Set_delete (s : list string) (x : string) : NoDup s -> NoDup (Set_delete s x).
Proof. apply NoDup_filter. Qed.

Lemma newSet_fixes (l : list string) : NoDup l -> newSet l = l.
Proof.
  induction 1 as [|y r Hy Hr IH]; simpl; [reflexivity|]. rewrite IH. f_equal.
  apply filter_all. intros z Hz. destruct (String.eqb_spec y z) as [->|_];
    [contradiction | reflexivity].
Qed.

Lemma assoc_get_set_other {V : Type} (m : list (string * V)) (key key' : string) (v : V) :
  key' <> key -> assoc_get (assoc_set m key v) key' = assoc_get m key'.
Proof.
  intros Hne. induction m as [|[k w] r IH]; simpl.
  - destruct (String.eqb_spec key key'); [congruence | reflexivity].
  - destruct (String.eqb_spec k key) as [->|Hk]; simpl.
    + destruct (String.eqb_spec key key'); [congruence | reflexivity].
    + now rewrite IH.
Qed.

Lemma assoc_get_remove {V : Type} (m : list (string * V)) (key key' : string) :
  assoc_get (assoc_remove m key) key' =
  if String.eqb key' key then None else assoc_get m key'.
Proof.
  unfold assoc_remove. induction m as [|[k w] r IH]; simpl.
  - now destruct (String.eqb key' key).
  - destruct (String.eqb_spec k key) as [Ek|Hk]; simpl.
    + rewrite IH. destruct (String.eqb_spec key' key) as [E|Hne]; [reflexivity|].
      destruct (String.eqb_spec k key'); [congruence | reflexivity].
    + rewrite IH. destruct (String.eqb_spec key' key) as [E|Hne]; [|reflexivity].
      destruct (String.eqb_spec k key'); [congruence | reflexivity].
Qed.

Lemma assoc_set_new {V : Type} (m : list (string * V)) (key : string) (v : V) :
  ~ In key (map fst m) -> assoc_set m key v = m ++ [(key, v)].
Proof.
  induction m as [|[k w] r IH]; simpl; [reflexivity|]. intros H.
  destruct (String.eqb_spec k key) as [->|Hk]; [exfalso; auto|].
  rewrite IH; [reflexivity | auto].
Qed.

Lemma orZero_id (x : Z) : orZero x = x.
Proof. unfold orZero. destruct (Z.eqb_spec x 0); congruence. Qed.

(** ** Marking a lesson *)

(** Extra X14.  Toggling the completion of the current lesson flips the membership of
    its identifier in the completion set and of no other lesson's, keeps the
    set free of duplicates, stores a progress record that agrees with what
    the progress bar shows, and leaves the position and the structure;
    toggling twice restores the membership of every identifier. *)
Theorem toggle_flips_completion (app : CourseViewer) (position : Z * Z) :
  currentLesson app = Some position ->
  let app' := toggleLessonComplete app in
  Set_has (completedLessons app') (lessonId position) =
    negb (Set_has (completedLessons app) (lessonId position)) /\
  (forall position', position' <> position ->
     Set_has (completedLessons app') (lessonId position') =
     Set_has (completedLessons app) (lessonId position')) /\
  (NoDup (completedLessons app) -> NoDup (completedLessons app')) /\
  getCourseProgress (idText (currentCourseId app)) app' = updateProgressBar app' /\
  (forall id, Set_has (completedLessons (toggleLessonComplete app')) id =
              Set_has (completedLessons app) id) /\
  currentLesson app' = Some position /\
  courseStructure app' = courseStructure app.
Proof.
  intros Hcur app'.
  assert (E : completedLessons app' =
              if Set_has (completedLessons app) (lessonId position)
              then Set_delete (completedLessons app) (lessonId position)
              else Set_add (completedLessons app) (lessonId position)).
  { unfold app', toggleLessonComplete. rewrite Hcur.
    destruct (Set_has (completedLessons app) (lessonId position)); reflexivity. }
  assert (Hcur' : currentLesson app' = Some position).
  { unfold app', toggleLessonComplete. rewrite Hcur.
    destruct (Set_has (completedLessons app) (lessonId position)); exact Hcur. }
  assert (Hhas : forall id, Set_has (completedLessons app') id =
            if String.eqb id (lessonId position)
            then negb (Set_has (completedLessons app) id)
            else Set_has (completedLessons app) id).
  { intros id. rewrite E.
    destruct (Set_has (completedLessons app) (lessonId position)) eqn:H.
    - rewrite Set_has_delete.
      destruct (String.eqb_spec id (lessonId position)) as [->|_]; [now rewrite H|reflexivity].
    - rewrite Set_has_add.
      destruct (String.eqb_spec id (lessonId position)) as [->|_]; [now rewrite H|reflexivity]. }
  split; [rewrite Hhas, String.eqb_refl; reflexivity|].
  split.
  { intros position' Hne. rewrite Hhas.
    destruct (String.eqb_spec (lessonId position') (lessonId position)) as [Heq|_];
      [|reflexivity].
    apply lessonId_distinct in Heq. contradiction. }
  split.
  { intros Hnd. rewrite E. destruct (Set_has (completedLessons app) (lessonId position));
      [now apply NoDup_Set_delete | now apply NoDup_Set_add]. }
  split.
  { unfold app', toggleLessonComplete. rewrite Hcur.
    unfold getCourseProgress, updateProgressBar.
    destruct (Set_has (completedLessons app) (lessonId position));
      cbn [saveCourseProgress localStorage course_progress courseStructure completedLessons
           setCompletedLessons currentCourseId];
      rewrite assoc_get_set;
      cbn [progress_percentage progress_completedCount progress_totalLessons];
      now rewrite !orZero_id. }
  split.
  { intros id.
    assert (Hhas' : Set_has (completedLessons (toggleLessonComplete app')) id =
              if String.eqb id (lessonId position)
              then negb (Set_has (completedLessons app') id)
              else Set_has (completedLessons app') id).
    { unfold toggleLessonComplete at 1. rewrite Hcur'.
      destruct (Set_has (completedLessons app') (lessonId position)) eqn:H;
        cbn [saveCourseProgress completedLessons setCompletedLessons].
      - rewrite Set_has_delete.
        destruct (String.eqb_spec id (lessonId position)) as [->|_];
          [now rewrite H|reflexivity].
      - rewrite Set_has_add.
        destruct (String.eqb_spec id (lessonId position)) as [->|_];
          [now rewrite H|reflexivity]. }
    rewrite Hhas', Hhas.
    destruct (String.eqb id (lessonId position)); [apply negb_involutive | reflexivity]. }
  split; [exact Hcur'|].
  unfold app', toggleLessonComplete. rewrite Hcur.
  destruct (Set_has (completedLessons app) (lessonId position)); reflexivity.
Qed.

Lemma toggle_flips_completion_witness :
  currentLesson intro_session = Some (0, 0) /\
  Set_has (completedLessons intro_session) (lessonId (0, 0)) = false /\
  Set_has (completedLessons (toggleLessonComplete intro_session)) (lessonId (0, 0)) = true /\
  getCourseProgress "my_course" (toggleLessonComplete intro_session) = (50, 1, 2).
Proof.
  assert (H : currentLesson intro_session = Some (0, 0)) by (vm_compute; reflexivity).
  assert (H0 : Set_has (completedLessons intro_session) (lessonId (0, 0)) = false)
    by (vm_compute; reflexivity).
  split; [exact H|]. split; [exact H0|]. split.
  - rewrite (proj1 (toggle_flips_completion intro_session (0, 0) H)), H0. reflexivity.
  - vm_compute; reflexivity.
Defined.

(** ** Progress and library in the store *)

(** Extra X15.  What [saveCourseProgress] stores for a course,
    [loadCourseProgress] reads back as the same completion set and
    [getCourseProgress] as the numbers of the progress bar; the records of
    the other courses are not touched. *)
Theorem progress_round_trip (courseId : string) (app : CourseViewer) :
  NoDup (completedLessons app) ->
  let saved := saveCourseProgress courseId app in
  completedLessons (loadCourseProgress courseId saved) = completedLessons app /\
  getCourseProgress courseId saved = updateProgressBar app /\
  (forall other, other <> courseId ->
     assoc_get (course_progress (localStorage saved)) other =
     assoc_get (course_progress (localStorage app)) other).
Proof.
  intros Hnd saved. unfold saved, loadCourseProgress, getCourseProgress, updateProgressBar.
  cbn [saveCourseProgress localStorage course_progress completedLessons courseStructure].
  rewrite assoc_get_set.
  cbn [progress_completedLessons progress_percentage progress_completedCount
       progress_totalLessons].
  rewrite !orZero_id. split; [now apply newSet_fixes|]. split; [reflexivity|].
  intros other Hne. now apply assoc_get_set_other.
Qed.

Lemma progress_round_trip_witness :
  NoDup (completedLessons returning_session) /\
  completedLessons
    (loadCourseProgress "my_course" (saveCourseProgress "my_course" returning_session)) =
  ["0-0"].
Proof.
  assert (H : NoDup (completedLessons returning_session)).
  { vm_compute. constructor; [intros [] | constructor]. }
  split; [exact H|].
  rewrite (proj1 (progress_round_trip "my_course" returning_session H)).
  vm_compute; reflexivity.
Defined.

Lemma saveCourseLibrary_records (app : CourseViewer) :
  course_library (localStorage (saveCourseLibrary app)) =
  Some (map recordOf (courseLibrary app)).
Proof.
  unfold saveCourseLibrary. cbn [localStorage course_library]. f_equal.
  apply map_ext. intros [id data]. reflexivity.
Qed.

Lemma loadCourseLibrary_fresh (records : list LibraryRecord) : forall library,
  NoDup (map fst library ++ map lib_id records) ->
  fold_left
    (fun library course =>
       assoc_set library (lib_id course)
         (mkCourseData (lib_name course) None (lib_addedDate course)
            (lib_lastAccessed course)))
    records library =
  library ++
  map (fun course =>
         (lib_id course,
          mkCourseData (lib_name course) None (lib_addedDate course)
            (lib_lastAccessed course)))
      records.
Proof.
  induction records as [|c r IH]; intros library Hnd; cbn [fold_left map].
  - now rewrite app_nil_r.
  - rewrite assoc_set_new.
    + rewrite IH.
      * now rewrite <- app_assoc.
      * rewrite map_app. cbn [map fst]. rewrite <- app_assoc. exact Hnd.
    + cbn [map] in Hnd. apply NoDup_remove_2 in Hnd. intros H. apply Hnd.
      apply in_or_app. now left.
Qed.

(** Extra X16.  After a reload of the page, [loadCourseLibrary] rebuilds
    from what [saveCourseLibrary] stored the same library, entry by entry
    and in the same order, with every folder handle forgotten. *)
Theorem library_round_trip (app : CourseViewer) :
  NoDup (map fst (courseLibrary app)) ->
  courseLibrary (loadCourseLibrary (reloaded (saveCourseLibrary app))) =
  map (fun entry => (fst entry, withoutHandle (snd entry))) (courseLibrary app).
Proof.
  intros Hnd. unfold loadCourseLibrary, reloaded. cbn [localStorage courseLibrary].
  rewrite saveCourseLibrary_records. cbn [setCourseLibrary courseLibrary].
  rewrite loadCourseLibrary_fresh.
  - cbn [List.app]. rewrite map_map. apply map_ext. intros [id data]. reflexivity.
  - cbn [map List.app]. rewrite map_map.
    rewrite (map_ext _ fst) by (intros [id data]; reflexivity). exact Hnd.
Qed.

Lemma library_round_trip_witness :
  NoDup (map fst (courseLibrary intro_session)) /\
  courseLibrary (loadCourseLibrary (reloaded (saveCourseLibrary intro_session))) =
  [("my_course", mkCourseData "My Course" None 1000 1001)].
Proof.
  assert (H : NoDup (map fst (courseLibrary intro_session))).
  { vm_compute. constructor; [intros [] | constructor]. }
  split; [exact H|].
  rewrite (library_round_trip intro_session H). vm_compute; reflexivity.
Defined.

(** ** Removing a course *)

(** Extra X17.  A confirmed [deleteCourse] removes the course from the
    library, its progress record, its last session and its folder handle,
    and writes the library to the store; the entries of every other course,
    the identifier of the last course and the open course stay as they
    are.  Without confirmation nothing changes. *)
Theorem deleteCourse_forgets_the_course (courseId : string) (app : CourseViewer) :
  let after := deleteCourse true courseId app in
  (forall id,
     assoc_get (courseLibrary after) id =
       (if String.eqb id courseId then None else assoc_get (courseLibrary app) id) /\
     assoc_get (course_progress (localStorage after)) id =
       (if String.eqb id courseId then None
        else assoc_get (course_progress (localStorage app)) id) /\
     assoc_get (last_session (localStorage after)) id =
       (if String.eqb id courseId then None
        else assoc_get (last_session (localStorage app)) id) /\
     assoc_get (handleDB after) id =
       (if String.eqb id courseId then None else assoc_get (handleDB app) id)) /\
  course_library (localStorage after) = Some (map recordOf (courseLibrary after)) /\
  last_course_id (localStorage after) = last_course_id (localStorage app) /\
  currentCourseId after = currentCourseId app /\
  courseStructure after = courseStructure app /\
  currentLesson after = currentLesson app /\
  completedLessons after = completedLessons app /\
  deleteCourse false courseId app = app.
Proof.
  cbv zeta. unfold deleteCourse.
  cbn [courseLibrary localStorage course_progress last_session handleDB last_course_id
       currentCourseId courseStructure currentLesson completedLessons course_library
       saveCourseLibrary setCourseLibrary].
  split; [intros id; rewrite !assoc_get_remove; auto|].
  split; [f_equal; apply map_ext; intros [id data]; reflexivity|].
  repeat split.
Qed.

(** ** Loading a course *)

Lemma showLessonContent_built (cmp : string -> string -> Z) (root : FileSystemHandle)
      (timestamp : Z) (app : CourseViewer) :
  parseCourseStructure cmp root = Return (courseStructure app) ->
  exists section lesson rest lessons',
    courseStructure app = section :: rest /\ lessons section = lesson :: lessons' /\
    showLessonContent timestamp app =
    match saveLastSession timestamp (setCurrentLesson (Some (0, 0)) app) with
    | Normal app' => app'
    | TypeError app' => app'
    end.
Proof.
  intros Hb. destruct (built_sections_have_lessons cmp root _ Hb) as [Hne Hall].
  unfold showLessonContent, loadLesson.
  destruct (courseStructure app) as [|section rest] eqn:E; [congruence|].
  pose proof (Hall section (or_introl eq_refl)) as Hs.
  destruct (lessons section) as [|lesson lessons'] eqn:El; [simpl in Hs; lia|].
  exists section, lesson, rest, lessons'. split; [reflexivity|]. split; [exact El|].
  destruct (Z.ltb_spec 0 (Z.of_nat (List.length (lesson :: lessons')))); [|lia].
  cbn [at_index Z.ltb Z.compare Z.to_nat nth_error]. rewrite ?El. cbn [nth_error].
  destruct (saveLastSession timestamp (setCurrentLesson (Some (0, 0)) app)); reflexivity.
Qed.

(** Extra X18.  When the builder returns a structure, [loadCourse] installs
    it, names the course after the folder, reads the stored completion set,
    registers the folder in the library and in the handle store under the
    course identifier without touching other entries, and writes the library
    to the store.  Opening then shows the first lesson, which exists, and
    records it as the last session; adding leaves the position and the
    stored sessions alone and reports the course as added. *)
Theorem successful_load_registers_course
  (cmp : string -> string -> Z) (shouldOpen : bool) (now : nat -> Z)
  (app : CourseViewer) (dirHandle : FileSystemHandle) (structure : CourseStructure) :
  directoryHandle app = Some dirHandle ->
  parseCourseStructure cmp dirHandle = Return structure ->
  let id := generateCourseId (name dirHandle) in
  let after := fst (loadCourse cmp shouldOpen now app) in
  courseStructure after = structure /\
  courseName after = name dirHandle /\
  currentCourseId after = Some id /\
  assoc_get (courseLibrary after) id =
    Some (mkCourseData (name dirHandle) (Some dirHandle) (now 0%nat) (now 1%nat)) /\
  (forall other, other <> id ->
     assoc_get (courseLibrary after) other = assoc_get (courseLibrary app) other /\
     assoc_get (handleDB after) other = assoc_get (handleDB app) other) /\
  assoc_get (handleDB after) id = Some dirHandle /\
  course_library (localStorage after) = Some (map recordOf (courseLibrary after)) /\
  completedLessons after = completedLessons (loadCourseProgress id app) /\
  course_progress (localStorage after) = course_progress (localStorage app) /\
  (if shouldOpen
   then currentLesson after = Some (0, 0) /\
        inBounds structure (0, 0) /\
        (name dirHandle <> "" ->
         last_course_id (localStorage after) = Some id /\
         exists section lesson,
           at_index structure 0 = Some section /\
           at_index (lessons section) 0 = Some lesson /\
           assoc_get (last_session (localStorage after)) id =
             Some (mkSessionData 0 0 (lesson_name lesson) (now 2%nat))) /\
        snd (loadCourse cmp shouldOpen now app) = []
   else currentLesson after = currentLesson app /\
        last_session (localStorage after) = last_session (localStorage app) /\
        last_course_id (localStorage after) = last_course_id (localStorage app) /\
        snd (loadCourse cmp shouldOpen now app) = [course_added_modal (name dirHandle)]).
Proof.
  intros Hd Hp id after.
  assert (Hload : loadCourse cmp shouldOpen now app =
            let registered :=
              saveCourseLibrary
                (mkCourseViewer (Some dirHandle) structure (currentLesson app)
                   (completedLessons (loadCourseProgress id app)) (name dirHandle)
                   (assoc_set (courseLibrary app) id
                      (mkCourseData (name dirHandle) (Some dirHandle) (now 0%nat) (now 1%nat)))
                   (Some id) (localStorage app) (assoc_set (handleDB app) id dirHandle)) in
            if shouldOpen then (showLessonContent (now 2%nat) registered, [])
            else (registered, [course_added_modal (name dirHandle)])).
  { unfold loadCourse. rewrite Hd, Hp. reflexivity. }
  unfold after. rewrite Hload. clear Hload after. cbv zeta.
  set (loaded := mkCourseViewer _ _ _ _ _ _ _ _ _).
  assert (Hb : parseCourseStructure cmp dirHandle
               = Return (courseStructure (saveCourseLibrary loaded))) by exact Hp.
  assert (Hlib : forall app', courseLibrary app' = courseLibrary loaded ->
            handleDB app' = handleDB loaded ->
            assoc_get (courseLibrary app') id =
              Some (mkCourseData (name dirHandle) (Some dirHandle) (now 0%nat) (now 1%nat)) /\
            (forall other, other <> id ->
               assoc_get (courseLibrary app') other = assoc_get (courseLibrary app) other /\
               assoc_get (handleDB app') other = assoc_get (handleDB app) other) /\
            assoc_get (handleDB app') id = Some dirHandle).
  { intros app' -> ->. cbn [loaded courseLibrary handleDB].
    split; [apply assoc_get_set|]. split; [|apply assoc_get_set].
    intros other Hne. split; now apply assoc_get_set_other. }
  destruct (Hlib (saveCourseLibrary loaded) eq_refl eq_refl) as (H1 & H2 & H3).
  pose proof (saveCourseLibrary_records loaded) as H4.
  destruct shouldOpen; cbn [fst snd].
  - destruct (showLessonContent_built cmp dirHandle (now 2%nat) _ Hb)
      as (section & lesson & rest & lessons' & Hs & Hl & ->).
    change (courseStructure (saveCourseLibrary loaded)) with structure in Hs.
    assert (Hin : inBounds structure (0, 0)).
    { exists section, lesson. rewrite Hs.
      cbn [fst snd at_index Z.ltb Z.compare Z.to_nat nth_error].
      rewrite Hl. split; reflexivity. }
    unfold saveLastSession.
    cbn [setCurrentLesson currentLesson currentCourseId courseStructure saveCourseLibrary
         loaded].
    subst structure. cbn [at_index Z.ltb Z.compare Z.to_nat nth_error]. rewrite Hl.
    cbn [nth_error].
    assert (Hid : name dirHandle <> "" -> truthyId (Some id) = Some id).
    { intros Hne. unfold id, generateCourseId, toLowerCase.
      destruct (name dirHandle); [congruence | reflexivity]. }
    destruct (truthyId (Some id)) as [k|] eqn:Ek;
      (split; [reflexivity|]); (split; [reflexivity|]); (split; [reflexivity|]);
      (split; [exact H1|]); (split; [exact H2|]); (split; [exact H3|]);
      (split; [exact H4|]);
      (split; [reflexivity|]); (split; [reflexivity|]);
      (split; [reflexivity|]); (split; [exact Hin|]); (split; [|reflexivity]);
      intros Hne; pose proof (Hid Hne) as E; [|discriminate].
    injection E as ->. cbn [localStorage last_course_id last_session].
    split; [reflexivity|]. exists section, lesson.
    cbn [at_index Z.ltb Z.compare Z.to_nat nth_error]. rewrite Hl. cbn [nth_error].
    split; [reflexivity|]. split; [reflexivity|]. apply assoc_get_set.
  - split; [reflexivity|]. split; [reflexivity|]. split; [reflexivity|].
    split; [exact H1|]. split; [exact H2|]. split; [exact H3|].
    split; [exact H4|].
    repeat split.
Qed.

Lemma successful_load_registers_course_witness :
  let app := pickDirectory intro_course newCourseViewer in
  directoryHandle app = Some intro_course /\
  parseCourseStructure collate intro_course = Return (courseStructure intro_session) /\
  courseStructure (fst (loadCourse collate true clock app)) = courseStructure intro_session /\
  currentCourseId (fst (loadCourse collate true clock app)) = Some "my_course".
Proof.
  intros app.
  assert (H1 : directoryHandle app = Some intro_course) by reflexivity.
  assert (H2 : parseCourseStructure collate intro_course
               = Return (courseStructure intro_session)) by (vm_compute; reflexivity).
  split; [exact H1|]. split; [exact H2|].
  pose proof (successful_load_registers_course collate true clock app intro_course
                (courseStructure intro_session) H1 H2) as H.
  split; [exact (proj1 H) | exact (proj1 (proj2 (proj2 H)))].
Defined.

(** ** The navigation buttons *)

(** Extra X19.  At a position inside the structure,
    [updateNavigationButtons] disables a button exactly when [navigateLesson]
    in that direction does nothing: the previous button at the first lesson
    of the course, the next button at the last. *)
Theorem buttons_agree_with_navigation (app : CourseViewer) (position : Z * Z) :
  currentLesson app = Some position ->
  inBounds (courseStructure app) position ->
  exists prevDisabled nextDisabled,
    updateNavigationButtons app = Normal (Some (prevDisabled, nextDisabled)) /\
    (prevDisabled = true <-> navigationTarget (-1) app = Normal None) /\
    (nextDisabled = true <-> navigationTarget 1 app = Normal None) /\
    (prevDisabled = true <-> isFirstLesson position) /\
    (nextDisabled = true <-> isLastLesson (courseStructure app) position).
Proof.
  intros Hcur (section & lesson & Hs & Hl). destruct position as [s l]. cbn [fst snd] in *.
  pose proof (at_index_Some _ _ _ Hs) as Bs. pose proof (at_index_Some _ _ _ Hl) as Bl.
  set (n := Z.of_nat (List.length (lessons section))) in *.
  set (m := Z.of_nat (List.length (courseStructure app))) in *.
  assert (Hprev : navigationTarget (-1) app = Normal None <-> s = 0 /\ l = 0).
  { unfold navigationTarget. rewrite Hcur.
    destruct (Z.ltb_spec (l + -1) 0) as [H0|H0].
    - destruct (Z.ltb_spec 0 s) as [H1|H1].
      + destruct (at_index_defined (courseStructure app) (s - 1)) as (prev & ->);
          [fold m; lia|].
        split; [discriminate | lia].
      + split; [lia | reflexivity].
    - rewrite Hs. fold n. destruct (Z.leb_spec n (l + -1)); [lia|].
      split; [discriminate | lia]. }
  assert (Hnext : navigationTarget 1 app = Normal None <-> m - 1 <= s /\ n - 1 <= l).
  { unfold navigationTarget. rewrite Hcur.
    destruct (Z.ltb_spec (l + 1) 0) as [H0|H0]; [lia|].
    rewrite Hs. fold n m. destruct (Z.leb_spec n (l + 1)) as [H1|H1].
    - destruct (Z.ltb_spec s (m - 1)) as [H2|H2].
      + split; [discriminate | lia].
      + split; [lia | reflexivity].
    - split; [discriminate | lia]. }
  assert (Hfirst : isFirstLesson (s, l) <-> s = 0 /\ l = 0).
  { unfold isFirstLesson. split; [intros H; injection H; auto | intros [-> ->]; reflexivity]. }
  assert (Hlast : isLastLesson (courseStructure app) (s, l) <-> m - 1 <= s /\ n - 1 <= l).
  { unfold isLastLesson. cbn [fst snd]. fold m. split.
    - intros (section' & H1 & H2 & H3). rewrite Hs in H2. injection H2 as <-. fold n in H3. lia.
    - intros [H1 H2]. exists section. fold n. repeat split; [lia | exact Hs | lia]. }
  unfold updateNavigationButtons. rewrite Hcur. fold m.
  exists (negb ((0 <? s) || (0 <? l))).
  destruct (Z.ltb_spec s (m - 1)) as [H1|H1].
  - exists false. split; [reflexivity|].
    rewrite Hprev, Hnext, Hfirst, Hlast.
    destruct (Z.ltb_spec 0 s); destruct (Z.ltb_spec 0 l); cbn [orb negb];
      repeat split; intros; try discriminate; try lia; try reflexivity.
  - rewrite Hs. fold n. exists (negb (l <? n - 1)). split; [reflexivity|].
    rewrite Hprev, Hnext, Hfirst, Hlast.
    destruct (Z.ltb_spec 0 s); destruct (Z.ltb_spec 0 l); destruct (Z.ltb_spec l (n - 1));
      cbn [orb negb];
      repeat split; intros; try discriminate; try lia; try reflexivity.
Qed.

Lemma buttons_agree_with_navigation_witness :
  currentLesson intro_session = Some (0, 0) /\
  inBounds (courseStructure intro_session) (0, 0) /\
  updateNavigationButtons intro_session = Normal (Some (true, false)) /\
  exists prevDisabled nextDisabled,
    updateNavigationButtons intro_session = Normal (Some (prevDisabled, nextDisabled)) /\
    (prevDisabled = true <-> navigationTarget (-1) intro_session = Normal None) /\
    (nextDisabled = true <-> navigationTarget 1 intro_session = Normal None) /\
    (prevDisabled = true <-> isFirstLesson (0, 0)) /\
    (nextDisabled = true <-> isLastLesson (courseStructure intro_session) (0, 0)).
Proof.
  assert (H1 : currentLesson intro_session = Some (0, 0)) by (vm_compute; reflexivity).
  assert (H2 : inBounds (courseStructure intro_session) (0, 0)).
  { vm_compute. eexists. eexists. split; reflexivity. }
  split; [exact H1|]. split; [exact H2|]. split; [vm_compute; reflexivity|].
  exact (buttons_agree_with_navigation intro_session (0, 0) H1 H2).
Defined.

(** ** Stepping there and back *)

Lemma loadLesson_keeps (timestamp sectionIndex lessonIndex : Z) (app : CourseViewer) :
  let app' := match loadLesson timestamp sectionIndex lessonIndex app with
              | Normal app' => app'
              | TypeError app' => app'
              end in
  courseStructure app' = courseStructure app /\
  completedLessons app' = completedLessons app /\
  courseLibrary app' = courseLibrary app /\
  currentCourseId app' = currentCourseId app /\
  courseName app' = courseName app /\
  directoryHandle app' = directoryHandle app /\
  handleDB app' = handleDB app /\
  course_progress (localStorage app') = course_progress (localStorage app) /\
  course_library (localStorage app') = course_library (localStorage app).
Proof.
  cbv zeta. unfold loadLesson, saveLastSession.
  destruct (at_index (courseStructure app) sectionIndex) as [section|]; [|repeat split].
  cbn [setCurrentLesson currentLesson currentCourseId courseStructure].
  destruct (truthyId (currentCourseId app)).
  - destruct (at_index (courseStructure app) sectionIndex) as [section'|]; [|repeat split].
    destruct (at_index (lessons section') lessonIndex);
      destruct (at_index (lessons section) lessonIndex); repeat split.
  - destruct (at_index (lessons section) lessonIndex); repeat split.
Qed.

Lemma step_back_target (structure : CourseStructure) (app : CourseViewer)
      (direction : Z) (position target : Z * Z) :
  courseStructure app = structure ->
  currentLesson app = Some target ->
  inBounds structure position -> inBounds structure target ->
  isNeighbour structure direction position target ->
  direction = 1 \/ direction = -1 ->
  navigationTarget (- direction) app = Normal (Some position).
Proof.
  intros Hst Hcur (section & lesson & Hs & Hl) (section' & lesson' & Hs' & Hl') Hn Hdir.
  subst structure. destruct position as [s l], target as [s' l']. cbn [fst snd] in *.
  pose proof (at_index_Some _ _ _ Hs) as Bs. pose proof (at_index_Some _ _ _ Hl) as Bl.
  pose proof (at_index_Some _ _ _ Hs') as Bs'. pose proof (at_index_Some _ _ _ Hl') as Bl'.
  unfold navigationTarget. rewrite Hcur.
  unfold isNeighbour in Hn. cbn [fst snd] in Hn.
  destruct Hn as [E | [(Hd & H0 & H1 & section'' & Hs'' & H2) | (Hd & E & section'' & Hs'' & H2)]].
  - injection E as -> ->. rewrite Hs' in Hs. injection Hs as ->.
    destruct (Z.ltb_spec (l + direction + - direction) 0); [lia|]. rewrite Hs'.
    destruct (Z.leb_spec (Z.of_nat (List.length (lessons section)))
                (l + direction + - direction)); [lia|].
    do 3 f_equal. lia.
  - subst direction l. rewrite Hs' in Hs''. injection Hs'' as <-.
    change (- -1) with 1.
    destruct (Z.ltb_spec (l' + 1) 0); [lia|]. rewrite Hs'.
    destruct (Z.leb_spec (Z.of_nat (List.length (lessons section'))) (l' + 1)); [|lia].
    destruct (Z.ltb_spec s' (Z.of_nat (List.length (courseStructure app)) - 1)); [|lia].
    do 3 f_equal. lia.
  - subst direction. injection E as -> ->. rewrite Hs in Hs''. injection Hs'' as <-.
    change (- (1)) with (-1).
    destruct (Z.ltb_spec (0 + -1) 0); [|lia].
    destruct (Z.ltb_spec 0 (s + 1)); [|lia].
    replace (s + 1 - 1) with s by lia. rewrite Hs. do 3 f_equal. lia.
Qed.

(** Extra X20.  In a structure the builder returned, a step of
    [navigateLesson] that moves, followed by a step in the opposite
    direction, comes back to the position it started from, across section
    boundaries too, with the structure and the completion set unchanged. *)
Theorem step_and_back_returns
  (cmp : string -> string -> Z) (root : FileSystemHandle) (app : CourseViewer)
  (timestamp timestamp' direction : Z) (position target : Z * Z) :
  parseCourseStructure cmp root = Return (courseStructure app) ->
  currentLesson app = Some position ->
  inBounds (courseStructure app) position ->
  direction = 1 \/ direction = -1 ->
  navigationTarget direction app = Normal (Some target) ->
  exists there back,
    navigateLesson timestamp direction app = Normal there /\
    currentLesson there = Some target /\
    navigateLesson timestamp' (- direction) there = Normal back /\
    currentLesson back = Some position /\
    courseStructure back = courseStructure app /\
    completedLessons back = completedLessons app.
Proof.
  intros Hbuilt Hcur Hin Hdir Htarget.
  destruct (built_sections_have_lessons cmp root _ Hbuilt) as [_ Hne].
  destruct (navigationTarget_in_bounds (courseStructure app) app direction position
              Hne eq_refl Hcur Hin Hdir)
    as [(target' & Ht & Hb & Hn) | (Hnone & _)]; [|congruence].
  assert (target' = target) by congruence. subst target'.
  destruct (loadLesson_in_bounds timestamp app target Hb) as (there & Hload & Hc & Hst).
  assert (Hnav : navigateLesson timestamp direction app = Normal there).
  { unfold navigateLesson. rewrite Htarget. destruct target. exact Hload. }
  assert (Hback : navigationTarget (- direction) there = Normal (Some position)).
  { apply (step_back_target (courseStructure app) there direction position target);
      assumption. }
  assert (Hin' : inBounds (courseStructure there) position) by (rewrite Hst; exact Hin).
  destruct (loadLesson_in_bounds timestamp' there position Hin') as (back & Hload' & Hc' & Hst').
  exists there, back. split; [exact Hnav|]. split; [exact Hc|]. split.
  { unfold navigateLesson. rewrite Hback. destruct position. exact Hload'. }
  split; [exact Hc'|]. split; [congruence|].
  pose proof (loadLesson_keeps timestamp (fst target) (snd target) app) as K1.
  pose proof (loadLesson_keeps timestamp' (fst position) (snd position) there) as K2.
  cbv zeta in K1, K2. rewrite Hload in K1. rewrite Hload' in K2.
  destruct K1 as (_ & K1 & _), K2 as (_ & K2 & _). congruence.
Qed.

Lemma step_and_back_returns_witness :
  parseCourseStructure collate intro_course = Return (courseStructure intro_session) /\
  currentLesson intro_session = Some (0, 0) /\
  inBounds (courseStructure intro_session) (0, 0) /\
  (1 = 1 \/ 1 = -1) /\
  navigationTarget 1 intro_session = Normal (Some (0, 1)) /\
  exists there back,
    navigateLesson 2000 1 intro_session = Normal there /\
    currentLesson there = Some (0, 1) /\
    navigateLesson 3000 (- (1)) there = Normal back /\
    currentLesson back = Some (0, 0) /\
    courseStructure back = courseStructure intro_session /\
    completedLessons back = completedLessons intro_session.
Proof.
  assert (H1 : parseCourseStructure collate intro_course
               = Return (courseStructure intro_session)) by (vm_compute; reflexivity).
  assert (H2 : currentLesson intro_session = Some (0, 0)) by (vm_compute; reflexivity).
  assert (H3 : inBounds (courseStructure intro_session) (0, 0)).
  { vm_compute. eexists. eexists. split; reflexivity. }
  assert (H4 : 1 = 1 \/ 1 = -1) by (left; reflexivity).
  assert (H5 : navigationTarget 1 intro_session = Normal (Some (0, 1)))
    by (vm_compute; reflexivity).
  split; [exact H1|]. split; [exact H2|]. split; [exact H3|]. split; [exact H4|].
  split; [exact H5|].
  exact (step_and_back_returns collate intro_course intro_session 2000 3000 1 (0, 0) (0, 1)
           H1 H2 H3 H4 H5).
Defined.

(** ** Completing a lesson and moving on *)

Lemma navigateLesson_built (cmp : string -> string -> Z) (root : FileSystemHandle)
      (timestamp : Z) (app : CourseViewer) (position : Z * Z) :
  parseCourseStructure cmp root = Return (courseStructure app) ->
  currentLesson app = Some position ->
  inBounds (courseStructure app) position ->
  exists app',
    navigateLesson timestamp 1 app = Normal app' /\
    courseStructure app' = courseStructure app /\
    completedLessons app' = completedLessons app /\
    currentCourseId app' = currentCourseId app /\
    course_progress (localStorage app') = course_progress (localStorage app) /\
    ((exists target, navigationTarget 1 app = Normal (Some target) /\
                     currentLesson app' = Some target /\
                     inBounds (courseStructure app) target) \/
     (navigationTarget 1 app = Normal None /\ currentLesson app' = Some position /\
      isLastLesson (courseStructure app) position)).
Proof.
  intros Hbuilt Hcur Hin.
  destruct (built_sections_have_lessons cmp root _ Hbuilt) as [_ Hne].
  destruct (navigationTarget_in_bounds (courseStructure app) app 1 position
              Hne eq_refl Hcur Hin (or_introl eq_refl))
    as [(target & Ht & Hb & _) | (Hnone & [[Hd _]|[_ Hlast]])]; [| lia |].
  - destruct (loadLesson_in_bounds timestamp app target Hb) as (app' & Hload & Hc & Hst).
    pose proof (loadLesson_keeps timestamp (fst target) (snd target) app) as K.
    cbv zeta in K. rewrite Hload in K. destruct K as (_ & K2 & _ & K4 & _ & _ & _ & K8 & _).
    exists app'. split; [unfold navigateLesson; rewrite Ht; destruct target; exact Hload|].
    split; [exact Hst|]. split; [exact K2|]. split; [exact K4|]. split; [exact K8|].
    left. exists target. auto.
  - exists app. split; [unfold navigateLesson; now rewrite Hnone|].
    repeat split. right. auto.
Qed.

(** Extra X21.  In a structure the builder returned and at a position
    inside it, [markCompleteAndNext] returns with the auto-play flag set, the
    current lesson added to the completion set and nothing removed from it,
    the progress stored when the lesson was not complete before, and the
    viewer at the next lesson, or still at the last lesson of the course. *)
Theorem markCompleteAndNext_completes_and_advances
  (cmp : string -> string -> Z) (root : FileSystemHandle) (timestamp : Z)
  (player : Player) (position : Z * Z) :
  parseCourseStructure cmp root = Return (courseStructure (viewer player)) ->
  currentLesson (viewer player) = Some position ->
  inBounds (courseStructure (viewer player)) position ->
  exists player',
    markCompleteAndNext timestamp player = Normal player' /\
    shouldAutoPlay player' = true /\
    courseStructure (viewer player') = courseStructure (viewer player) /\
    (forall id,
       Set_has (completedLessons (viewer player')) id =
       String.eqb id (lessonId position) || Set_has (completedLessons (viewer player)) id) /\
    (NoDup (completedLessons (viewer player)) ->
     NoDup (completedLessons (viewer player'))) /\
    (Set_has (completedLessons (viewer player)) (lessonId position) = false ->
     getCourseProgress (idText (currentCourseId (viewer player))) (viewer player') =
     updateProgressBar (viewer player')) /\
    ((exists target,
         navigationTarget 1 (viewer player) = Normal (Some target) /\
         currentLesson (viewer player') = Some target /\
         inBounds (courseStructure (viewer player)) target) \/
     (navigationTarget 1 (viewer player) = Normal None /\
      currentLesson (viewer player') = Some position /\
      isLastLesson (courseStructure (viewer player)) position)).
Proof.
  intros Hbuilt Hcur Hin. unfold markCompleteAndNext. rewrite Hcur.
  set (app := viewer player) in *.
  set (marked :=
         if negb (Set_has (completedLessons app) (lessonId position))
         then saveCourseProgress (idText (currentCourseId app))
                (setCompletedLessons (Set_add (completedLessons app) (lessonId position)) app)
         else app).
  assert (Hm : courseStructure marked = courseStructure app /\
               currentLesson marked = currentLesson app /\
               currentCourseId marked = currentCourseId app /\
               completedLessons marked = Set_add (completedLessons app) (lessonId position)).
  { unfold marked, Set_add.
    destruct (Set_has (completedLessons app) (lessonId position)); repeat split. }
  destruct Hm as (M1 & M2 & M3 & M4).
  assert (Hnav : navigationTarget 1 marked = navigationTarget 1 app)
    by (unfold navigationTarget; now rewrite M1, M2).
  assert (Hbuilt' : parseCourseStructure cmp root = Return (courseStructure marked))
    by (now rewrite M1).
  assert (Hcur' : currentLesson marked = Some position) by (now rewrite M2).
  assert (Hin' : inBounds (courseStructure marked) position) by (now rewrite M1).
  destruct (navigateLesson_built cmp root timestamp marked position Hbuilt' Hcur' Hin')
    as (app' & Hgo & N1 & N2 & N3 & N4 & N5).
  rewrite Hgo. exists (mkPlayer app' true). cbn [viewer shouldAutoPlay].
  split; [reflexivity|]. split; [reflexivity|]. split; [congruence|].
  split; [intros id; rewrite N2, M4; apply Set_has_add|].
  split; [intros Hnd; rewrite N2, M4; now apply NoDup_Set_add|].
  split.
  { intros Hnew. unfold getCourseProgress, updateProgressBar. rewrite N4, N1, N2.
    unfold marked. rewrite Hnew. cbn [negb].
    cbn [saveCourseProgress localStorage course_progress courseStructure completedLessons
         setCompletedLessons currentCourseId].
    rewrite assoc_get_set.
    cbn [progress_percentage progress_completedCount progress_totalLessons].
    now rewrite !orZero_id. }
  rewrite Hnav, M1 in N5. exact N5.
Qed.

Lemma markCompleteAndNext_completes_and_advances_witness :
  let player := mkPlayer intro_session false in
  parseCourseStructure collate intro_course = Return (courseStructure (viewer player)) /\
  currentLesson (viewer player) = Some (0, 0) /\
  inBounds (courseStructure (viewer player)) (0, 0) /\
  exists player',
    markCompleteAndNext 2000 player = Normal player' /\
    shouldAutoPlay player' = true /\
    Set_has (completedLessons (viewer player')) (lessonId (0, 0)) = true.
Proof.
  intros player.
  assert (H1 : parseCourseStructure collate intro_course
               = Return (courseStructure (viewer player))) by (vm_compute; reflexivity).
  assert (H2 : currentLesson (viewer player) = Some (0, 0)) by (vm_compute; reflexivity).
  assert (H3 : inBounds (courseStructure (viewer player)) (0, 0)).
  { vm_compute. eexists. eexists. split; reflexivity. }
  split; [exact H1|]. split; [exact H2|]. split; [exact H3|].
  destruct (markCompleteAndNext_completes_and_advances collate intro_course 2000 player (0, 0)
              H1 H2 H3) as (player' & E & Hplay & _ & Hset & _).
  exists player'. split; [exact E|]. split; [exact Hplay|].
  rewrite Hset, String.eqb_refl. reflexivity.
Defined.

(** ** Opening a course of the library *)

Lemma truthyId_Some (id : option string) (k : string) : truthyId id = Some k -> id = Some k.
Proof. destruct id as [[|c r]|]; simpl; congruence. Qed.

Lemma loadLesson_other_sessions (timestamp sectionIndex lessonIndex : Z) (app : CourseViewer)
      (other : string) :
  currentCourseId app <> Some other ->
  assoc_get (last_session (localStorage
     (stateAfter (loadLesson timestamp sectionIndex lessonIndex app)))) other =
  assoc_get (last_session (localStorage app)) other.
Proof.
  intros Hne. unfold loadLesson, saveLastSession.
  destruct (at_index (courseStructure app) sectionIndex) as [section|]; [|reflexivity].
  cbn [setCurrentLesson currentLesson currentCourseId courseStructure].
  destruct (truthyId (currentCourseId app)) as [k|] eqn:Ek.
  - apply truthyId_Some in Ek.
    destruct (at_index (courseStructure app) sectionIndex) as [section'|]; [|reflexivity].
    assert (Hk : other <> k) by congruence.
    destruct (at_index (lessons section') lessonIndex);
      destruct (at_index (lessons section) lessonIndex);
      cbn [stateAfter localStorage last_session]; try reflexivity;
      now apply assoc_get_set_other.
  - destruct (at_index (lessons section) lessonIndex); reflexivity.
Qed.

Lemma showLessonContent_is_loadLesson (timestamp : Z) (app : CourseViewer) :
  showLessonContent timestamp app = app \/
  showLessonContent timestamp app = stateAfter (loadLesson timestamp 0 0 app).
Proof.
  unfold showLessonContent. destruct (courseStructure app) as [|section rest]; [now left|].
  destruct (0 <? Z.of_nat (List.length (lessons section))); [right | now left].
  destruct (loadLesson timestamp 0 0 app); reflexivity.
Qed.

Lemma SameOtherCourses_refl (courseId : string) (app : CourseViewer) :
  SameOtherCourses courseId app app.
Proof. split; [reflexivity | intros; repeat split]. Qed.

Lemma SameOtherCourses_trans (courseId : string) (a b c : CourseViewer) :
  SameOtherCourses courseId a b -> SameOtherCourses courseId b c ->
  SameOtherCourses courseId a c.
Proof.
  intros [P1 H1] [P2 H2]. split; [congruence|]. intros other Hne.
  destruct (H1 other Hne) as (A1 & A2 & A3), (H2 other Hne) as (B1 & B2 & B3).
  repeat split; congruence.
Qed.

Lemma SameOtherCourses_loadLesson (courseId : string) (timestamp s l : Z) (app : CourseViewer) :
  currentCourseId app = Some courseId ->
  SameOtherCourses courseId app (stateAfter (loadLesson timestamp s l app)).
Proof.
  intros Hid. pose proof (loadLesson_keeps timestamp s l app) as K. cbv zeta in K.
  change (match loadLesson timestamp s l app with
          | Normal app' => app' | TypeError app' => app' end)
    with (stateAfter (loadLesson timestamp s l app)) in K.
  destruct K as (_ & _ & K3 & _ & _ & _ & K7 & K8 & _).
  split; [exact K8|]. intros other Hne. rewrite K3, K7.
  split; [reflexivity|]. split; [reflexivity|].
  apply loadLesson_other_sessions. congruence.
Qed.

Lemma SameOtherCourses_library (courseId : string) (app : CourseViewer)
      (library : list (string * CourseData)) :
  (forall other, other <> courseId ->
     assoc_get library other = assoc_get (courseLibrary app) other) ->
  SameOtherCourses courseId app (saveCourseLibrary (setCourseLibrary library app)).
Proof. intros H. split; [reflexivity|]. intros other Hne. repeat split. now apply H. Qed.

Lemma SameOtherCourses_dropFromLibrary (courseId : string) (app : CourseViewer) :
  SameOtherCourses courseId app (dropFromLibrary courseId app).
Proof.
  apply SameOtherCourses_library. intros other Hne. rewrite assoc_get_remove.
  destruct (String.eqb_spec other courseId); [contradiction | reflexivity].
Qed.

Lemma SameOtherCourses_setEntryHandle (courseId : string) (h : FileSystemHandle)
      (app : CourseViewer) :
  SameOtherCourses courseId app (setEntryHandle courseId h app).
Proof.
  unfold setEntryHandle. destruct (assoc_get (courseLibrary app) courseId);
    [|apply SameOtherCourses_refl].
  split; [reflexivity|]. intros other Hne. repeat split.
  cbn [setCourseLibrary courseLibrary]. now apply assoc_get_set_other.
Qed.

Lemma SameOtherCourses_setEntryLastAccessed (courseId : string) (time : Z)
      (app : CourseViewer) :
  SameOtherCourses courseId app (setEntryLastAccessed courseId time app).
Proof.
  unfold setEntryLastAccessed. destruct (assoc_get (courseLibrary app) courseId);
    [|apply SameOtherCourses_refl].
  split; [reflexivity|]. intros other Hne. repeat split.
  cbn [setCourseLibrary courseLibrary]. now apply assoc_get_set_other.
Qed.

Lemma SameOtherCourses_fields (courseId : string) (app app' : CourseViewer) :
  courseLibrary app' = courseLibrary app ->
  handleDB app' = handleDB app ->
  course_progress (localStorage app') = course_progress (localStorage app) ->
  last_session (localStorage app') = last_session (localStorage app) ->
  SameOtherCourses courseId app app'.
Proof.
  intros H1 H2 H3 H4. split; [exact H3|]. intros other _. now rewrite H1, H2, H4.
Qed.

Lemma SameOtherCourses_openFromLibrary (cmp : string -> string -> Z) (courseId libraryName : string)
      (now : nat -> Z) (app : CourseViewer) :
  SameOtherCourses courseId app
    (stateReached (openFromLibrary cmp courseId libraryName now app)).
Proof.
  unfold openFromLibrary.
  set (named := mkCourseViewer _ _ _ _ libraryName _ (Some courseId) _ _).
  set (stamped := saveCourseLibrary (setEntryLastAccessed courseId (now 0%nat) named)).
  assert (S1 : SameOtherCourses courseId app stamped).
  { apply (SameOtherCourses_trans _ _ named);
      [apply SameOtherCourses_fields; reflexivity|].
    apply (SameOtherCourses_trans _ _ (setEntryLastAccessed courseId (now 0%nat) named));
      [apply SameOtherCourses_setEntryLastAccessed|].
    apply SameOtherCourses_fields; reflexivity. }
  assert (Hid : currentCourseId stamped = Some courseId).
  { unfold stamped, setEntryLastAccessed.
    destruct (assoc_get (courseLibrary named) courseId); reflexivity. }
  destruct (directoryHandle stamped) as [dirHandle|]; [|exact S1].
  destruct (parseCourseStructure cmp dirHandle) as [structure|message]; [|exact S1].
  set (built := loadCourseProgress courseId (mkCourseViewer _ structure _ _ _ _ _ _ _)).
  assert (S2 : SameOtherCourses courseId app built).
  { apply (SameOtherCourses_trans _ _ stamped); [exact S1|].
    apply SameOtherCourses_fields; reflexivity. }
  assert (Hid' : currentCourseId built = Some courseId) by exact Hid.
  destruct (loadLastSessionForCourse courseId built) as [lastSession|].
  - pose proof (SameOtherCourses_loadLesson courseId (now 1%nat)
                  (session_sectionIndex lastSession) (session_lessonIndex lastSession)
                  built Hid') as S3.
    destruct (loadLesson (now 1%nat) (session_sectionIndex lastSession)
                (session_lessonIndex lastSession) built);
      apply (SameOtherCourses_trans _ _ built); assumption.
  - cbn [stateReached].
    destruct (showLessonContent_is_loadLesson (now 1%nat) built) as [-> | ->];
      [exact S2|].
    apply (SameOtherCourses_trans _ _ built); [exact S2|].
    now apply SameOtherCourses_loadLesson.
Qed.

(** Extra X22.  However [loadCourseFromLibrary] ends, it changes no stored
    progress record, and of the other courses neither the library entry nor
    the stored handle nor the last session. *)
Theorem library_load_keeps_other_courses
  (cmp : string -> string -> Z) (courseId : string) (access : HandleAccess)
  (picker : PickerResult) (now : nat -> Z) (app : CourseViewer) :
  SameOtherCourses courseId app
    (fst (loadCourseFromLibrary cmp courseId access picker now app)).
Proof.
  unfold loadCourseFromLibrary.
  destruct (assoc_get (courseLibrary app) courseId) as [courseData|];
    [|apply SameOtherCourses_refl].
  assert (Hfinish : forall modals before,
            SameOtherCourses courseId app before ->
            SameOtherCourses courseId app
              (fst match openFromLibrary cmp courseId (course_name courseData) now before with
                   | Completed app' => (app', modals)
                   | Threw app' =>
                       (dropFromLibrary courseId app', modals ++ [library_error_modal])
                   end)).
  { intros modals before Hb.
    pose proof (SameOtherCourses_openFromLibrary cmp courseId (course_name courseData)
                  now before) as Ho.
    destruct (openFromLibrary cmp courseId (course_name courseData) now before) as [r|r];
      cbn [fst stateReached] in *.
    - now apply (SameOtherCourses_trans _ _ before).
    - apply (SameOtherCourses_trans _ _ before); [exact Hb|].
      apply (SameOtherCourses_trans _ _ r); [exact Ho|].
      apply SameOtherCourses_dropFromLibrary. }
  assert (Hreselect :
            SameOtherCourses courseId app
              (fst match picker with
                   | picker_aborted => (app, [select_folder_modal (course_name courseData)])
                   | picker_failed =>
                       (dropFromLibrary courseId app,
                        [select_folder_modal (course_name courseData)]
                          ++ [library_error_modal])
                   | picked dirHandle =>
                       if negb (String.eqb (name dirHandle) (course_name courseData))
                       then (setDirectoryHandle dirHandle app,
                             [select_folder_modal (course_name courseData)]
                               ++ [wrong_folder_modal (name dirHandle)
                                     (course_name courseData)])
                       else
                         match openFromLibrary cmp courseId (course_name courseData) now
                                 (setEntryHandle courseId dirHandle
                                    (mkCourseViewer
                                       (directoryHandle (setDirectoryHandle dirHandle app))
                                       (courseStructure (setDirectoryHandle dirHandle app))
                                       (currentLesson (setDirectoryHandle dirHandle app))
                                       (completedLessons (setDirectoryHandle dirHandle app))
                                       (courseName (setDirectoryHandle dirHandle app))
                                       (courseLibrary (setDirectoryHandle dirHandle app))
                                       (currentCourseId (setDirectoryHandle dirHandle app))
                                       (localStorage (setDirectoryHandle dirHandle app))
                                       (assoc_set
                                          (handleDB (setDirectoryHandle dirHandle app))
                                          courseId dirHandle))) with
                         | Completed app' =>
                             (app', [select_folder_modal (course_name courseData)])
                         | Threw app' =>
                             (dropFromLibrary courseId app',
                              [select_folder_modal (course_name courseData)]
                                ++ [library_error_modal])
                         end
                   end)).
  { destruct picker as [dirHandle| |]; cbn [fst].
    - destruct (negb (String.eqb (name dirHandle) (course_name courseData))).
      + apply SameOtherCourses_fields; reflexivity.
      + apply Hfinish.
        eapply SameOtherCourses_trans; [|apply SameOtherCourses_setEntryHandle].
        split; [reflexivity|]. intros other Hne. repeat split.
        cbn [handleDB setDirectoryHandle]. now apply assoc_get_set_other.
    - apply SameOtherCourses_refl.
    - apply SameOtherCourses_dropFromLibrary. }
  destruct (assoc_get (handleDB app) courseId) as [handle|]; [|exact Hreselect].
  destruct access.
  - apply Hfinish.
    eapply SameOtherCourses_trans; [|apply SameOtherCourses_setEntryHandle].
    apply SameOtherCourses_fields; reflexivity.
  - apply SameOtherCourses_refl.
  - exact Hreselect.
Qed.

Lemma openFromLibrary_resumes (cmp : string -> string -> Z) (courseId : string)
      (now : nat -> Z) (before : CourseViewer) (courseData : CourseData)
      (handle : FileSystemHandle) (structure : CourseStructure) (lastSession : SessionData) :
  assoc_get (courseLibrary before) courseId = Some courseData ->
  directoryHandle before = Some handle ->
  parseCourseStructure cmp handle = Return structure ->
  loadLastSessionForCourse courseId before = Some lastSession ->
  inBounds structure (session_sectionIndex lastSession, session_lessonIndex lastSession) ->
  exists after,
    openFromLibrary cmp courseId (course_name courseData) now before = Completed after /\
    courseStructure after = structure /\
    currentLesson after =
      Some (session_sectionIndex lastSession, session_lessonIndex lastSession) /\
    completedLessons after = completedLessons (loadCourseProgress courseId before) /\
    courseName after = course_name courseData /\
    currentCourseId after = Some courseId /\
    directoryHandle after = Some handle /\
    courseLibrary after =
      assoc_set (courseLibrary before) courseId
        (mkCourseData (course_name courseData) (course_handle courseData)
           (addedDate courseData) (now 0%nat)) /\
    course_library (localStorage after) = Some (map recordOf (courseLibrary after)) /\
    handleDB after = handleDB before.
Proof.
  intros Hget Hd Hp Hsession Hin.
  unfold openFromLibrary, setEntryLastAccessed.
  cbn [courseLibrary]. rewrite Hget.
  cbn [saveCourseLibrary setCourseLibrary directoryHandle courseStructure currentLesson
       completedLessons courseName courseLibrary currentCourseId localStorage handleDB].
  rewrite Hd, Hp.
  unfold loadLastSessionForCourse in *.
  cbn [loadCourseProgress localStorage last_session course_progress directoryHandle
       courseStructure currentLesson completedLessons courseName courseLibrary
       currentCourseId handleDB].
  rewrite Hsession.
  match goal with
  | |- context [loadLesson _ _ _ ?b] => set (built := b)
  end.
  assert (Hin' : inBounds (courseStructure built)
                   (session_sectionIndex lastSession, session_lessonIndex lastSession))
    by exact Hin.
  destruct (loadLesson_in_bounds (now 1%nat) built _ Hin') as (after & Hload & Hc & Hst).
  pose proof (loadLesson_keeps (now 1%nat) (session_sectionIndex lastSession)
                (session_lessonIndex lastSession) built) as K.
  cbv zeta in K. cbn [fst snd] in Hload. rewrite Hload in *.
  destruct K as (K1 & K2 & K3 & K4 & K5 & K6 & K7 & K8 & K9).
  exists after. split; [reflexivity|].
  split; [exact K1|]. split; [exact Hc|]. split; [exact K2|]. split; [exact K5|].
  split; [exact K4|]. split; [exact K6|]. split; [exact K3|].
  split; [|exact K7].
  rewrite K9, K3. unfold built, loadCourseProgress.
  cbn [localStorage course_library courseLibrary]. f_equal.
  apply map_ext. intros [k data]. reflexivity.
Qed.

(** Extra X23.  With a stored handle that grants access, a folder the
    builder accepts and a stored last session inside the structure,
    [loadCourseFromLibrary] shows no modal and resumes at the stored
    position, with the stored completion set, the handle recorded in the
    library entry, and the entry's time of last access updated and written
    to the store. *)
Theorem library_load_resumes_last_session
  (cmp : string -> string -> Z) (courseId : string) (picker : PickerResult)
  (now : nat -> Z) (app : CourseViewer) (courseData : CourseData)
  (handle : FileSystemHandle) (structure : CourseStructure) (lastSession : SessionData) :
  assoc_get (courseLibrary app) courseId = Some courseData ->
  assoc_get (handleDB app) courseId = Some handle ->
  parseCourseStructure cmp handle = Return structure ->
  loadLastSessionForCourse courseId app = Some lastSession ->
  inBounds structure (session_sectionIndex lastSession, session_lessonIndex lastSession) ->
  let result := loadCourseFromLibrary cmp courseId access_granted picker now app in
  snd result = [] /\
  courseStructure (fst result) = structure /\
  currentLesson (fst result) =
    Some (session_sectionIndex lastSession, session_lessonIndex lastSession) /\
  completedLessons (fst result) = completedLessons (loadCourseProgress courseId app) /\
  courseName (fst result) = course_name courseData /\
  currentCourseId (fst result) = Some courseId /\
  directoryHandle (fst result) = Some handle /\
  assoc_get (courseLibrary (fst result)) courseId =
    Some (mkCourseData (course_name courseData) (Some handle) (addedDate courseData)
            (now 0%nat)) /\
  course_library (localStorage (fst result)) =
    Some (map recordOf (courseLibrary (fst result))) /\
  handleDB (fst result) = handleDB app.
Proof.
  intros Hget Hh Hp Hsession Hin result. unfold result, loadCourseFromLibrary.
  rewrite Hget, Hh.
  set (before := setEntryHandle courseId handle (setDirectoryHandle handle app)).
  assert (Hb : before =
               setCourseLibrary
                 (assoc_set (courseLibrary app) courseId
                    (mkCourseData (course_name courseData) (Some handle)
                       (addedDate courseData) (lastAccessed courseData)))
                 (setDirectoryHandle handle app)).
  { unfold before, setEntryHandle. cbn [setDirectoryHandle courseLibrary].
    now rewrite Hget. }
  assert (Hget' : assoc_get (courseLibrary before) courseId =
                  Some (mkCourseData (course_name courseData) (Some handle)
                          (addedDate courseData) (lastAccessed courseData))).
  { rewrite Hb. cbn [setCourseLibrary courseLibrary]. apply assoc_get_set. }
  assert (Hd : directoryHandle before = Some handle) by (rewrite Hb; reflexivity).
  assert (Hs : loadLastSessionForCourse courseId before = Some lastSession)
    by (rewrite Hb; exact Hsession).
  destruct (openFromLibrary_resumes cmp courseId now before _ handle structure lastSession
              Hget' Hd Hp Hs Hin)
    as (after & Hopen & A1 & A2 & A3 & A4 & A5 & A6 & A7 & A8 & A9).
  cbn [course_name course_handle addedDate] in Hopen, A7. rewrite Hopen. cbn [fst snd].
  split; [reflexivity|]. split; [exact A1|]. split; [exact A2|].
  split; [rewrite A3, Hb; reflexivity|]. split; [exact A4|]. split; [exact A5|].
  split; [exact A6|]. split; [rewrite A7; apply assoc_get_set|].
  split; [exact A8|]. rewrite A9, Hb. reflexivity.
Qed.

Lemma library_load_resumes_last_session_witness :
  let result :=
    loadCourseFromLibrary collate "my_course" access_granted picker_aborted clock
      resuming_viewer in
  assoc_get (courseLibrary resuming_viewer) "my_course"
    = Some (mkCourseData "My Course" None 1000 1001) /\
  assoc_get (handleDB resuming_viewer) "my_course" = Some intro_course /\
  parseCourseStructure collate intro_course = Return (courseStructure intro_session) /\
  loadLastSessionForCourse "my_course" resuming_viewer
    = Some (mkSessionData 0 1 "Setup" 1500) /\
  inBounds (courseStructure intro_session) (0, 1) /\
  snd result = [] /\
  currentLesson (fst result) = Some (0, 1) /\
  completedLessons (fst result) = ["0-0"].
Proof.
  intros result.
  assert (H1 : assoc_get (courseLibrary resuming_viewer) "my_course"
               = Some (mkCourseData "My Course" None 1000 1001)) by reflexivity.
  assert (H2 : assoc_get (handleDB resuming_viewer) "my_course" = Some intro_course)
    by reflexivity.
  assert (H3 : parseCourseStructure collate intro_course
               = Return (courseStructure intro_session)) by (vm_compute; reflexivity).
  assert (H4 : loadLastSessionForCourse "my_course" resuming_viewer
               = Some (mkSessionData 0 1 "Setup" 1500)) by reflexivity.
  assert (H5 : inBounds (courseStructure intro_session)
                 (session_sectionIndex (mkSessionData 0 1 "Setup" 1500),
                  session_lessonIndex (mkSessionData 0 1 "Setup" 1500))).
  { vm_compute. eexists. eexists. split; reflexivity. }
  split; [exact H1|]. split; [exact H2|]. split; [exact H3|]. split; [exact H4|].
  split; [exact H5|].
  pose proof (library_load_resumes_last_session collate "my_course" picker_aborted clock
                resuming_viewer _ intro_course _ _ H1 H2 H3 H4 H5) as H.
  cbv zeta in H. destruct H as (R1 & _ & R3 & R4 & _). unfold result.
  split; [exact R1|]. split; [exact R3|]. rewrite R4. vm_compute; reflexivity.
Defined.

Lemma loadLesson_Normal (timestamp sectionIndex lessonIndex : Z) (app app' : CourseViewer) :
  loadLesson timestamp sectionIndex lessonIndex app = Normal app' ->
  inBounds (courseStructure app) (sectionIndex, lessonIndex).
Proof.
  unfold loadLesson, inBounds. cbn [fst snd].
  destruct (at_index (courseStructure app) sectionIndex) as [section|] eqn:Es;
    [|discriminate].
  destruct (saveLastSession timestamp (setCurrentLesson (Some (sectionIndex, lessonIndex)) app));
    [|discriminate].
  destruct (at_index (lessons section) lessonIndex) as [lesson|] eqn:El; [|discriminate].
  intros _. exists section, lesson. split; [reflexivity | exact El].
Qed.

Lemma loadLesson_TypeError (timestamp sectionIndex lessonIndex : Z) (app app' : CourseViewer) :
  loadLesson timestamp sectionIndex lessonIndex app = TypeError app' ->
  localStorage app' = localStorage app /\ courseLibrary app' = courseLibrary app /\
  handleDB app' = handleDB app /\ currentCourseId app' = currentCourseId app.
Proof.
  unfold loadLesson, saveLastSession.
  destruct (at_index (courseStructure app) sectionIndex) as [section|] eqn:Es;
    [|intros H; injection H as <-; repeat split].
  cbn [setCurrentLesson currentLesson currentCourseId courseStructure]. rewrite Es.
  destruct (truthyId (currentCourseId app));
    destruct (at_index (lessons section) lessonIndex); try discriminate;
    intros H; injection H as <-; repeat split.
Qed.

Lemma openFromLibrary_fails (cmp : string -> string -> Z) (courseId : string)
      (now : nat -> Z) (before : CourseViewer) (courseData : CourseData)
      (handle : FileSystemHandle) :
  assoc_get (courseLibrary before) courseId = Some courseData ->
  directoryHandle before = Some handle ->
  (exists message, parseCourseStructure cmp handle = Throw message) \/
  (exists structure lastSession,
      parseCourseStructure cmp handle = Return structure /\
      loadLastSessionForCourse courseId before = Some lastSession /\
      ~ inBounds structure
          (session_sectionIndex lastSession, session_lessonIndex lastSession)) ->
  exists reached,
    openFromLibrary cmp courseId (course_name courseData) now before = Threw reached /\
    handleDB reached = handleDB before /\
    course_progress (localStorage reached) = course_progress (localStorage before) /\
    last_session (localStorage reached) = last_session (localStorage before) /\
    last_course_id (localStorage reached) = last_course_id (localStorage before) /\
    currentCourseId reached = Some courseId.
Proof.
  intros Hget Hd Hfail.
  unfold openFromLibrary, setEntryLastAccessed.
  cbn [courseLibrary]. rewrite Hget.
  cbn [saveCourseLibrary setCourseLibrary directoryHandle courseStructure currentLesson
       completedLessons courseName courseLibrary currentCourseId localStorage handleDB].
  rewrite Hd.
  destruct Hfail as [(message & Hp) | (structure & lastSession & Hp & Hsession & Hout)];
    rewrite Hp.
  - eexists. split; [reflexivity|]. repeat split.
  - unfold loadLastSessionForCourse in *.
    cbn [loadCourseProgress localStorage last_session course_progress directoryHandle
         courseStructure currentLesson completedLessons courseName courseLibrary
         currentCourseId handleDB].
    rewrite Hsession.
    match goal with
    | |- context [loadLesson _ _ _ ?b] => set (built := b)
    end.
    destruct (loadLesson (now 1%nat) (session_sectionIndex lastSession)
                (session_lessonIndex lastSession) built) as [after|reached] eqn:El.
    + exfalso. apply Hout. exact (loadLesson_Normal _ _ _ _ _ El).
    + apply loadLesson_TypeError in El as (E1 & E2 & E3 & E4).
      exists reached. split; [reflexivity|]. rewrite E1, E3, E4. repeat split.
Qed.

(** Extra X24.  When the builder rejects the folder of a stored handle, or
    the stored last session lies outside the structure it built,
    [loadCourseFromLibrary] shows the error modal and removes the course from
    the library and from the stored library, while the course's stored
    progress, last session and handle stay behind. *)
Theorem failed_library_load_drops_entry_only
  (cmp : string -> string -> Z) (courseId : string) (picker : PickerResult)
  (now : nat -> Z) (app : CourseViewer) (courseData : CourseData)
  (handle : FileSystemHandle) :
  assoc_get (courseLibrary app) courseId = Some courseData ->
  assoc_get (handleDB app) courseId = Some handle ->
  (exists message, parseCourseStructure cmp handle = Throw message) \/
  (exists structure lastSession,
      parseCourseStructure cmp handle = Return structure /\
      loadLastSessionForCourse courseId app = Some lastSession /\
      ~ inBounds structure
          (session_sectionIndex lastSession, session_lessonIndex lastSession)) ->
  let result := loadCourseFromLibrary cmp courseId access_granted picker now app in
  snd result = [library_error_modal] /\
  assoc_get (courseLibrary (fst result)) courseId = None /\
  course_library (localStorage (fst result)) =
    Some (map recordOf (courseLibrary (fst result))) /\
  handleDB (fst result) = handleDB app /\
  course_progress (localStorage (fst result)) = course_progress (localStorage app) /\
  last_session (localStorage (fst result)) = last_session (localStorage app) /\
  last_course_id (localStorage (fst result)) = last_course_id (localStorage app) /\
  currentCourseId (fst result) = Some courseId.
Proof.
  intros Hget Hh Hfail result. unfold result, loadCourseFromLibrary.
  rewrite Hget, Hh.
  set (before := setEntryHandle courseId handle (setDirectoryHandle handle app)).
  assert (Hb : before =
               setCourseLibrary
                 (assoc_set (courseLibrary app) courseId
                    (mkCourseData (course_name courseData) (Some handle)
                       (addedDate courseData) (lastAccessed courseData)))
                 (setDirectoryHandle handle app)).
  { unfold before, setEntryHandle. cbn [setDirectoryHandle courseLibrary].
    now rewrite Hget. }
  assert (Hget' : assoc_get (courseLibrary before) courseId =
                  Some (mkCourseData (course_name courseData) (Some handle)
                          (addedDate courseData) (lastAccessed courseData))).
  { rewrite Hb. cbn [setCourseLibrary courseLibrary]. apply assoc_get_set. }
  assert (Hd : directoryHandle before = Some handle) by (rewrite Hb; reflexivity).
  assert (Hfail' :
            (exists message, parseCourseStructure cmp handle = Throw message) \/
            (exists structure lastSession,
                parseCourseStructure cmp handle = Return structure /\
                loadLastSessionForCourse courseId before = Some lastSession /\
                ~ inBounds structure
                    (session_sectionIndex lastSession, session_lessonIndex lastSession)))
    by (rewrite Hb; exact Hfail).
  destruct (openFromLibrary_fails cmp courseId now before _ handle Hget' Hd Hfail')
    as (reached & Hopen & R1 & R2 & R3 & R4 & R5).
  cbn [course_name] in Hopen. rewrite Hopen. cbn [fst snd List.app].
  split; [reflexivity|].
  split; [unfold dropFromLibrary; cbn [saveCourseLibrary setCourseLibrary courseLibrary];
          rewrite assoc_get_remove, String.eqb_refl; reflexivity|].
  split; [exact (saveCourseLibrary_records
                   (setCourseLibrary (assoc_remove (courseLibrary reached) courseId)
                      reached))|].
  unfold dropFromLibrary.
  cbn [saveCourseLibrary setCourseLibrary handleDB localStorage course_progress
       last_session last_course_id currentCourseId].
  rewrite R1, R2, R3, R4, R5, Hb. repeat split.
Qed.

Lemma failed_library_load_drops_entry_only_witness :
  let result :=
    loadCourseFromLibrary collate "my_course" access_granted picker_aborted clock
      shrunk_viewer in
  assoc_get (courseLibrary shrunk_viewer) "my_course"
    = Some (mkCourseData "My Course" None 1000 1001) /\
  assoc_get (handleDB shrunk_viewer) "my_course" = Some intro_course /\
  ((exists message, parseCourseStructure collate intro_course = Throw message) \/
   (exists structure lastSession,
       parseCourseStructure collate intro_course = Return structure /\
       loadLastSessionForCourse "my_course" shrunk_viewer = Some lastSession /\
       ~ inBounds structure
           (session_sectionIndex lastSession, session_lessonIndex lastSession))) /\
  snd result = [library_error_modal] /\
  assoc_get (courseLibrary (fst result)) "my_course" = None /\
  assoc_get (course_progress (localStorage (fst result))) "my_course"
    = Some (mkProgressData "My Course" ["0-0"] 1 3 33) /\
  assoc_get (handleDB (fst result)) "my_course" = Some intro_course.
Proof.
  intros result.
  assert (H1 : assoc_get (courseLibrary shrunk_viewer) "my_course"
               = Some (mkCourseData "My Course" None 1000 1001)) by reflexivity.
  assert (H2 : assoc_get (handleDB shrunk_viewer) "my_course" = Some intro_course)
    by reflexivity.
  assert (H3 : (exists message, parseCourseStructure collate intro_course = Throw message) \/
               (exists structure lastSession,
                   parseCourseStructure collate intro_course = Return structure /\
                   loadLastSessionForCourse "my_course" shrunk_viewer = Some lastSession /\
                   ~ inBounds structure
                       (session_sectionIndex lastSession, session_lessonIndex lastSession))).
  { right. exists (courseStructure intro_session), (mkSessionData 0 2 "Outro" 1500).
    split; [vm_compute; reflexivity|]. split; [reflexivity|].
    intros (section & lesson & Hs & Hl). vm_compute in Hs. injection Hs as <-.
    vm_compute in Hl. discriminate. }
  split; [exact H1|]. split; [exact H2|]. split; [exact H3|].
  pose proof (failed_library_load_drops_entry_only collate "my_course" picker_aborted clock
                shrunk_viewer _ intro_course H1 H2 H3) as H.
  cbv zeta in H. destruct H as (R1 & R2 & _ & R4 & R5 & _). unfold result.
  split; [exact R1|]. split; [exact R2|].
  split; [rewrite R5; reflexivity | rewrite R4; reflexivity].
Defined.

Lemma openFromLibrary_library (cmp : string -> string -> Z) (courseId libraryName : string)
      (now : nat -> Z) (before : CourseViewer) (courseData : CourseData) :
  assoc_get (courseLibrary before) courseId = Some courseData ->
  courseLibrary (stateReached (openFromLibrary cmp courseId libraryName now before)) =
  assoc_set (courseLibrary before) courseId
    (mkCourseData (course_name courseData) (course_handle courseData)
       (addedDate courseData) (now 0%nat)).
Proof.
  intros Hget. unfold openFromLibrary, setEntryLastAccessed.
  cbn [courseLibrary]. rewrite Hget.
  cbn [saveCourseLibrary setCourseLibrary directoryHandle courseStructure currentLesson
       completedLessons courseName courseLibrary currentCourseId localStorage handleDB].
  destruct (directoryHandle before) as [dirHandle|]; [|reflexivity].
  destruct (parseCourseStructure cmp dirHandle) as [structure|message]; [|reflexivity].
  match goal with
  | |- context [showLessonContent _ ?b] => set (built := b)
  end.
  destruct (loadLastSessionForCourse courseId built) as [lastSession|].
  - pose proof (loadLesson_keeps (now 1%nat) (session_sectionIndex lastSession)
                  (session_lessonIndex lastSession) built) as K.
    cbv zeta in K. destruct K as (_ & _ & K & _).
    destruct (loadLesson (now 1%nat) (session_sectionIndex lastSession)
                (session_lessonIndex lastSession) built); exact K.
  - cbn [stateReached].
    destruct (showLessonContent_is_loadLesson (now 1%nat) built) as [-> | ->];
      [reflexivity|].
    pose proof (loadLesson_keeps (now 1%nat) 0 0 built) as K.
    cbv zeta in K. destruct K as (_ & _ & K & _).
    destruct (loadLesson (now 1%nat) 0 0 built); exact K.
Qed.

Lemma not_error_modal (modal : Modal) :
  modal_title modal <> "Error" -> [modal] <> [library_error_modal] /\
  ~ In library_error_modal [modal].
Proof.
  intros H. split.
  - intros E. injection E as E. apply H. now rewrite E.
  - intros [E|[]]. apply H. now rewrite E.
Qed.

(** Extra X25.  [loadCourseFromLibrary] on a course of the library removes
    it from the library exactly when it shows the error modal: a refused
    permission, an aborted picker, a folder of another name and a successful
    load all keep the entry. *)
Theorem course_leaves_library_iff_error_shown
  (cmp : string -> string -> Z) (courseId : string) (access : HandleAccess)
  (picker : PickerResult) (now : nat -> Z) (app : CourseViewer) (courseData : CourseData) :
  assoc_get (courseLibrary app) courseId = Some courseData ->
  let result := loadCourseFromLibrary cmp courseId access picker now app in
  In library_error_modal (snd result) <->
  assoc_get (courseLibrary (fst result)) courseId = None.
Proof.
  intros Hget result. unfold result, loadCourseFromLibrary. rewrite Hget.
  assert (Hdrop : forall reached,
            assoc_get (courseLibrary (dropFromLibrary courseId reached)) courseId = None).
  { intros reached. unfold dropFromLibrary.
    cbn [saveCourseLibrary setCourseLibrary courseLibrary].
    now rewrite assoc_get_remove, String.eqb_refl. }
  assert (Hfinish : forall modals before,
            ~ In library_error_modal modals ->
            assoc_get (courseLibrary before) courseId <> None ->
            let r := match openFromLibrary cmp courseId (course_name courseData) now before with
                     | Completed app' => (app', modals)
                     | Threw app' =>
                         (dropFromLibrary courseId app', modals ++ [library_error_modal])
                     end in
            In library_error_modal (snd r) <->
            assoc_get (courseLibrary (fst r)) courseId = None).
  { intros modals before Hm Hb r. unfold r.
    destruct (assoc_get (courseLibrary before) courseId) as [data|] eqn:E; [|congruence].
    pose proof (openFromLibrary_library cmp courseId (course_name courseData) now before
                  data E) as Hl.
    destruct (openFromLibrary cmp courseId (course_name courseData) now before) as [a|a];
      cbn [fst snd stateReached] in *.
    - rewrite Hl, assoc_get_set. split; [contradiction | discriminate].
    - split; [intros _; apply Hdrop|]. intros _. apply in_or_app. right. now left. }
  assert (Hselect : ~ In library_error_modal [select_folder_modal (course_name courseData)])
    by (apply not_error_modal; discriminate).
  assert (Hreselect : forall r,
            r = match picker with
                | picker_aborted => (app, [select_folder_modal (course_name courseData)])
                | picker_failed =>
                    (dropFromLibrary courseId app,
                     [select_folder_modal (course_name courseData)] ++ [library_error_modal])
                | picked dirHandle =>
                    if negb (String.eqb (name dirHandle) (course_name courseData))
                    then (setDirectoryHandle dirHandle app,
                          [select_folder_modal (course_name courseData)]
                            ++ [wrong_folder_modal (name dirHandle) (course_name courseData)])
                    else
                      match openFromLibrary cmp courseId (course_name courseData) now
                              (setEntryHandle courseId dirHandle
                                 (mkCourseViewer
                                    (directoryHandle (setDirectoryHandle dirHandle app))
                                    (courseStructure (setDirectoryHandle dirHandle app))
                                    (currentLesson (setDirectoryHandle dirHandle app))
                                    (completedLessons (setDirectoryHandle dirHandle app))
                                    (courseName (setDirectoryHandle dirHandle app))
                                    (courseLibrary (setDirectoryHandle dirHandle app))
                                    (currentCourseId (setDirectoryHandle dirHandle app))
                                    (localStorage (setDirectoryHandle dirHandle app))
                                    (assoc_set (handleDB (setDirectoryHandle dirHandle app))
                                       courseId dirHandle))) with
                      | Completed app' =>
                          (app', [select_folder_modal (course_name courseData)])
                      | Threw app' =>
                          (dropFromLibrary courseId app',
                           [select_folder_modal (course_name courseData)]
                             ++ [library_error_modal])
                      end
                end ->
            In library_error_modal (snd r) <->
            assoc_get (courseLibrary (fst r)) courseId = None).
  { intros r ->. destruct picker as [dirHandle| |].
    - destruct (negb (String.eqb (name dirHandle) (course_name courseData))).
      + cbn [fst snd setDirectoryHandle courseLibrary List.app]. rewrite Hget.
        split; [|discriminate].
        intros [E|[E|[]]]; apply (f_equal modal_title) in E; discriminate.
      + apply Hfinish; [exact Hselect|].
        unfold setEntryHandle. cbn [courseLibrary setDirectoryHandle]. rewrite Hget.
        cbn [setCourseLibrary courseLibrary]. rewrite assoc_get_set. discriminate.
    - cbn [fst snd]. rewrite Hget. split; [intros H; now apply Hselect in H | discriminate].
    - cbn [fst snd]. split; [intros _; apply Hdrop|]. intros _. right. now left. }
  destruct (assoc_get (handleDB app) courseId) as [handle|]; [|now apply Hreselect].
  destruct access.
  - apply Hfinish; [intros []|].
    unfold setEntryHandle. cbn [courseLibrary setDirectoryHandle]. rewrite Hget.
    cbn [setCourseLibrary courseLibrary]. rewrite assoc_get_set. discriminate.
  - cbn [fst snd]. rewrite Hget. split; [|discriminate].
    intros [E|[]]. apply (f_equal modal_title) in E. discriminate.
  - now apply Hreselect.
Qed.

Lemma course_leaves_library_iff_error_shown_witness :
  let result :=
    loadCourseFromLibrary collate "my_course" access_refused picker_aborted clock
      resuming_viewer in
  assoc_get (courseLibrary resuming_viewer) "my_course"
    = Some (mkCourseData "My Course" None 1000 1001) /\
  snd result = [permission_denied_modal] /\
  (In library_error_modal (snd result) <->
   assoc_get (courseLibrary (fst result)) "my_course" = None).
Proof.
  intros result.
  assert (H1 : assoc_get (courseLibrary resuming_viewer) "my_course"
               = Some (mkCourseData "My Course" None 1000 1001)) by reflexivity.
  split; [exact H1|]. split; [reflexivity|].
  exact (course_leaves_library_iff_error_shown collate "my_course" access_refused
           picker_aborted clock resuming_viewer _ H1).
Defined.

(** ** The last session *)

(** Extra X26.  Loading a lesson of an identified course stores a session
    that [loadLastSessionForCourse] reads back with the same position, lesson
    name and time, makes the course the last course, and gives
    [getLastViewedLesson] the lesson's name ([null] for an empty name); the
    sessions of other courses are not touched. *)
Theorem last_session_round_trip
  (timestamp sectionIndex lessonIndex : Z) (app : CourseViewer) (courseId : string)
  (section : CourseSection) (lesson : Lesson) :
  currentCourseId app = Some courseId -> courseId <> "" ->
  at_index (courseStructure app) sectionIndex = Some section ->
  at_index (lessons section) lessonIndex = Some lesson ->
  exists app',
    loadLesson timestamp sectionIndex lessonIndex app = Normal app' /\
    loadLastSessionForCourse courseId app' =
      Some (mkSessionData sectionIndex lessonIndex (lesson_name lesson) timestamp) /\
    last_course_id (localStorage app') = Some courseId /\
    getLastViewedLesson courseId app' =
      (if String.eqb (lesson_name lesson) "" then None else Some (lesson_name lesson)) /\
    (forall other, other <> courseId ->
       loadLastSessionForCourse other app' = loadLastSessionForCourse other app).
Proof.
  intros Hid Hne Hs Hl. unfold loadLesson, saveLastSession. rewrite Hs, Hl.
  cbn [setCurrentLesson currentLesson currentCourseId courseStructure]. rewrite Hid, Hs, Hl.
  assert (Ht : truthyId (Some courseId) = Some courseId)
    by (destruct courseId; [congruence | reflexivity]).
  rewrite Ht. eexists. split; [reflexivity|].
  unfold loadLastSessionForCourse, getLastViewedLesson.
  cbn [localStorage last_session last_course_id]. rewrite assoc_get_set.
  cbn [session_lessonName].
  split; [reflexivity|]. split; [reflexivity|]. split.
  - destruct (lesson_name lesson); reflexivity.
  - intros other Ho. now apply assoc_get_set_other.
Qed.

Lemma last_session_round_trip_witness :
  currentCourseId intro_session = Some "my_course" /\
  "my_course" <> "" /\
  exists section lesson,
    at_index (courseStructure intro_session) 0 = Some section /\
    at_index (lessons section) 1 = Some lesson /\
    exists app',
      loadLesson 2000 0 1 intro_session = Normal app' /\
      getLastViewedLesson "my_course" app' = Some "Setup".
Proof.
  assert (H1 : currentCourseId intro_session = Some "my_course") by (vm_compute; reflexivity).
  assert (H2 : "my_course" <> "") by discriminate.
  split; [exact H1|]. split; [exact H2|].
  assert (H3 : exists section,
             at_index (courseStructure intro_session) 0 = Some section /\
             exists lesson, at_index (lessons section) 1 = Some lesson /\
                            lesson_name lesson = "Setup").
  { vm_compute. eexists. split; [reflexivity|]. eexists. split; reflexivity. }
  destruct H3 as (section & Hs & lesson & Hl & Hn).
  exists section, lesson. split; [exact Hs|]. split; [exact Hl|].
  destruct (last_session_round_trip 2000 0 1 intro_session "my_course" section lesson
              H1 H2 Hs Hl) as (app' & E & _ & _ & Hv & _).
  exists app'. split; [exact E|]. rewrite Hv, Hn. reflexivity.
Defined.

(** ** The ends of the progress bar *)

(** Extra X27.  For a course of at most 2^40 lessons the percentage is 0
    when no lesson is complete and 100 when all are. *)
Theorem percentage_endpoints (totalLessons : Z) :
  0 < totalLessons <= 2 ^ 40 ->
  percentageOf 0 totalLessons = 0 /\ percentageOf totalLessons totalLessons = 100.
Proof.
  intros Ht. split.
  - destruct (percentageOf_rounds 0 totalLessons ltac:(lia) Ht) as [_ H].
    rewrite H.
    + unfold spec_round_percent. apply Z.div_small. lia.
    + unfold spec_isHalf. rewrite Z.mod_small; lia.
  - destruct (percentageOf_rounds totalLessons totalLessons ltac:(lia) Ht) as [_ H].
    assert (E : 200 * totalLessons + totalLessons = 100 * (2 * totalLessons) + totalLessons)
      by lia.
    rewrite H.
    + unfold spec_round_percent. rewrite E.
      rewrite Z.add_comm, Z.div_add by lia. rewrite Z.div_small; lia.
    + unfold spec_isHalf. rewrite E.
      rewrite Z.add_comm, Z.mod_add by lia. rewrite Z.mod_small; lia.
Qed.

Lemma percentage_endpoints_witness :
  0 < 2 <= 2 ^ 40 /\ percentageOf 0 2 = 0 /\ percentageOf 2 2 = 100.
Proof.
  assert (H : 0 < 2 <= 2 ^ 40) by (split; [lia | vm_compute; discriminate]).
  split; [exact H|]. exact (percentage_endpoints 2 H).
Defined.
